(** * Dataset-preparation toolkit: annotation converter and image enhancer

    A shallow embedding of [json2txt_converter.py] and [image_enhancement.py],
    the properties of the two programs that their specification states,
    and further properties that the code itself has.

    - A value that comes out of [json.load] is a tree of type [json]; an
      [int] is a [Z], a [float] is an IEEE binary64 number ([spec_float]
      with precision 53), and [format(v, '.kf')] is the exact decimal
      rounding of that number, ties to even.
    - A [str] is a Rocq [string], one character per code point below 256.
    - An exception is an explicit error result ([result]); a [try] is a
      match on it.
    - The file system and the imaging library answer through functions
      handed to the programs: what a directory lists, what opening or
      parsing a file gives, whether a directory can be created or a file
      written, what an image operation returns.  These answers are fixed
      functions of the path: the files a program reads are taken not to
      lie among the paths it writes.  The output directories of the
      enhancer are taken to exist.
    - The files a program writes are a finite map from path to content;
      what it prints is a list of log lines, one constructor per [print]
      in the source. *)

From Stdlib Require Import ZArith NArith String Ascii List Bool Lia.
From Stdlib Require Import Floats.SpecFloat.
From stdpp Require Import base option list gmap strings pretty.

Local Open Scope Z_scope.

(* ===================================================================== *)
(** * Part I: the Python fragment the two programs rely on               *)
(* ===================================================================== *)

Module Py.

(** ** Values produced by [json.load] *)

#[warnings="-register-all"]
Inductive json : Type :=
| JNull
| JBool (b : bool)
| JInt (z : Z)
| JFloat (f : spec_float)
| JStr (s : string)
| JArr (items : list json)
| JObj (fields : list (string * json)).

(** ** Exceptions *)

(** The [ValueError]s are told apart by where they are raised. *)
Inductive value_error : Type :=
| DimensionsNotFound            (* converter, line 56 *)
| UnknownClass (label : json)   (* converter, line 66 *)
| NoClassSource                 (* converter, line 24 *)
| UnknownFormatCode             (* format code 'f' applied to a str *)
| NotInList.                    (* list.index on an absent element *)

Inductive exn : Type :=
| ValueError (why : value_error)
| TypeError
| AttributeError
| IndexError
| KeyError
| ZeroDivisionError
| OverflowError
| UnicodeDecodeError
| JSONDecodeError
| OSError.

Inductive result (A : Type) : Type :=
| Ok (a : A)
| Raise (e : exn).
Arguments Ok {A} a.
Arguments Raise {A} e.

#[global] Instance result_ret : MRet result := fun _ a => Ok a.
#[global] Instance result_bind : MBind result := fun _ _ k m =>
  match m with Ok a => k a | Raise e => Raise e end.
#[global] Instance result_fmap : FMap result := fun _ _ g m =>
  match m with Ok a => Ok (g a) | Raise e => Raise e end.

Definition is_ok {A} (r : result A) : bool :=
  match r with Ok _ => true | Raise _ => false end.

(** ** Strings *)

Definition nl : string := String (ascii_of_nat 10) EmptyString.

(** [str.isspace] on the code points below 256. *)
Definition is_space (a : ascii) : bool :=
  let n := nat_of_ascii a in
  ((9 <=? n) && (n <=? 13) || (28 <=? n) && (n <=? 32)
   || (n =? 133) || (n =? 160))%nat.

Fixpoint lstrip (s : string) : string :=
  match s with
  | EmptyString => EmptyString
  | String a s' => if is_space a then lstrip s' else s
  end.

Fixpoint rstrip (s : string) : string :=
  match s with
  | EmptyString => EmptyString
  | String a s' =>
      match rstrip s' with
      | EmptyString => if is_space a then EmptyString else String a EmptyString
      | r => String a r
      end
  end.

(** [s.strip()] *)
Definition strip (s : string) : string := rstrip (lstrip s).

(** [s.split(sep)] for a one-character separator. *)
Fixpoint split (sep : ascii) (s : string) : list string :=
  match s with
  | EmptyString => [EmptyString]
  | String a s' =>
      if Ascii.eqb a sep then EmptyString :: split sep s'
      else match split sep s' with
           | h :: t => String a h :: t
           | [] => [String a EmptyString]
           end
  end.

(** [sep.join(parts)] *)
Fixpoint join (sep : string) (parts : list string) : string :=
  match parts with
  | [] => EmptyString
  | [p] => p
  | p :: rest => p +:+ sep +:+ join sep rest
  end.

(** [str.lower] on the code points below 256: A-Z and the accented capitals
    0xC0-0xDE (the multiplication sign 0xD7 apart) move up by 32. *)
Definition lower_char (a : ascii) : ascii :=
  let n := nat_of_ascii a in
  if ((65 <=? n) && (n <=? 90)
      || (192 <=? n) && (n <=? 222) && negb (n =? 215))%nat
  then ascii_of_nat (n + 32) else a.

Fixpoint lower (s : string) : string :=
  match s with
  | EmptyString => EmptyString
  | String a s' => String (lower_char a) (lower s')
  end.

(** [s.endswith(suffix)] *)
Fixpoint endswith (s suffix : string) : bool :=
  if String.eqb s suffix then true
  else match s with
       | EmptyString => false
       | String _ s' => endswith s' suffix
       end.

Definition startswith (s pre : string) : bool := String.prefix pre s.

(** [s.rpartition(c)] as an option: the text before the last [c], and the
    text from that [c] on.  [None] when [c] does not occur. *)
Fixpoint rsplit_at (c : ascii) (s : string) : option (string * string) :=
  match s with
  | EmptyString => None
  | String a s' =>
      match rsplit_at c s' with
      | Some (pre, suf) => Some (String a pre, suf)
      | None => if Ascii.eqb a c then Some (EmptyString, s) else None
      end
  end.

Fixpoint all_dots (s : string) : bool :=
  match s with
  | EmptyString => true
  | String a s' => Ascii.eqb a "."%char && all_dots s'
  end.

(** [os.path.splitext] (posixpath): the extension starts at the last dot of
    the last path component, unless only dots stand before it there. *)
Definition splitext (p : string) : string * string :=
  let '(dir, name) :=
    match rsplit_at "/"%char p with
    | Some (pre, String _ rest) => (pre +:+ "/", rest)
    | _ => (EmptyString, p)
    end in
  match rsplit_at "."%char name with
  | Some (stem, ext) =>
      if all_dots stem then (p, EmptyString) else (dir +:+ stem, ext)
  | None => (p, EmptyString)
  end.

(** [os.path.join(a, b)] (posixpath). *)
Definition path_join (a b : string) : string :=
  if startswith b "/" then b
  else if String.eqb a EmptyString || endswith a "/" then a +:+ b
  else a +:+ "/" +:+ b.

(** ** Truthiness, dictionaries, iteration, subscripts *)

Definition float_is_zero (f : spec_float) : bool :=
  match f with S754_zero _ => true | _ => false end.

(** [bool(v)] *)
Definition truthy (v : json) : bool :=
  match v with
  | JNull => false
  | JBool b => b
  | JInt z => negb (z =? 0)
  | JFloat f => negb (float_is_zero f)
  | JStr s => negb (String.eqb s EmptyString)
  | JArr l => match l with [] => false | _ => true end
  | JObj d => match d with [] => false | _ => true end
  end.

(** A [dict] with [str] keys, in insertion order. *)
Fixpoint dict_get (k : string) (d : list (string * json)) : option json :=
  match d with
  | [] => None
  | (k', v) :: d' => if String.eqb k' k then Some v else dict_get k d'
  end.

(** [d[k] = v]: the value is replaced where the key stands, or the pair is
    added at the end. *)
Fixpoint dict_set (k : string) (v : json) (d : list (string * json))
  : list (string * json) :=
  match d with
  | [] => [(k, v)]
  | (k', v') :: d' =>
      if String.eqb k' k then (k', v) :: d' else (k', v') :: dict_set k v d'
  end.

(** [o.get(k, default)]: only a [dict] has the method. *)
Definition py_get (o : json) (k : string) (dflt : json) : result json :=
  match o with
  | JObj d => Ok (default dflt (dict_get k d))
  | _ => Raise AttributeError
  end.

(** [for x in v]: the elements of a list, the characters of a str, the keys
    of a dict; nothing else that [json.load] returns is iterable. *)
Fixpoint chars (s : string) : list json :=
  match s with
  | EmptyString => []
  | String a s' => JStr (String a EmptyString) :: chars s'
  end.

Definition py_iter (v : json) : result (list json) :=
  match v with
  | JArr l => Ok l
  | JStr s => Ok (chars s)
  | JObj d => Ok (map (fun kv => JStr (fst kv)) d)
  | _ => Raise TypeError
  end.

(** [v[i]] for a literal index [i]. *)
Definition subscript (v : json) (i : nat) : result json :=
  match v with
  | JArr l => match nth_error l i with
              | Some x => Ok x
              | None => Raise IndexError
              end
  | JStr s => match String.get i s with
              | Some a => Ok (JStr (String a EmptyString))
              | None => Raise IndexError
              end
  | JObj _ => Raise KeyError
  | _ => Raise TypeError
  end.

(** [v in l] for a list [l] of str: only a str can equal an element. *)
Definition py_in (v : json) (l : list string) : bool :=
  match v with
  | JStr s => existsb (String.eqb s) l
  | _ => false
  end.

Fixpoint index_of (s : string) (l : list string) : option nat :=
  match l with
  | [] => None
  | c :: l' => if String.eqb c s then Some O else S <$> index_of s l'
  end.

(** [l.index(v)] *)
Definition py_index (v : json) (l : list string) : result nat :=
  match v with
  | JStr s => match index_of s l with
              | Some i => Ok i
              | None => Raise (ValueError NotInList)
              end
  | _ => Raise (ValueError NotInList)
  end.

(** ** Numbers: [int] is [Z], [float] is IEEE binary64 *)

Definition prec : Z := 53.
Definition emax : Z := 1024.

Inductive num : Type :=
| NInt (z : Z)
| NFloat (f : spec_float).

(** [bool] is a subclass of [int]. *)
Definition as_num (v : json) : option num :=
  match v with
  | JBool b => Some (NInt (if b then 1 else 0))
  | JInt z => Some (NInt z)
  | JFloat f => Some (NFloat f)
  | _ => None
  end.

(** [float(z)]: the nearest double, ties to even; too large an int raises. *)
Definition float_of_int (z : Z) : result spec_float :=
  match binary_normalize prec emax z 0 false with
  | S754_infinity _ => Raise OverflowError
  | f => Ok f
  end.

Definition to_float (n : num) : result spec_float :=
  match n with
  | NInt z => float_of_int z
  | NFloat f => Ok f
  end.

Definition raw_int (z : Z) : spec_float :=
  match z with
  | Z0 => S754_zero false
  | Zpos p => S754_finite false p 0
  | Zneg p => S754_finite true p 0
  end.

(** [a / b] on two ints: the correctly rounded quotient of the integers
    themselves, whatever their size. *)
Definition int_truediv (a b : Z) : result spec_float :=
  if b =? 0 then Raise ZeroDivisionError
  else match SFdiv prec emax (raw_int a) (raw_int b) with
       | S754_infinity _ => Raise OverflowError
       | q => Ok q
       end.

(** [a / b] *)
Definition truediv (a b : json) : result spec_float :=
  match as_num a, as_num b with
  | Some (NInt x), Some (NInt y) => int_truediv x y
  | Some x, Some y =>
      fx ← to_float x;
      fy ← to_float y;
      if float_is_zero fy then Raise ZeroDivisionError
      else Ok (SFdiv prec emax fx fy)
  | _, _ => Raise TypeError
  end.

(** ** Fixed-point formatting: [format(v, '.kf')] *)

Definition pow10 (k : nat) : Z := 10 ^ Z.of_nat k.

(** The integer nearest to [m * 2^e * 10^k], ties to even. *)
Definition scaled_round (m : positive) (e : Z) (k : nat) : Z :=
  let n := Zpos m * pow10 k in
  if 0 <=? e then n * 2 ^ e
  else
    let d := 2 ^ (- e) in
    let q := n / d in
    match 2 * (n mod d) ?= d with
    | Lt => q
    | Gt => q + 1
    | Eq => if Z.even q then q else q + 1
    end.

Definition digit_char (d : Z) : ascii := ascii_of_N (Z.to_N (48 + d)).

(** The last [k] decimal digits of [n], in front of [acc]. *)
Fixpoint digits (k : nat) (n : Z) (acc : string) : string :=
  match k with
  | O => acc
  | S k' => digits k' (n / 10) (String (digit_char (n mod 10)) acc)
  end.

(** [n / 10^k] written with [k] digits after the point. *)
Definition fixed (k : nat) (n : Z) : string :=
  pretty (n / pow10 k)
  +:+ match k with
      | O => EmptyString
      | _ => "." +:+ digits k (n mod pow10 k) EmptyString
      end.

Definition sign (s : bool) : string := if s then "-" else EmptyString.

Definition format_float (k : nat) (f : spec_float) : string :=
  match f with
  | S754_nan => "nan"
  | S754_infinity s => sign s +:+ "inf"
  | S754_zero s => sign s +:+ fixed k 0
  | S754_finite s m e => sign s +:+ fixed k (scaled_round m e k)
  end.

(** [f"{v:.kf}"]: an int is converted to float first, a str refuses the
    format code, None, lists and dicts refuse any format spec. *)
Definition format_f (k : nat) (v : json) : result string :=
  match v with
  | JFloat f => Ok (format_float k f)
  | JInt z => format_float k <$> float_of_int z
  | JBool b => format_float k <$> float_of_int (if b then 1 else 0)
  | JStr _ => Raise (ValueError UnknownFormatCode)
  | _ => Raise TypeError
  end.

(** ** Which exceptions an expression can raise *)

(** [r] raises, if it raises, only an exception that [P] accepts. *)
Definition raises_only {A} (P : exn -> bool) (r : result A) : Prop :=
  match r with
  | Ok _ => True
  | Raise e => P e = true
  end.

(** The exceptions that evaluating expressions over parsed JSON can raise
    once every divisor is known to be truthy. *)
Definition from_evaluation (e : exn) : bool :=
  match e with
  | ZeroDivisionError | UnicodeDecodeError | JSONDecodeError | OSError => false
  | _ => true
  end.

End Py.

(* ===================================================================== *)
(** * Part II: json2txt_converter.py                                     *)
(* ===================================================================== *)

Module Converter.
Import Py.

(** What the program prints, one constructor per [print] call site. *)
Inductive log_line : Type :=
| SkipEncoding (json_path : string)
| SkipInvalidJson (json_path : string)
| ErrorProcessing (json_path : string) (e : exn)
| LoadedClasses (n : nat)
| ConversionCompleted.

(** The files under the save directory, by path, and standard output. *)
Record state : Type := mkState {
  files : gmap string string;
  stdout : list log_line
}.

Definition initial : state := mkState ∅ [].

Definition write (path content : string) (st : state) : state :=
  mkState (<[path := content]> (files st)) (stdout st).

Definition print (l : log_line) (st : state) : state :=
  mkState (files st) (stdout st ++ [l]).

(** Truth value of an optional command-line string: absent and empty are
    both false. *)
Definition given (o : option string) : bool :=
  match o with
  | Some s => negb (String.eqb s EmptyString)
  | None => false
  end.

Definition nonempty (s : string) : bool := negb (String.eqb s EmptyString).

(** [load_classes]; [open_lines path] is what iterating over the opened
    text file yields, or the error of [open]. *)
Definition load_classes (open_lines : string -> result (list string))
    (classes_file classes_str : option string) : result (list string) :=
  if given classes_file then
    lines ← open_lines (default EmptyString classes_file);
    Ok (filter (fun c => Is_true (nonempty c)) (map strip lines))
  else if given classes_str then
    Ok (filter (fun c => Is_true (nonempty c))
          (map strip (split ","%char (default EmptyString classes_str))))
  else Raise (ValueError NoClassSource).

(** The text of a label inside an f-string; only a str label reaches the
    place where the line is built. *)
Definition label_text (label : json) : string :=
  match label with
  | JStr s => s
  | _ => EmptyString
  end.

(** One element of the [normalized] comprehension (line 77). *)
Definition yolo_pair (img_w img_h p : json) : result string :=
  x ← subscript p 0;
  qx ← truediv x img_w;
  y ← subscript p 1;
  qy ← truediv y img_h;
  Ok (format_float 6 qx +:+ " " +:+ format_float 6 qy).

(** One element of the [coordinates] comprehension (line 81). *)
Definition voc_pair (p : json) : result string :=
  x ← subscript p 0;
  sx ← format_f 1 x;
  y ← subscript p 1;
  sy ← format_f 1 y;
  Ok (sx +:+ " " +:+ sy).

(** The body of the loop over shapes (lines 61-84): [Ok None] is
    [continue], [Ok (Some line)] is the appended line. *)
Definition shape_line (classes : list string) (format : string)
    (img_w img_h shape : json) : result (option string) :=
  label ← py_get shape "label" JNull;
  if negb (truthy label) then Ok None
  else if negb (py_in label classes) then
    Raise (ValueError (UnknownClass label))
  else
    points ← py_get shape "points" (JArr []);
    if negb (truthy points) then Ok None
    else
      class_idx ← py_index label classes;
      ps ← py_iter points;
      if String.eqb format "yolo" then
        normalized ← mapM (yolo_pair img_w img_h) ps;
        Ok (Some (pretty class_idx +:+ " " +:+ join " " normalized +:+ nl))
      else
        coordinates ← mapM voc_pair ps;
        Ok (Some (label_text label +:+ " " +:+ join " " coordinates +:+ nl)).

Fixpoint shapes_loop (classes : list string) (format : string)
    (img_w img_h : json) (shapes : list json) (txt_content : list string)
  : result (list string) :=
  match shapes with
  | [] => Ok txt_content
  | shape :: rest =>
      r ← shape_line classes format img_w img_h shape;
      shapes_loop classes format img_w img_h rest
        (match r with
         | Some txt_line => txt_content ++ [txt_line]
         | None => txt_content
         end)
  end.

(** Lines 52-84: from the parsed document to the lines of the text file. *)
Definition transcode (classes : list string) (format : string) (data : json)
  : result (list string) :=
  img_h ← py_get data "imageHeight" JNull;
  img_w ← py_get data "imageWidth" JNull;
  if negb (truthy img_h) || negb (truthy img_w) then
    Raise (ValueError DimensionsNotFound)
  else
    shapes ← py_get data "shapes" (JArr []);
    items ← py_iter shapes;
    shapes_loop classes format img_w img_h items [].

(** One entry of [os.listdir(json_dir)] with what the file system answers
    for it: what opening and parsing the file gives, and whether its text
    file can be opened for writing. *)
Record entry : Type := mkEntry {
  json_fname : string;
  loaded : result json;
  created : result unit
}.

Definition txt_path (save_dir json_fname : string) : string :=
  path_join save_dir (fst (splitext json_fname) +:+ ".txt").

(** The body of the loop over files (lines 42-96). *)
Definition convert_one (json_dir save_dir : string) (classes : list string)
    (format : string) (st : state) (f : entry) : state :=
  if negb (endswith (lower (json_fname f)) ".json") then st
  else
    let json_path := path_join json_dir (json_fname f) in
    match
      data ← loaded f;
      txt_content ← transcode classes format data;
      _ ← created f;
      Ok txt_content
    with
    | Ok txt_content =>
        write (txt_path save_dir (json_fname f))
          (String.concat EmptyString txt_content) st
    | Raise UnicodeDecodeError => print (SkipEncoding json_path) st
    | Raise JSONDecodeError => print (SkipInvalidJson json_path) st
    | Raise e => print (ErrorProcessing json_path e) st
    end.

(** [convert_json_to_txt] over the listing of [json_dir]. *)
Definition convert_json_to_txt (json_dir save_dir : string)
    (classes : list string) (format : string) (listing : list entry)
    (st : state) : state :=
  fold_left (convert_one json_dir save_dir classes format) listing st.

(** The parsed command line. *)
Record args : Type := mkArgs {
  arg_json_dir : string;
  arg_save_dir : string;
  arg_classes_file : option string;
  arg_classes : option string;
  arg_format : string
}.

(** The file system the program reads, and whether it lets the save
    directory be created (line 38). *)
Record world : Type := mkWorld {
  open_lines : string -> result (list string);
  makedirs : string -> result unit;   (* os.makedirs(path, exist_ok=True) *)
  listdir : string -> result (list entry)
}.

(** The [choices] of the [--format] flag (line 105). *)
Definition format_choices : list string := ["yolo"; "voc"].

Inductive outcome : Type :=
| UsageError (st : state)          (* parser.error: usage, exit status 2 *)
| Uncaught (e : exn) (st : state)  (* traceback *)
| Finished (st : state).

(** [main], on a command line that gives the two required directories.
    [parse_args] (line 108) refuses a format outside the choices; the save
    directory is created (line 38) and the directory listed (line 41)
    outside every [try]. *)
Definition main (w : world) (a : args) : outcome :=
  if negb (existsb (String.eqb (arg_format a)) format_choices) then
    UsageError initial
  else if negb (given (arg_classes_file a)) && negb (given (arg_classes a)) then
    UsageError initial
  else
    match load_classes (open_lines w) (arg_classes_file a) (arg_classes a) with
    | Raise e => Uncaught e initial
    | Ok classes_list =>
        let st := print (LoadedClasses (length classes_list)) initial in
        match makedirs w (arg_save_dir a) with
        | Raise e => Uncaught e st
        | Ok _ =>
            match listdir w (arg_json_dir a) with
            | Raise e => Uncaught e st
            | Ok listing =>
                Finished
                  (print ConversionCompleted
                     (convert_json_to_txt (arg_json_dir a) (arg_save_dir a)
                        classes_list (arg_format a) listing st))
            end
        end
    end.

End Converter.

(* ===================================================================== *)
(** * Part III: what happens when the converter is loaded                *)
(* ===================================================================== *)

Module ModuleLoad.
Import Py.

(** Expressions that stand in annotations. *)
Inductive expr : Type :=
| Name (id : string)
| Attribute (value : expr) (attr : string)
| Subscript (value slice : expr)
| Constant.

(** The statements at the top level of the two source files. *)
Inductive stmt : Type :=
| Import (modname : string) (bound : list string)
    (* import modname / from modname import bound, ... *)
| Def (name : string) (annotations : list expr)
    (* def name(...), with the annotations of its parameters and result *)
| IfMain (callee : string).
    (* if __name__ == "__main__": callee() *)

(** When a [def] statement evaluates the annotations of its parameters:
    as it runs (every interpreter up to 3.13), or only on request
    (PEP 649). *)
Inductive annotation_semantics : Type :=
| Eager
| Deferred.

(** The names of the builtins namespace that matter here; [List] is not a
    builtin of any Python. *)
Definition builtins : list string :=
  ["str"; "int"; "float"; "bool"; "list"; "dict"; "tuple"; "len"; "open";
   "print"; "ValueError"; "Exception"; "UnicodeDecodeError"].

(** The names an expression looks up, in evaluation order. *)
Fixpoint names_of (e : expr) : list string :=
  match e with
  | Name id => [id]
  | Attribute v _ => names_of v
  | Subscript v s => names_of v ++ names_of s
  | Constant => []
  end.

(** The first name that neither the module nor the builtins bind. *)
Definition unbound (globals : list string) (es : list expr) : option string :=
  List.find (fun id => negb (existsb (String.eqb id) (globals ++ builtins)))
    (flat_map names_of es).

Inductive loaded : Type :=
| ModuleNotFoundError (modname : string) (globals : list string)
| NameError (name : string) (globals : list string)
| CallsMain (callee : string) (globals : list string)
| Imported (globals : list string).

(** Running the statements of a module, launched as a script, on an
    interpreter where [installed] tells which modules an import finds. *)
Fixpoint exec (sem : annotation_semantics) (installed : string -> bool)
    (globals : list string) (body : list stmt) : loaded :=
  match body with
  | [] => Imported globals
  | Import modname bound :: rest =>
      if installed modname then exec sem installed (globals ++ bound) rest
      else ModuleNotFoundError modname globals
  | Def name annotations :: rest =>
      match sem, unbound globals annotations with
      | Eager, Some id => NameError id globals
      | _, _ => exec sem installed (globals ++ [name]) rest
      end
  | IfMain callee :: _ =>
      if existsb (String.eqb callee) (globals ++ builtins)
      then CallsMain callee globals
      else NameError callee globals
  end.

(** The top level of json2txt_converter.py. *)
Definition json2txt_converter : list stmt :=
  [Import "os" ["os"]; Import "json" ["json"];
   Import "argparse" ["argparse"]; Import "tqdm" ["tqdm"];
   Def "load_classes" [];
   Def "convert_json_to_txt"
     [Name "str"; Name "str"; Subscript (Name "List") (Name "str");
      Name "str"; Constant];
   Def "main" [];
   IfMain "main"].

(** The modules json2txt_converter.py imports. *)
Definition converter_imports : list string :=
  ["os"; "json"; "argparse"; "tqdm"].

(** The top level of image_enhancement.py. *)
Definition image_enhancement : list stmt :=
  [Import "os" ["os"]; Import "json" ["json"]; Import "shutil" ["shutil"];
   Import "PIL" ["Image"; "ImageEnhance"; "ImageFilter"];
   Import "argparse" ["argparse"];
   Def "load_config" [];
   Def "apply_enhancement"
     [Attribute (Name "Image") "Image"; Attribute (Name "Image") "Image"];
   Def "process_dataset" [Name "str"; Name "str"; Name "str"; Constant];
   Def "main" [];
   IfMain "main"].

(** A run of the converter as a program. *)
Inductive run : Type :=
| DiesImporting (modname : string)   (* traceback: ModuleNotFoundError *)
| DiesOnName (name : string)         (* traceback: NameError *)
| Runs (o : Converter.outcome).

Definition converter_program (sem : annotation_semantics)
    (installed : string -> bool) (w : Converter.world) (a : Converter.args)
  : run :=
  match exec sem installed [] json2txt_converter with
  | ModuleNotFoundError modname _ => DiesImporting modname
  | NameError id _ => DiesOnName id
  | CallsMain _ _ => Runs (Converter.main w a)
  | Imported _ => Runs (Converter.Finished Converter.initial)
  end.

End ModuleLoad.

(* ===================================================================== *)
(** * Part IV: image_enhancement.py                                      *)
(* ===================================================================== *)

Module Enhancer.
Import Py.

(** The imaging library (PIL) as the program uses it.  Its operations
    return new images and may raise; what they compute is left open. *)
Class Imaging : Type := {
  image : Type;
  exif : Type;
  (** [ImageEnhance.Brightness(img).enhance(factor)], and so on *)
  brightness : image -> json -> result image;
  contrast : image -> json -> result image;
  sharpness : image -> json -> result image;
  color : image -> json -> result image;
  (** [img.filter(ImageFilter.GaussianBlur(radius=r))] *)
  gaussian_blur : image -> json -> result image;
  (** [img.info.get('exif')] *)
  exif_of : image -> option exif;
  (** [img.mode == 'RGB'] and [img.convert('RGB')] *)
  is_rgb : image -> bool;
  convert_rgb : image -> result image;
  (** [img.save(path, exif=exif)]: whether the encoder accepts *)
  save : string -> image -> option exif -> result unit
}.

(** [v > 0] *)
Definition gt_zero (v : json) : result bool :=
  match as_num v with
  | Some (NInt z) => Ok (0 <? z)
  | Some (NFloat f) => Ok (SFltb (S754_zero false) f)
  | None => Raise TypeError
  end.

Definition has_key (k : string) (d : list (string * json)) : bool :=
  match dict_get k d with
  | Some _ => true
  | None => false
  end.

(** [d[k]] where the key is known to be there. *)
Definition item (k : string) (d : list (string * json)) : json :=
  default JNull (dict_get k d).

(** [apply_enhancement].  The copy made on line 25 is the image itself:
    no operation of the library changes an image in place. *)
Definition apply_enhancement `{Imaging} (img : image)
    (enhance_params : list (string * json)) : result image :=
  let enhanced_img := img in
  enhanced_img ←
    (if has_key "brightness" enhance_params
     then brightness enhanced_img (item "brightness" enhance_params)
     else Ok enhanced_img);
  enhanced_img ←
    (if has_key "contrast" enhance_params
     then contrast enhanced_img (item "contrast" enhance_params)
     else Ok enhanced_img);
  enhanced_img ←
    (if has_key "sharpness" enhance_params
     then sharpness enhanced_img (item "sharpness" enhance_params)
     else Ok enhanced_img);
  enhanced_img ←
    (if has_key "color" enhance_params
     then color enhanced_img (item "color" enhance_params)
     else Ok enhanced_img);
  enhanced_img ←
    (if has_key "blur_radius" enhance_params
     then
       above ← gt_zero (item "blur_radius" enhance_params);
       if (above : bool)
       then gaussian_blur enhanced_img (item "blur_radius" enhance_params)
       else Ok enhanced_img
     else Ok enhanced_img);
  Ok enhanced_img.

(** ** The transforms as the specification lists them *)

Inductive transform : Type :=
| Brightness
| Contrast
| Sharpness
| Color
| GaussianBlur.

(** The fixed order of section 4.1. *)
Definition fixed_order : list transform :=
  [Brightness; Contrast; Sharpness; Color; GaussianBlur].

Definition key_of (t : transform) : string :=
  match t with
  | Brightness => "brightness"
  | Contrast => "contrast"
  | Sharpness => "sharpness"
  | Color => "color"
  | GaussianBlur => "blur_radius"
  end.

Definition primitive `{Imaging} (t : transform)
  : image -> json -> result image :=
  match t with
  | Brightness => brightness
  | Contrast => contrast
  | Sharpness => sharpness
  | Color => color
  | GaussianBlur => gaussian_blur
  end.

(** A transform is applied when its key is present and, for the blur,
    when the radius is strictly positive as well. *)
Definition applies (enhance_params : list (string * json)) (t : transform)
  : bool :=
  has_key (key_of t) enhance_params
  && match t with
     | GaussianBlur =>
         match gt_zero (item "blur_radius" enhance_params) with
         | Ok b => b
         | Raise _ => false
         end
     | _ => true
     end.

(** Each transform of [ts] in turn, on the output of the one before. *)
Fixpoint chain `{Imaging} (enhance_params : list (string * json))
    (ts : list transform) (img : image) : result image :=
  match ts with
  | [] => Ok img
  | t :: rest =>
      img' ← primitive t img (item (key_of t) enhance_params);
      chain enhance_params rest img'
  end.

(** ** The run over a dataset *)

(** One entry of [config['enhancements']], shaped as the configuration
    schema says. *)
Record enhancement : Type := mkEnhancement {
  alias : string;
  parameters : list (string * json)
}.

(** What the program reads.  Each answer is a function of the path alone:
    the images and annotations that are read are taken not to lie among
    the paths the run writes, so that a file read for a later job is the
    file that was there at the start. *)
Record dataset `{Imaging} : Type := mkDataset {
  image_dir : string;
  annotation_dir : string;
  image_listing : list string;               (* os.listdir(image_dir) *)
  annotation_exists : string -> bool;        (* os.path.exists *)
  open_image : string -> result image;       (* Image.open *)
  load_annotation : string -> result json;   (* open, then json.load *)
  open_for_writing : string -> result unit   (* open(path, 'w') *)
}.

Arguments mkDataset {_} _ _ _ _ _ _ _.

Inductive file `{Imaging} : Type :=
| ImageFile (img : image) (meta : option exif)
| JsonFile (doc : json).
Arguments ImageFile {_} img meta.
Arguments JsonFile {_} doc.

Inductive log_line : Type :=
| SkippingUnannotated (img_file : string)
| Processed (img_file : string) (generated : nat)
| FailedAnnotation (annotation_path : string) (e : exn)
| FailedImage (img_file : string) (e : exn).

Record state `{Imaging} : Type := mkState {
  files : gmap string file;
  stdout : list log_line
}.
Arguments mkState {_} files stdout.

Definition initial `{Imaging} : state := mkState ∅ [].

Definition write `{Imaging} (path : string) (content : file) (st : state)
  : state :=
  mkState (<[path := content]> (files st)) (stdout st).

Definition print `{Imaging} (l : log_line) (st : state) : state :=
  mkState (files st) (stdout st ++ [l]).

Definition image_extensions : list string :=
  [".png"; ".jpg"; ".jpeg"; ".bmp"; ".tiff"].

(** [img_file.lower().endswith(image_extensions)] *)
Definition has_image_extension (img_file : string) : bool :=
  existsb (endswith (lower img_file)) image_extensions.

Definition new_img_name (base_name ext a : string) : string :=
  base_name +:+ "_" +:+ a +:+ ext.

Definition img_output_path (output_root base_name ext a : string) : string :=
  path_join (path_join output_root ("images_" +:+ a))
    (new_img_name base_name ext a).

Definition new_ann_name (base_name a : string) : string :=
  base_name +:+ "_" +:+ a +:+ ".json".

Definition ann_output_path (output_root base_name a : string) : string :=
  path_join (path_join output_root ("annotations_" +:+ a))
    (new_ann_name base_name a).

(** [ann_data['imagePath'] = v]: only a dict takes a str key. *)
Definition set_item (o : json) (k : string) (v : json) : result json :=
  match o with
  | JObj d => Ok (JObj (dict_set k v d))
  | _ => Raise TypeError
  end.

(** Lines 109-119: the annotation of one variant. *)
Definition rewrite_annotation `{Imaging} (ds : dataset)
    (output_root annotation_path base_name ext a : string) (st : state)
  : state :=
  match
    ann_data ← load_annotation ds annotation_path;
    ann_data ← set_item ann_data "imagePath"
                 (JStr (new_img_name base_name ext a));
    _ ← open_for_writing ds (ann_output_path output_root base_name a);
    Ok ann_data
  with
  | Ok ann_data =>
      write (ann_output_path output_root base_name a) (JsonFile ann_data) st
  | Raise e => print (FailedAnnotation annotation_path e) st
  end.

(** Lines 97-119: the loop over the enhancements for one opened image; an
    exception of the engine or of [save] leaves the loop. *)
Fixpoint variants_loop `{Imaging} (ds : dataset)
    (output_root annotation_path base_name ext : string) (img : image)
    (meta : option exif) (enhancements : list enhancement) (st : state)
  : state * option exn :=
  match enhancements with
  | [] => (st, None)
  | enh :: rest =>
      match
        enhanced_img ← apply_enhancement img (parameters enh);
        _ ← save (img_output_path output_root base_name ext (alias enh))
              enhanced_img meta;
        Ok enhanced_img
      with
      | Raise e => (st, Some e)
      | Ok enhanced_img =>
          let st :=
            write (img_output_path output_root base_name ext (alias enh))
              (ImageFile enhanced_img meta) st in
          let st :=
            rewrite_annotation ds output_root annotation_path base_name ext
              (alias enh) st in
          variants_loop ds output_root annotation_path base_name ext img meta
            rest st
      end
  end.

(** Lines 75-124: the body of the loop over the image directory. *)
Definition process_image `{Imaging} (ds : dataset) (output_root : string)
    (enhancements : list enhancement) (st : state) (img_file : string)
  : state :=
  if negb (has_image_extension img_file) then st
  else
    let base_name := fst (splitext img_file) in
    let ext := snd (splitext img_file) in
    let img_path := path_join (image_dir ds) img_file in
    let annotation_path :=
      path_join (annotation_dir ds) (base_name +:+ ".json") in
    if negb (annotation_exists ds annotation_path) then
      print (SkippingUnannotated img_file) st
    else
      match
        img ← open_image ds img_path;
        img' ← (if negb (is_rgb img) then convert_rgb img else Ok img);
        Ok (exif_of img, img')
      with
      | Raise e => print (FailedImage img_file e) st
      | Ok (meta, img) =>
          match variants_loop ds output_root annotation_path base_name ext
                  img meta enhancements st with
          | (st, None) =>
              print (Processed img_file (length enhancements)) st
          | (st, Some e) => print (FailedImage img_file e) st
          end
      end.

(** [process_dataset], the output directories being there. *)
Definition process_dataset `{Imaging} (ds : dataset) (output_root : string)
    (enhancements : list enhancement) (st : state) : state :=
  fold_left (process_image ds output_root enhancements) (image_listing ds) st.

(** ** What a run left behind *)

Definition is_image `{Imaging} (f : file) : bool :=
  match f with
  | ImageFile _ _ => true
  | JsonFile _ => false
  end.

Definition image_count `{Imaging} (m : gmap string file) : nat :=
  length (filter (fun kv => is_image (snd kv) = true) (map_to_list m)).

Definition annotation_count `{Imaging} (m : gmap string file) : nat :=
  length (filter (fun kv => is_image (snd kv) = false) (map_to_list m)).

Definition is_failure (l : log_line) : bool :=
  match l with
  | FailedAnnotation _ _ | FailedImage _ _ => true
  | _ => false
  end.

(** No character of [s] is the path separator. *)
Fixpoint no_slash (s : string) : bool :=
  match s with
  | EmptyString => true
  | String a s' => negb (Ascii.eqb a "/"%char) && no_slash s'
  end.

End Enhancer.

Module EnhancerRun.
Import Py Enhancer.

(** The image files of a dataset, in listing order. *)
Definition images_of `{Imaging} (ds : dataset) : list string :=
  filter (fun f => Is_true (has_image_extension f)) (image_listing ds).

Definition base_of (img_file : string) : string := fst (splitext img_file).
Definition ext_of (img_file : string) : string := snd (splitext img_file).

(** The annotation an image is paired with. *)
Definition annotation_path_of `{Imaging} (ds : dataset) (img_file : string)
  : string :=
  path_join (annotation_dir ds) (base_of img_file +:+ ".json").

(** One job per image file and configured enhancement. *)
Definition jobs (images : list string) (enhancements : list enhancement)
  : list (string * enhancement) :=
  f ← images; (fun enh => (f, enh)) <$> enhancements.

Definition image_path (output_root : string) (j : string * enhancement)
  : string :=
  img_output_path output_root (base_of (fst j)) (ext_of (fst j))
    (alias (snd j)).

Definition annotation_path (output_root : string) (j : string * enhancement)
  : string :=
  ann_output_path output_root (base_of (fst j)) (alias (snd j)).

Definition image_name (j : string * enhancement) : string :=
  new_img_name (base_of (fst j)) (ext_of (fst j)) (alias (snd j)).

(** What a job leaves when nothing fails: an image under the image path,
    and under the annotation path the annotation of the image with its
    imagePath set to the name of the new image. *)
Definition job_done `{Imaging} (ds : dataset) (output_root : string)
    (j : string * enhancement) (w : (string * file) * (string * file))
  : Prop :=
  exists enhanced meta original,
    load_annotation ds (annotation_path_of ds (fst j)) = Ok (JObj original)
    /\ fst w = (image_path output_root j, ImageFile enhanced meta)
    /\ snd w = (annotation_path output_root j,
                JsonFile (JObj (dict_set "imagePath" (JStr (image_name j))
                                  original))).

Definition both {A} (w : A * A) : list A := [fst w; snd w].

Definition put `{Imaging} (m : gmap string file) (w : string * file)
  : gmap string file :=
  <[fst w := snd w]> m.

Definition clean `{Imaging} (st : state) : Prop :=
  Forall (fun l => is_failure l = false) (stdout st).

(** What is printed only grows: [st'] prints more than [st]. *)
Definition extends `{Imaging} (st st' : state) : Prop :=
  exists l, stdout st' = stdout st ++ l.

(** The two paths a job writes to. *)
Definition job_paths (output_root : string) (j : string * enhancement)
  : list string :=
  [image_path output_root j; annotation_path output_root j].

(** The annotation written for a job: the annotation of the image, with
    imagePath set to the name of the enhanced image. *)
Definition rewritten `{Imaging} (ds : dataset) (output_root : string)
    (enhancements : list enhancement) (path : string) (doc : json) : Prop :=
  exists img_file enh original,
    img_file ∈ image_listing ds /\ enh ∈ enhancements
    /\ load_annotation ds (annotation_path_of ds img_file) = Ok (JObj original)
    /\ path = annotation_path output_root (img_file, enh)
    /\ doc = JObj (dict_set "imagePath" (JStr (image_name (img_file, enh)))
                     original).

Definition annotations_rewritten `{Imaging} (ds : dataset)
    (output_root : string) (enhancements : list enhancement) (st : state)
  : Prop :=
  forall path doc,
    files st !! path = Some (JsonFile doc) ->
    rewritten ds output_root enhancements path doc.

End EnhancerRun.

(** Concrete documents used to exercise the converter. *)
Module ConverterScenarios.
Import Py Converter.

Definition shape (label : string) (points : list (Z * Z)) : json :=
  JObj [("label", JStr label);
        ("points",
         JArr (map (fun p => JArr [JInt (fst p); JInt (snd p)]) points))].

Definition document (width height : json) (shapes : list json) : json :=
  JObj [("imagePath", JStr "a.png");
        ("imageWidth", width);
        ("imageHeight", height);
        ("shapes", JArr shapes)].

(** A cat and then a dog, on a 100 x 200 image. *)
Definition cat_then_dog : json :=
  document (JInt 100) (JInt 200)
    [shape "cat" [(10, 20)]; shape "dog" [(50, 100)]].

(** A shape labelled dog with no point, alone on its image. *)
Definition dog_without_points : json :=
  document (JInt 100) (JInt 200) [shape "dog" []].

(** A cat, a cat with no point, and a dog. *)
Definition cat_pointless_cat_dog : json :=
  document (JInt 100) (JInt 200)
    [shape "cat" [(10, 20)]; shape "cat" []; shape "dog" [(50, 100)]].

(** The image width is zero. *)
Definition zero_width : json :=
  document (JInt 0) (JInt 200) [shape "cat" [(10, 20)]].

Definition only_cats : json :=
  document (JInt 100) (JInt 200) [shape "cat" [(10, 20)]].

Definition fields_of (v : json) : list (string * json) :=
  match v with
  | JObj d => d
  | _ => []
  end.

(** The class file [classes.txt] holds the single line cat. *)
Definition one_class_file : world :=
  mkWorld
    (fun path => if String.eqb path "classes.txt"
                 then Ok ["cat" +:+ nl] else Raise OSError)
    (fun _ => Ok tt)
    (fun _ => Ok [mkEntry "a.json" (Ok only_cats) (Ok tt)]).

Definition both_sources : args :=
  mkArgs "in" "out" (Some "classes.txt") (Some "dog") "yolo".

Definition no_source : args := mkArgs "in" "out" None None "yolo".

End ConverterScenarios.

(** Concrete datasets, over an imaging library whose images are symbolic. *)
Module EnhancerScenarios.
Import Py Enhancer EnhancerRun.

(** A symbolic image: the path it was opened from and what was done to
    it since, oldest first. *)
Inductive step : Type :=
| Enhanced (t : transform) (factor : json)
| ToRGB.

Definition symbolic_image : Type := string * list step.

Definition then_do (s : step) (img : symbolic_image) : symbolic_image :=
  (fst img, snd img ++ [s]).

(** The encoders that read the EXIF block they are handed: the JPEG
    encoder takes its length and the TIFF encoder iterates over it, so
    both raise TypeError on None.  The PNG encoder tests it for truth and
    the BMP encoder does not look at it. *)
Definition reads_exif (path : string) : bool :=
  existsb (endswith (lower path)) [".jpg"; ".jpeg"; ".tiff"].

(** Images that carry no EXIF block: every operation on them succeeds and
    records itself, and they are saved by the encoders that accept a
    missing block. *)
Definition symbolic : Imaging := {|
  image := symbolic_image;
  exif := unit;
  brightness img v := Ok (then_do (Enhanced Brightness v) img);
  contrast img v := Ok (then_do (Enhanced Contrast v) img);
  sharpness img v := Ok (then_do (Enhanced Sharpness v) img);
  color img v := Ok (then_do (Enhanced Color v) img);
  gaussian_blur img v := Ok (then_do (Enhanced GaussianBlur v) img);
  exif_of _ := None;
  is_rgb _ := true;
  convert_rgb img := Ok (then_do ToRGB img);
  save path _ meta :=
    match meta with
    | None => if reads_exif path then Raise TypeError else Ok tt
    | Some _ => Ok tt
    end
|}.

Definition annotation_of (image_path : string) : json :=
  JObj [("version", JStr "5.0"); ("imagePath", JStr image_path);
        ("imageWidth", JInt 100); ("imageHeight", JInt 200);
        ("shapes", JArr [])].

(** Two images with different base names, each with its annotation, and a
    file that is no image. *)
Definition two_images : @dataset symbolic :=
  @mkDataset symbolic "img" "ann" ["a.png"; "notes.txt"; "b.BMP"]
    (fun p => String.eqb p "ann/a.json" || String.eqb p "ann/b.json")
    (fun p => Ok ((p, []) : symbolic_image))
    (fun p => if String.eqb p "ann/a.json" then Ok (annotation_of "a.png")
              else Ok (annotation_of "b.BMP"))
    (fun _ => Ok tt).

(** Two images that share the base name x. *)
Definition two_extensions : @dataset symbolic :=
  @mkDataset symbolic "img" "ann" ["x.png"; "x.bmp"]
    (fun p => String.eqb p "ann/x.json")
    (fun p => Ok ((p, []) : symbolic_image))
    (fun _ => Ok (annotation_of "x.png"))
    (fun _ => Ok tt).

Definition bright : enhancement :=
  mkEnhancement "bright" [("brightness", JInt 2); ("blur_radius", JInt 0)].

Definition soft : enhancement :=
  mkEnhancement "soft" [("blur_radius", JInt 3); ("contrast", JInt 1)].

End EnhancerScenarios.

(** ** The converter, file by file *)

Module ConverterBatch.
Import Py Converter.

(** The [try] body of lines 47-89 for one entry: the lines of its text
    file, or the exception that leaves the body. *)
Definition file_result (classes : list string) (format : string) (f : entry)
  : result (list string) :=
  data ← loaded f;
  txt_content ← transcode classes format data;
  _ ← created f;
  Ok txt_content.

(** The test of line 42. *)
Definition is_json (f : entry) : bool :=
  endswith (lower (json_fname f)) ".json".

(** The file an entry leaves, if any. *)
Definition output (save_dir : string) (classes : list string)
    (format : string) (f : entry) : option (string * string) :=
  if is_json f then
    match file_result classes format f with
    | Ok txt_content =>
        Some (txt_path save_dir (json_fname f),
              String.concat EmptyString txt_content)
    | Raise _ => None
    end
  else None.

(** The line an entry prints, if any. *)
Definition report (json_dir : string) (classes : list string)
    (format : string) (f : entry) : option log_line :=
  if is_json f then
    match file_result classes format f with
    | Ok _ => None
    | Raise UnicodeDecodeError =>
        Some (SkipEncoding (path_join json_dir (json_fname f)))
    | Raise JSONDecodeError =>
        Some (SkipInvalidJson (path_join json_dir (json_fname f)))
    | Raise e => Some (ErrorProcessing (path_join json_dir (json_fname f)) e)
    end
  else None.

(** Writing one file into a directory. *)
Definition store {V} (m : gmap string V) (w : string * V) : gmap string V :=
  <[fst w := snd w]> m.

(** A shape that reaches line 84: a dict with a truthy label and truthy
    points. *)
Definition contributes (shape : json) : bool :=
  match shape with
  | JObj d =>
      truthy (default JNull (dict_get "label" d))
      && truthy (default (JArr []) (dict_get "points" d))
  | _ => false
  end.

(** No character of [s] is [c]. *)
Fixpoint lacks (c : ascii) (s : string) : bool :=
  match s with
  | EmptyString => true
  | String a s' => negb (Ascii.eqb a c) && lacks c s'
  end.

(** A line of the text file: the position or the name of a registered
    class, a space, the coordinates, a newline. *)
Definition headed (classes : list string) (format : string) (line : string)
  : Prop :=
  exists (i : nat) (label body : string),
    nth_error classes i = Some label
    /\ line = (if String.eqb format "yolo" then pretty i else label)
              +:+ " " +:+ body +:+ nl.

(** An integer written with one decimal, as [f"{z:.1f}"] writes the
    integers that a double holds exactly. *)
Definition whole (z : Z) : string :=
  sign (z <? 0) +:+ pretty (Z.abs z) +:+ ".0".

End ConverterBatch.

(** A directory with a file that converts, one that does not parse and one
    that is no annotation; and a state in which a text file is there
    already. *)
Module BatchScenarios.
Import Py Converter ConverterScenarios.

Definition good_entry : entry := mkEntry "a.json" (Ok only_cats) (Ok tt).
Definition bad_entry : entry := mkEntry "b.json" (Raise JSONDecodeError) (Ok tt).
Definition other_entry : entry := mkEntry "notes.md" (Raise OSError) (Ok tt).

Definition good_then_bad : list entry := [good_entry; bad_entry; other_entry].

Definition kept : state := mkState {["out/b.txt" := "old"]} [].

Definition class_file_only : args :=
  mkArgs "in" "out" (Some "classes.txt") None "yolo".

End BatchScenarios.

(** ** The enhancer, image by image *)
Module EnhancerBatch.
Import Py Enhancer EnhancerRun.

(** Lines 90-94: the image as the loop over the enhancements gets it,
    with the EXIF block of the file as it was opened. *)
Definition opened `{Imaging} (ds : dataset) (img_file : string)
  : result (option exif * image) :=
  img ← open_image ds (path_join (image_dir ds) img_file);
  img' ← (if negb (is_rgb img) then convert_rgb img else Ok img);
  Ok (exif_of img, img').

(** Lines 101-106: the image file of one variant. *)
Definition variant `{Imaging} (output_root base_name ext : string)
    (img : image) (meta : option exif) (enh : enhancement)
  : result (string * file) :=
  enhanced_img ← apply_enhancement img (parameters enh);
  _ ← save (img_output_path output_root base_name ext (alias enh))
        enhanced_img meta;
  Ok (img_output_path output_root base_name ext (alias enh),
      ImageFile enhanced_img meta).

(** Where an image file of the output comes from: a listed file that was
    opened, brought to RGB, enhanced with the parameters of one of the
    enhancements and accepted by the encoder, with the EXIF block of the
    file as it was opened. *)
Definition enhanced_from `{Imaging} (ds : dataset) (output_root : string)
    (enhancements : list enhancement) (path : string) (img : image)
    (meta : option exif) : Prop :=
  exists img_file enh rgb,
    img_file ∈ image_listing ds /\ enh ∈ enhancements
    /\ opened ds img_file = Ok (meta, rgb)
    /\ apply_enhancement rgb (parameters enh) = Ok img
    /\ path = image_path output_root (img_file, enh).

Definition images_enhanced `{Imaging} (ds : dataset) (output_root : string)
    (enhancements : list enhancement) (st : state) : Prop :=
  forall path img meta,
    files st !! path = Some (ImageFile img meta) ->
    enhanced_from ds output_root enhancements path img meta.

(** A step whose effect does not depend on the state it starts from:
    what it writes is laid over the files, what it prints is added to the
    output. *)
Definition layered `{Imaging} (step : state -> state) : Prop :=
  forall st,
    files (step st) = files (step initial) ∪ files st
    /\ stdout (step st) = stdout st ++ stdout (step initial).


End EnhancerBatch.

(** Runs of the enhancer in which something fails. *)
Module EnhancerFailures.
Import Py Enhancer EnhancerRun EnhancerScenarios.

(** One image whose annotation is there but does not parse. *)
Definition unreadable_annotation : @dataset symbolic :=
  @mkDataset symbolic "img" "ann" ["a.png"]
    (fun p => String.eqb p "ann/a.json")
    (fun p => Ok ((p, []) : symbolic_image))
    (fun _ => Raise JSONDecodeError)
    (fun _ => Ok tt).

(** One JPEG image that carries no EXIF block. *)
Definition bare_jpeg : @dataset symbolic :=
  @mkDataset symbolic "img" "ann" ["c.jpg"]
    (fun p => String.eqb p "ann/c.json")
    (fun p => Ok ((p, []) : symbolic_image))
    (fun _ => Ok (annotation_of "c.jpg"))
    (fun _ => Ok tt).

(** A blur radius given as a string: the comparison with 0 raises. *)
Definition broken : enhancement :=
  mkEnhancement "broken" [("blur_radius", JStr "3")].

(** The parameters of [bright], with a key the engine does not know. *)
Definition bright_with_note : list (string * json) :=
  [("note", JStr "first try"); ("brightness", JInt 2);
   ("blur_radius", JInt 0)].

End EnhancerFailures.

(* ===================================================================== *)
(** * Part V: facts about the Python fragment                          *)
(* ===================================================================== *)

Module PyFacts.
Import Py.

(** ** Converting a non-zero int never gives a float zero *)

Lemma iter_pos_nat {A} (f : A -> A) (p : positive) (x : A) :
  SpecFloat.iter_pos f p x = Nat.iter (Pos.to_nat p) f x.
Proof.
  revert x. induction p as [p IH|p IH|]; intros x; cbn [SpecFloat.iter_pos].
  - rewrite !IH, Pos2Nat.inj_xI.
    replace (S (2 * Pos.to_nat p)) with (Pos.to_nat p + (Pos.to_nat p + 1))%nat by lia.
    rewrite !Nat.iter_add. reflexivity.
  - rewrite !IH, Pos2Nat.inj_xO.
    replace (2 * Pos.to_nat p)%nat with (Pos.to_nat p + Pos.to_nat p)%nat by lia.
    rewrite Nat.iter_add. reflexivity.
  - reflexivity.
Qed.

Lemma shr_1_m (mrs : shr_record) :
  0 <= shr_m mrs -> shr_m (shr_1 mrs) = Z.div2 (shr_m mrs).
Proof.
  destruct mrs as [m r s]. simpl. intros Hm.
  destruct m as [|[p|p|]|p]; try reflexivity; lia.
Qed.

Lemma shr_iter_pos (n : nat) (mrs : shr_record) :
  2 ^ Z.of_nat n <= shr_m mrs -> 1 <= shr_m (Nat.iter n shr_1 mrs).
Proof.
  revert mrs. induction n as [|n IH]; intros mrs Hm.
  - simpl in *. lia.
  - rewrite Nat.iter_succ_r. apply IH.
    rewrite Nat2Z.inj_succ, Z.pow_succ_r in Hm by lia.
    rewrite shr_1_m by lia. rewrite Z.div2_div.
    apply Z.div_le_lower_bound; lia.
Qed.

Lemma digits2_pos_size (p : positive) : digits2_pos p = Pos.size p.
Proof. induction p; simpl; congruence. Qed.

Lemma digits2_lower (p : positive) : 2 ^ (Zpos (digits2_pos p) - 1) <= Zpos p.
Proof.
  rewrite digits2_pos_size.
  pose proof (Pos.size_le p) as H.
  assert (H2 : 2 ^ Zpos (Pos.size p) <= 2 * Zpos p).
  { change 2 with (Zpos 2) at 1. rewrite <- Pos2Z.inj_pow. 
    change (2 * Zpos p) with (Zpos (p~0)). apply Pos2Z.pos_le_pos. exact H. }
  replace (Zpos (Pos.size p)) with (Z.succ (Zpos (Pos.size p) - 1)) in H2 by lia.
  rewrite Z.pow_succ_r in H2 by lia. lia.
Qed.

Lemma shr_fexp_pos (m e : Z) (l : location) :
  0 < m -> emin prec emax <= e ->
  0 < shr_m (fst (shr_fexp prec emax m e l))
  /\ e <= snd (shr_fexp prec emax m e l).
Proof.
  intros Hm He. unfold shr_fexp, shr.
  destruct m as [|p|p]; try lia. 
  set (n := fexp prec emax (Zdigits2 (Zpos p) + e) - e).
  assert (Hn : n < Zpos (digits2_pos p)).
  { unfold n, fexp, emin, prec, emax in *. simpl Zdigits2. lia. }
  destruct n as [|q|q] eqn:Hq; simpl.
  - destruct l as [|[]]; simpl; lia.
  - split; [|lia]. rewrite iter_pos_nat.
    assert (1 <= shr_m (Nat.iter (Pos.to_nat q) shr_1
                          (shr_record_of_loc (Zpos p) l))); [|lia].
    apply shr_iter_pos. rewrite positive_nat_Z.
    assert (Hs : shr_m (shr_record_of_loc (Zpos p) l) = Zpos p)
      by (destruct l as [|[]]; reflexivity).
    rewrite Hs. etransitivity; [|apply digits2_lower].
    apply Z.pow_le_mono_r; lia.
  - destruct l as [|[]]; simpl; lia.
Qed.

Lemma round_nearest_even_pos (m : Z) (l : location) :
  0 < m -> 0 < round_nearest_even m l.
Proof.
  intros Hm. unfold round_nearest_even. destruct l as [|[]]; try lia.
  destruct (Z.even m); lia.
Qed.

Lemma binary_round_aux_nonzero (sx : bool) (m e : Z) (l : location) :
  0 < m -> emin prec emax <= e ->
  float_is_zero (binary_round_aux prec emax sx m e l) = false.
Proof.
  intros Hm He. unfold binary_round_aux.
  destruct (shr_fexp_pos m e l Hm He) as [H1 H1e].
  destruct (shr_fexp prec emax m e l) as [mrs' e']. simpl in H1, H1e.
  assert (H2 : 0 < round_nearest_even (shr_m mrs') (loc_of_shr_record mrs'))
    by (apply round_nearest_even_pos, H1).
  destruct (shr_fexp_pos _ e' loc_Exact H2) as [H3 _]; [lia|].
  destruct (shr_fexp prec emax _ e' loc_Exact) as [mrs'' e'']. simpl in H3.
  destruct (shr_m mrs'') as [|p|p]; try lia.
  destruct (e'' <=? emax - prec); reflexivity.
Qed.

Lemma float_of_int_nonzero (z : Z) (f : spec_float) :
  z <> 0 -> float_of_int z = Ok f -> float_is_zero f = false.
Proof.
  intros Hz. unfold float_of_int.
  assert (H : float_is_zero (binary_normalize prec emax z 0 false) = false).
  { unfold binary_normalize, binary_round.
    destruct z as [|p|p]; [congruence| |];
      (destruct (shl_align _ 0 _) as [mz ez] eqn:Hsh;
       apply binary_round_aux_nonzero; [lia|];
       unfold shl_align in Hsh;
       destruct (fexp prec emax (Zpos (digits2_pos p) + 0) - 0) eqn:Hd;
       injection Hsh as <- <-; unfold fexp, emin, prec, emax in *; lia). }
  destruct (binary_normalize prec emax z 0 false); intros Hf;
    try discriminate; injection Hf as <-; exact H.
Qed.

(** ** Fixed-point formatting rounds to the nearest *)

(** For a negative exponent the scaled integer is within half a unit of
    [m * 10^k / 2^(-e)], and exact ties go to the even neighbour. *)
Lemma scaled_round_nearest (m : positive) (e : Z) (k : nat) :
  e < 0 ->
  2 * Z.abs (scaled_round m e k * 2 ^ (- e) - Zpos m * pow10 k) <= 2 ^ (- e)
  /\ (2 * Z.abs (scaled_round m e k * 2 ^ (- e) - Zpos m * pow10 k)
      = 2 ^ (- e) -> Z.even (scaled_round m e k) = true).
Proof.
  intros He. unfold scaled_round.
  destruct (0 <=? e) eqn:H0; [apply Z.leb_le in H0; lia|].
  set (d := 2 ^ (- e)). set (n := Zpos m * pow10 k).
  assert (Hd : 0 < d) by (apply Z.pow_pos_nonneg; lia).
  pose proof (Z.div_mod n d ltac:(lia)) as Hdm.
  pose proof (Z.mod_pos_bound n d Hd) as Hb.
  cbv zeta. clearbody d n.
  set (q := n / d) in *. set (r := n mod d) in *. clearbody q r.
  assert (Hqd : q * d = d * q) by apply Z.mul_comm.
  destruct (Z.compare_spec (2 * r) d) as [Hc|Hc|Hc].
  - destruct (Z.even q) eqn:Hev.
    + split; [lia | intros _; exact Hev].
    + split; [lia|]. intros _. rewrite Z.even_add, Hev. reflexivity.
  - split; [lia | intros; exfalso; lia].
  - split; [lia | intros; exfalso; lia].
Qed.

(** For a non-negative exponent the value is an integer and nothing is
    rounded. *)
Lemma scaled_round_exact (m : positive) (e : Z) (k : nat) :
  0 <= e -> scaled_round m e k = Zpos m * pow10 k * 2 ^ e.
Proof.
  intros He. unfold scaled_round. apply Z.leb_le in He. rewrite He.
  reflexivity.
Qed.

Lemma digits_length (k : nat) (n : Z) (acc : string) :
  String.length (digits k n acc) = (k + String.length acc)%nat.
Proof.
  revert n acc. induction k as [|k IH]; intros n acc; simpl; [reflexivity|].
  rewrite IH. simpl. lia.
Qed.

(** ** Which exceptions an expression can raise *)

Lemma raises_only_bind {A B} (P : exn -> bool) (m : result A)
    (k : A -> result B) :
  raises_only P m -> (forall a, m = Ok a -> raises_only P (k a)) ->
  raises_only P (m ≫= k).
Proof. destruct m as [a|e]; simpl; intros Hm Hk; [apply Hk; reflexivity | exact Hm]. Qed.

Lemma raises_only_mapM {A B} (P : exn -> bool) (g : A -> result B)
    (l : list A) :
  (forall a, raises_only P (g a)) -> raises_only P (mapM g l).
Proof.
  intros Hg. induction l as [|a l IH]; simpl; [exact I|].
  apply raises_only_bind; [apply Hg|]. intros b _.
  apply raises_only_bind; [exact IH|]. intros bs _. exact I.
Qed.

Lemma py_get_raises (o : json) (k : string) (dflt : json) :
  raises_only from_evaluation (py_get o k dflt).
Proof. destruct o; simpl; auto. Qed.

Lemma py_iter_raises (v : json) : raises_only from_evaluation (py_iter v).
Proof. destruct v; simpl; auto. Qed.

Lemma subscript_raises (v : json) (i : nat) :
  raises_only from_evaluation (subscript v i).
Proof.
  destruct v; simpl; auto.
  - destruct (String.get i s); simpl; auto.
  - destruct (nth_error items i); simpl; auto.
Qed.

Lemma py_index_raises (v : json) (l : list string) :
  raises_only from_evaluation (py_index v l).
Proof. destruct v; simpl; auto. destruct (index_of s l); simpl; auto. Qed.

Lemma float_of_int_raises (z : Z) :
  raises_only from_evaluation (float_of_int z).
Proof. unfold float_of_int. destruct (binary_normalize _ _ _ _ _); simpl; auto. Qed.

Lemma format_f_raises (k : nat) (v : json) :
  raises_only from_evaluation (format_f k v).
Proof.
  destruct v; simpl; auto.
  - pose proof (float_of_int_raises (if b then 1 else 0)) as H.
    destruct (float_of_int _); simpl in *; auto.
  - pose proof (float_of_int_raises z) as H.
    destruct (float_of_int _); simpl in *; auto.
Qed.

Lemma truthy_int_divisor (w : json) (z : Z) :
  as_num w = Some (NInt z) -> truthy w = true -> z <> 0.
Proof.
  destruct w; simpl; try discriminate.
  - intros [= <-] ->. discriminate.
  - intros [= <-] H. apply negb_true_iff, Z.eqb_neq in H. exact H.
Qed.

Lemma truthy_float_divisor (w : json) (f : spec_float) :
  as_num w = Some (NFloat f) -> truthy w = true -> float_is_zero f = false.
Proof.
  destruct w; simpl; try discriminate.
  intros [= <-] H. apply negb_true_iff in H. exact H.
Qed.

(** A division by a truthy value never fails for a zero divisor. *)
Lemma truediv_raises (x w : json) :
  truthy w = true -> raises_only from_evaluation (truediv x w).
Proof.
  intros Hw. unfold truediv.
  destruct (as_num x) as [[zx|fx]|] eqn:Hx; [| |exact eq_refl].
  - destruct (as_num w) as [[zw|fw]|] eqn:Hnw; [| |exact eq_refl].
    + unfold int_truediv.
      apply (truthy_int_divisor _ _ Hnw), Z.eqb_neq in Hw. rewrite Hw.
      destruct (SFdiv _ _ _ _); simpl; auto.
    + apply raises_only_bind; [apply float_of_int_raises|]. intros a _.
      simpl. rewrite (truthy_float_divisor _ _ Hnw Hw). exact I.
  - destruct (as_num w) as [[zw|fw]|] eqn:Hnw; [| |exact eq_refl].
    + simpl. pose proof (float_of_int_raises zw) as Hr.
      destruct (float_of_int zw) as [fy|e] eqn:Hfy; simpl in *; [|exact Hr].
      rewrite (float_of_int_nonzero zw fy (truthy_int_divisor _ _ Hnw Hw) Hfy).
      exact I.
    + simpl. rewrite (truthy_float_divisor _ _ Hnw Hw). exact I.
Qed.

(** A division by a zero number does fail, whenever the dividend is a
    float or an int. *)
Lemma truediv_by_zero (x : json) :
  (exists z, x = JInt z) ->
  truediv x (JInt 0) = Raise ZeroDivisionError.
Proof. intros [z ->]. reflexivity. Qed.

(** ** Dictionaries *)

Lemma dict_get_set_eq (k : string) (v : json) (d : list (string * json)) :
  dict_get k (dict_set k v d) = Some v.
Proof.
  induction d as [|[k' v'] d IH]; simpl.
  - rewrite String.eqb_refl. reflexivity.
  - destruct (String.eqb k' k) eqn:Hk; simpl; rewrite Hk; [reflexivity | exact IH].
Qed.

Lemma dict_get_set_ne (k k' : string) (v : json) (d : list (string * json)) :
  k <> k' -> dict_get k' (dict_set k v d) = dict_get k' d.
Proof.
  intros Hne. induction d as [|[k0 v0] d IH]; simpl.
  - apply String.eqb_neq in Hne. rewrite Hne. reflexivity.
  - destruct (String.eqb k0 k) eqn:Hk; simpl.
    + apply String.eqb_eq in Hk. subst k0.
      apply String.eqb_neq in Hne. rewrite Hne. reflexivity.
    + rewrite IH. reflexivity.
Qed.

End PyFacts.

(* ===================================================================== *)
(** * Part VI: facts about strings and paths                           *)
(* ===================================================================== *)

Module StringFacts.
Import Py Enhancer.

(** Strings are reasoned about through their lists of characters. *)
Abbreviation to_list := list_ascii_of_string.

Lemma to_list_app (s t : string) : to_list (s +:+ t) = to_list s ++ to_list t.
Proof. induction s as [|a s IH]; simpl; [reflexivity | rewrite IH; reflexivity]. Qed.

Lemma to_list_inj (s t : string) : to_list s = to_list t -> s = t.
Proof.
  intros H. rewrite <- (string_of_list_ascii_of_string s),
    <- (string_of_list_ascii_of_string t), H. reflexivity.
Qed.

Lemma append_assoc (s t u : string) : (s +:+ t) +:+ u = s +:+ t +:+ u.
Proof. apply to_list_inj. rewrite !to_list_app, <- app_assoc. reflexivity. Qed.

Lemma append_nil_r (s : string) : s +:+ EmptyString = s.
Proof. apply to_list_inj. rewrite to_list_app. apply app_nil_r. Qed.

Lemma append_inv_head (s t u : string) : s +:+ t = s +:+ u -> t = u.
Proof.
  intros H. apply to_list_inj. apply (f_equal to_list) in H.
  rewrite !to_list_app in H. exact (app_inv_head _ _ _ H).
Qed.

Lemma append_inv_tail (s t u : string) : t +:+ s = u +:+ s -> t = u.
Proof.
  intros H. apply to_list_inj. apply (f_equal to_list) in H.
  rewrite !to_list_app in H. exact (app_inv_tail _ _ _ H).
Qed.

(** ** Splitting a list at a character *)

(** The first occurrence of [c] splits a list in one way only. *)
Lemma first_split_unique {A} (c : A) (a a' n n' : list A) :
  ~ In c a -> ~ In c a' -> a ++ c :: n = a' ++ c :: n' -> a = a' /\ n = n'.
Proof.
  intros Ha Ha' H. apply List.app_eq_app in H as [l [[-> H]|[-> H]]].
  - destruct l as [|x l]; simpl in H.
    + injection H as <-. rewrite app_nil_r. auto.
    + injection H as -> _. exfalso. apply Ha, in_or_app. right. left. reflexivity.
  - destruct l as [|x l]; simpl in H.
    + injection H as <-. rewrite app_nil_r. auto.
    + injection H as -> _. exfalso. apply Ha', in_or_app. right. left. reflexivity.
Qed.

(** And so does the last one. *)
Lemma last_split_unique {A} (c : A) (l l' r r' : list A) :
  ~ In c r -> ~ In c r' -> l ++ c :: r = l' ++ c :: r' -> l = l' /\ r = r'.
Proof.
  intros Hr Hr' H. apply List.app_eq_app in H as [m [[-> H]|[-> H]]].
  - destruct m as [|x m]; simpl in H.
    + injection H as <-. rewrite app_nil_r. auto.
    + injection H as -> ->. exfalso. apply Hr', in_or_app. right. left. reflexivity.
  - destruct m as [|x m]; simpl in H.
    + injection H as <-. rewrite app_nil_r. auto.
    + injection H as -> ->. exfalso. apply Hr, in_or_app. right. left. reflexivity.
Qed.

(** If [t ++ u = u ++ t'] for a non-empty [t], then [u] is built from
    characters of [t']. *)
Lemma commuting_suffix {A} (t t' : list A) :
  t <> [] ->
  forall (n : nat) (u : list A),
    (length u <= n)%nat -> t ++ u = u ++ t' -> forall c, In c u -> In c t'.
Proof.
  intros Ht n. induction n as [|n IH]; intros u Hn H c Hc.
  - destruct u; [destruct Hc | simpl in Hn; lia].
  - apply List.app_eq_app in H as [l [[-> H]|[Hu H]]].
    + subst t'. apply in_or_app. right. exact Hc.
    + assert (Hl : (length l <= n)%nat).
      { rewrite Hu in Hn. rewrite length_app in Hn.
        destruct t; [congruence|]. simpl in Hn. lia. }
      assert (Heq : t ++ l = l ++ t') by congruence.
      rewrite H in Hc. apply in_app_or in Hc as [Hc|Hc]; [|exact Hc].
      exact (IH l Hl Heq c Hc).
Qed.

(** Two names [base _ alias ext] agree only when base and ext agree,
    provided no extension holds the joining character. *)
Lemma joined_name_unique {A} (c : A) (a b b' e e' : list A) :
  ~ In c e -> ~ In c e' ->
  b ++ (c :: a) ++ e = b' ++ (c :: a) ++ e' -> b = b' /\ e = e'.
Proof.
  assert (Hkey : forall b b' e e' l,
             ~ In c e' -> b = b' ++ l ->
             (c :: a) ++ e' = l ++ (c :: a) ++ e -> b = b' /\ e = e').
  { intros b0 b0' e0 e0' l He' -> H.
    destruct l as [|x l].
    - simpl in H. injection H as H. apply app_inv_head in H. subst.
      rewrite app_nil_r. auto.
    - exfalso. symmetry in H. rewrite app_assoc in H.
      apply List.app_eq_app in H as [m [[H1 H2]|[H1 H2]]].
      + apply He'. rewrite H2. apply in_or_app. left.
        apply (commuting_suffix (x :: l) m ltac:(discriminate)
                 (length (c :: a)) (c :: a) ltac:(lia) H1 c).
        left. reflexivity.
      + apply (f_equal (@length A)) in H1.
        rewrite !length_app in H1. simpl in H1. lia. }
  intros He He' H. apply List.app_eq_app in H as [l [[Hb H]|[Hb H]]].
  - eapply Hkey; eauto.
  - symmetry in H. destruct (Hkey b' b e' e l He Hb) as [-> ->]; auto.
Qed.

(** ** Separators, dots, case *)

Lemma no_slash_spec (s : string) :
  no_slash s = true <-> ~ In "/"%char (to_list s).
Proof.
  induction s as [|a s IH]; simpl; [tauto|].
  rewrite andb_true_iff, negb_true_iff, IH.
  destruct (Ascii.eqb_spec a "/"%char) as [->|Hne]; split.
  - intros [? _]. discriminate.
  - intros H. exfalso. apply H. left. reflexivity.
  - intros [_ H] [Ha|Hs]; [congruence | exact (H Hs)].
  - intros H. split; [reflexivity|]. intros Hs. apply H. right. exact Hs.
Qed.

Lemma no_slash_app (s t : string) :
  no_slash (s +:+ t) = true <-> no_slash s = true /\ no_slash t = true.
Proof.
  rewrite !no_slash_spec, to_list_app. split.
  - intros H. split; intros Hin; apply H, in_or_app; auto.
  - intros [Hs Ht] Hin. apply in_app_or in Hin. tauto.
Qed.

Lemma rsplit_at_none (c : ascii) (s : string) :
  rsplit_at c s = None -> ~ In c (to_list s).
Proof.
  induction s as [|a s IH]; simpl; [tauto|].
  destruct (rsplit_at c s) as [[pre suf]|]; [discriminate|].
  destruct (Ascii.eqb_spec a c) as [->|Hne]; [discriminate|].
  intros _ [Ha|Hs]; [congruence | exact (IH eq_refl Hs)].
Qed.

Lemma rsplit_at_some (c : ascii) (s pre suf : string) :
  rsplit_at c s = Some (pre, suf) ->
  s = pre +:+ suf /\ exists w, suf = String c w /\ ~ In c (to_list w).
Proof.
  revert pre suf. induction s as [|a s IH]; intros pre suf; simpl; [discriminate|].
  destruct (rsplit_at c s) as [[p q]|] eqn:Hs.
  - intros [= <- <-]. destruct (IH p q eq_refl) as [-> Hw]. auto.
  - destruct (Ascii.eqb_spec a c) as [->|Hne]; [|discriminate].
    intros [= <- <-]. split; [reflexivity|].
    exists s. split; [reflexivity | apply rsplit_at_none, Hs].
Qed.

(** [splitext] cuts a name in two, and what it calls the extension is
    empty or a dot followed by no other dot. *)
Lemma splitext_spec (p : string) :
  no_slash p = true ->
  p = fst (splitext p) +:+ snd (splitext p)
  /\ (snd (splitext p) = EmptyString
      \/ exists w, snd (splitext p) = String "."%char w
                   /\ ~ In "."%char (to_list w)).
Proof.
  intros Hp. unfold splitext.
  destruct (rsplit_at "/"%char p) as [[pre suf]|] eqn:Hsl.
  { apply rsplit_at_some in Hsl as [-> (w & -> & _)].
    apply no_slash_spec in Hp. exfalso. apply Hp.
    rewrite to_list_app. apply in_or_app. right. left. reflexivity. }
  destruct (rsplit_at "."%char p) as [[stem ext]|] eqn:Hdot.
  - apply rsplit_at_some in Hdot as [Heq (w & -> & Hw)].
    destruct (all_dots stem); simpl.
    + rewrite append_nil_r. auto.
    + split; [exact Heq|]. right. eauto.
  - simpl. rewrite append_nil_r. auto.
Qed.

Lemma to_list_lower (s : string) : to_list (lower s) = map lower_char (to_list s).
Proof. induction s as [|a s IH]; simpl; [reflexivity | rewrite IH; reflexivity]. Qed.

Lemma lower_char_dot (c : ascii) : lower_char c = "."%char -> c = "."%char.
Proof.
  destruct c as [[] [] [] [] [] [] [] []]; vm_compute; intros H;
    first [reflexivity | discriminate H].
Qed.

Lemma endswith_spec (s suffix : string) :
  endswith s suffix = true -> exists p, s = p +:+ suffix.
Proof.
  induction s as [|a s IH]; cbn [endswith].
  - destruct (String.eqb_spec EmptyString suffix) as [<-|Hne]; [|discriminate].
    exists EmptyString. reflexivity.
  - destruct (String.eqb_spec (String a s) suffix) as [<-|Hne].
    + exists EmptyString. reflexivity.
    + intros H. destruct (IH H) as [p ->]. exists (String a p). reflexivity.
Qed.

(** The extension of an image file name never holds an underscore. *)
Lemma image_ext_no_underscore (img_file : string) :
  no_slash img_file = true ->
  has_image_extension img_file = true ->
  ~ In "_"%char (to_list (snd (splitext img_file))).
Proof.
  intros Hsl Hext.
  destruct (splitext_spec img_file Hsl) as [Heq [->|(w & Hw & Hdot)]];
    [simpl; tauto|].
  rewrite Hw in *. intros [Hc|Hin]; [discriminate|].
  unfold has_image_extension in Hext. apply existsb_exists in Hext.
  destruct Hext as (x & Hx & Hends).
  apply endswith_spec in Hends as [q Hq].
  apply (f_equal to_list) in Hq. rewrite Heq in Hq at 1.
  rewrite to_list_lower, !to_list_app, map_app in Hq. simpl in Hq.
  assert (Hlw : ~ In "."%char (map lower_char (to_list w))).
  { intros H. apply in_map_iff in H as (c & Hc & Hcw).
    apply lower_char_dot in Hc. subst c. exact (Hdot Hcw). }
  assert (Hu : In "_"%char (map lower_char (to_list w))).
  { apply in_map_iff. exists "_"%char. split; [reflexivity | exact Hin]. }
  change (lower_char ".") with "."%char in Hq.
  simpl in Hx.
  destruct Hx as [<-|[<-|[<-|[<-|[<-|[]]]]]]; simpl in Hq;
    (apply last_split_unique in Hq as [_ Hq];
     [ rewrite Hq in Hu; simpl in Hu; intuition discriminate
     | exact Hlw
     | simpl; intuition discriminate ]).
Qed.

(** ** Output paths *)

Lemma startswith_slash (s t : string) :
  no_slash s = true -> s <> EmptyString ->
  startswith (s +:+ t) "/" = false.
Proof.
  destruct s as [|a s]; [congruence|]. intros H _. cbn [no_slash] in H.
  apply andb_true_iff in H as [H _]. apply negb_true_iff in H.
  unfold startswith. change (String a s +:+ t) with (String a (s +:+ t)).
  cbn [String.prefix].
  destruct (ascii_dec "/" a) as [<-|Hne]; [|reflexivity].
  rewrite Ascii.eqb_refl in H. discriminate H.
Qed.

Lemma path_join_plain (a b : string) :
  startswith b "/" = false -> path_join a b = path_join a EmptyString +:+ b.
Proof.
  intros Hb. unfold path_join. rewrite Hb. change (startswith "" "/") with false.
  cbv iota. destruct (_ || _).
  - rewrite append_nil_r. reflexivity.
  - rewrite !append_assoc. reflexivity.
Qed.

Lemma endswith_slash (s t : string) :
  no_slash t = true -> t <> EmptyString -> endswith (s +:+ t) "/" = false.
Proof.
  intros Ht Hne. destruct (endswith (s +:+ t) "/") eqn:He; [|reflexivity].
  exfalso. apply endswith_spec in He as [p Hp].
  apply (f_equal to_list) in Hp. rewrite !to_list_app in Hp. simpl in Hp.
  apply no_slash_spec in Ht.
  destruct (exists_last (l := to_list t)) as (m & z & Hm).
  { destruct t; [congruence | discriminate]. }
  rewrite Hm, app_assoc in Hp. apply app_inj_tail in Hp as [_ ->].
  apply Ht. rewrite Hm. apply in_or_app. right. left. reflexivity.
Qed.

(** The path of a variant below the output root, spelled out. *)
Lemma variant_path_form (output_root kind a name : string) :
  no_slash kind = true -> kind <> EmptyString ->
  no_slash a = true ->
  startswith name "/" = false ->
  path_join (path_join output_root (kind +:+ a)) name =
    path_join output_root EmptyString +:+ kind +:+ a +:+ "/" +:+ name.
Proof.
  intros Hk Hkne Ha Hname.
  rewrite (path_join_plain output_root (kind +:+ a))
    by (apply startswith_slash; assumption).
  unfold path_join at 1. rewrite Hname.
  assert (He : endswith (path_join output_root "" +:+ kind +:+ a) "/" = false).
  { apply endswith_slash.
    - apply no_slash_app. auto.
    - destruct kind; [congruence | discriminate]. }
  rewrite He.
  assert (Hn : String.eqb (path_join output_root "" +:+ kind +:+ a) "" = false).
  { apply String.eqb_neq. intros H. apply (f_equal to_list) in H.
    apply (f_equal (@length ascii)) in H.
    rewrite !to_list_app, !length_app in H. destruct kind; [congruence|].
    simpl in H. lia. }
  rewrite Hn. cbn [orb]. rewrite !append_assoc. reflexivity.
Qed.

Lemma new_img_name_no_lead (base_name ext a : string) :
  no_slash base_name = true ->
  startswith (new_img_name base_name ext a) "/" = false.
Proof.
  intros Hb. unfold new_img_name.
  rewrite <- append_assoc. apply startswith_slash.
  - apply no_slash_app. auto.
  - destruct base_name; discriminate.
Qed.

Lemma new_ann_name_no_lead (base_name a : string) :
  no_slash base_name = true ->
  startswith (new_ann_name base_name a) "/" = false.
Proof.
  intros Hb. unfold new_ann_name.
  rewrite <- append_assoc. apply startswith_slash.
  - apply no_slash_app. auto.
  - destruct base_name; discriminate.
Qed.

Lemma img_output_path_form (output_root base_name ext a : string) :
  no_slash a = true -> no_slash base_name = true ->
  img_output_path output_root base_name ext a =
    path_join output_root EmptyString +:+ "images_" +:+ a +:+ "/"
    +:+ new_img_name base_name ext a.
Proof.
  intros Ha Hb. unfold img_output_path. apply variant_path_form;
    [reflexivity | discriminate | exact Ha | apply new_img_name_no_lead, Hb].
Qed.

Lemma ann_output_path_form (output_root base_name a : string) :
  no_slash a = true -> no_slash base_name = true ->
  ann_output_path output_root base_name a =
    path_join output_root EmptyString +:+ "annotations_" +:+ a +:+ "/"
    +:+ new_ann_name base_name a.
Proof.
  intros Ha Hb. unfold ann_output_path. apply variant_path_form;
    [reflexivity | discriminate | exact Ha | apply new_ann_name_no_lead, Hb].
Qed.

Lemma alias_and_name (a a' n n' : string) :
  no_slash a = true -> no_slash a' = true ->
  a +:+ "/" +:+ n = a' +:+ "/" +:+ n' -> a = a' /\ n = n'.
Proof.
  intros Ha Ha' H. apply (f_equal to_list) in H.
  rewrite !to_list_app in H. simpl in H.
  apply first_split_unique in H as [H1 H2];
    [| apply no_slash_spec; assumption | apply no_slash_spec; assumption].
  split; apply to_list_inj; assumption.
Qed.

Lemma splitext_no_slash (p : string) :
  no_slash p = true ->
  no_slash (fst (splitext p)) = true /\ no_slash (snd (splitext p)) = true.
Proof.
  intros Hp. destruct (splitext_spec p Hp) as [Heq _].
  rewrite Heq in Hp. apply no_slash_app in Hp. exact Hp.
Qed.

(** Two enhanced images land on the same path only when they come from
    the same image file and the same alias. *)
Lemma img_output_path_inj (output_root f f' a a' : string) :
  no_slash a = true -> no_slash a' = true ->
  no_slash f = true -> no_slash f' = true ->
  has_image_extension f = true -> has_image_extension f' = true ->
  img_output_path output_root (fst (splitext f)) (snd (splitext f)) a =
  img_output_path output_root (fst (splitext f')) (snd (splitext f')) a' ->
  a = a' /\ f = f'.
Proof.
  intros Ha Ha' Hf Hf' He He' H.
  destruct (splitext_no_slash f Hf) as [Hb _].
  destruct (splitext_no_slash f' Hf') as [Hb' _].
  rewrite !img_output_path_form in H by assumption.
  apply append_inv_head, append_inv_head in H.
  apply alias_and_name in H as [<- H]; [|assumption..].
  split; [reflexivity|].
  unfold new_img_name in H. apply (f_equal to_list) in H.
  rewrite !to_list_app in H. simpl in H.
  apply (joined_name_unique "_"%char (to_list a)) in H as [H1 H2];
    [| apply image_ext_no_underscore; assumption
     | apply image_ext_no_underscore; assumption].
  destruct (splitext_spec f Hf) as [-> _].
  destruct (splitext_spec f' Hf') as [-> _].
  apply to_list_inj. rewrite !to_list_app, H1, H2.
  reflexivity.
Qed.

(** Two rewritten annotations land on the same path only when they come
    from the same base name and the same alias. *)
Lemma ann_output_path_inj (output_root b b' a a' : string) :
  no_slash a = true -> no_slash a' = true ->
  no_slash b = true -> no_slash b' = true ->
  ann_output_path output_root b a = ann_output_path output_root b' a' ->
  a = a' /\ b = b'.
Proof.
  intros Ha Ha' Hb Hb' H.
  rewrite !ann_output_path_form in H by assumption.
  apply append_inv_head, append_inv_head in H.
  apply alias_and_name in H as [<- H]; [|assumption..].
  split; [reflexivity|].
  unfold new_ann_name in H. rewrite <- !append_assoc in H.
  apply append_inv_tail, append_inv_tail, append_inv_tail in H. exact H.
Qed.

(** An enhanced image and a rewritten annotation never share a path. *)
Lemma img_ann_paths_differ (output_root b e a b' a' : string) :
  no_slash a = true -> no_slash a' = true ->
  no_slash b = true -> no_slash b' = true ->
  img_output_path output_root b e a <> ann_output_path output_root b' a'.
Proof.
  intros Ha Ha' Hb Hb' H.
  rewrite img_output_path_form, ann_output_path_form in H by assumption.
  apply append_inv_head in H. apply (f_equal to_list) in H.
  rewrite !to_list_app in H. discriminate H.
Qed.

End StringFacts.

(* ===================================================================== *)
(** * Part VII: facts about the converter                              *)
(* ===================================================================== *)

Module ConverterFacts.
Import Py PyFacts Converter ConverterScenarios.

(** ** The error monad *)

Lemma bind_ok {A B} (m : result A) (k : A -> result B) (a : A) :
  m = Ok a -> (m ≫= k) = k a.
Proof. intros ->. reflexivity. Qed.

Lemma bind_raise {A B} (m : result A) (k : A -> result B) (e : exn) :
  m = Raise e -> (m ≫= k) = Raise e.
Proof. intros ->. reflexivity. Qed.

Lemma bind_is_raise {A B} (m : result A) (k : A -> result B) (e : exn) :
  (m ≫= k) = Raise e ->
  m = Raise e \/ exists a, m = Ok a /\ k a = Raise e.
Proof.
  destruct m as [a|e']; simpl; intros H; [right; eauto | left; congruence].
Qed.

Lemma mapM_ok {A B} (g : A -> result B) (l : list A) (out : list B) :
  Forall2 (fun a b => g a = Ok b) l out -> mapM g l = Ok out.
Proof.
  induction 1 as [|a b l out Hab _ IH]; simpl; [reflexivity|].
  rewrite Hab. simpl. rewrite IH. reflexivity.
Qed.

(** ** Registries *)

Lemma existsb_eqb_In (s : string) (l : list string) :
  existsb (String.eqb s) l = true <-> In s l.
Proof.
  rewrite existsb_exists. split.
  - intros (c & Hc & Heq). apply String.eqb_eq in Heq. subst. exact Hc.
  - intros H. exists s. split; [exact H | apply String.eqb_refl].
Qed.

Lemma py_in_str (s : string) (l : list string) :
  py_in (JStr s) l = true <-> In s l.
Proof. apply existsb_eqb_In. Qed.

Lemma py_in_is_str (v : json) (l : list string) :
  py_in v l = true -> exists s, v = JStr s /\ In s l.
Proof.
  destruct v; simpl; try discriminate.
  intros H. eexists. split; [reflexivity | apply existsb_eqb_In, H].
Qed.

(** [index_of] finds the first position that holds the string. *)
Lemma index_of_first (s : string) (l : list string) :
  In s l ->
  exists i, index_of s l = Some i /\ nth_error l i = Some s /\
            forall j, (j < i)%nat -> nth_error l j <> Some s.
Proof.
  induction l as [|c l IH]; simpl; [tauto|].
  intros Hin. destruct (String.eqb c s) eqn:Hcs.
  - apply String.eqb_eq in Hcs. subst c. exists O.
    split; [reflexivity|]. split; [reflexivity|]. intros j Hj. lia.
  - apply String.eqb_neq in Hcs.
    destruct Hin as [Heq|Hin]; [congruence|].
    destruct (IH Hin) as (i & Hi & Hnth & Hfirst).
    exists (S i). rewrite Hi. split; [reflexivity|]. split; [exact Hnth|].
    intros [|j] Hj; simpl; [congruence | apply Hfirst; lia].
Qed.

(** The loader never puts an empty name into a registry. *)
Lemma load_classes_nonempty open_lines cf cs (classes : list string) :
  load_classes open_lines cf cs = Ok classes -> ~ In EmptyString classes.
Proof.
  unfold load_classes. intros H Hin.
  assert (Hf : forall l : list string,
             ~ In EmptyString (filter (fun c => Is_true (nonempty c)) l)).
  { intros l Hl. apply list_elem_of_In, list_elem_of_filter in Hl.
    destruct Hl as [Hl _]. exact Hl. }
  destruct (given cf).
  - destruct (open_lines _); simpl in H; [|discriminate].
    injection H as <-. exact (Hf _ Hin).
  - destruct (given cs); [|discriminate].
    injection H as <-. exact (Hf _ Hin).
Qed.

Lemma truthy_str (s : string) : s <> EmptyString -> truthy (JStr s) = true.
Proof.
  intros H. simpl. apply negb_true_iff. apply String.eqb_neq, H.
Qed.

(** ** One shape *)

(** A shape with a registered label and some points reaches the place
    where its line is built. *)
Lemma shape_line_registered (classes : list string) (format : string)
    (img_w img_h : json) (fields : list (string * json)) (label : string)
    (pts : list json) (i : nat) :
  label <> EmptyString ->
  dict_get "label" fields = Some (JStr label) ->
  index_of label classes = Some i ->
  dict_get "points" fields = Some (JArr pts) ->
  pts <> [] ->
  shape_line classes format img_w img_h (JObj fields) =
    if String.eqb format "yolo" then
      normalized ← mapM (yolo_pair img_w img_h) pts;
      Ok (Some (pretty i +:+ " " +:+ join " " normalized +:+ nl))
    else
      coordinates ← mapM voc_pair pts;
      Ok (Some (label +:+ " " +:+ join " " coordinates +:+ nl)).
Proof.
  intros Hne Hlabel Hidx Hpts Hnil.
  assert (Hin : py_in (JStr label) classes = true).
  { apply py_in_str. clear -Hidx. revert i Hidx.
    induction classes as [|c l IH]; simpl; [discriminate|].
    intros i. destruct (String.eqb c label) eqn:Hc.
    - apply String.eqb_eq in Hc. auto.
    - destruct (index_of label l); [|discriminate]. eauto. }
  unfold shape_line, py_get. rewrite Hlabel, Hpts. simpl default.
  cbn [mbind result_bind]. rewrite (truthy_str _ Hne), Hin. cbn [negb].
  assert (Ht : truthy (JArr pts) = true) by (destruct pts; [congruence|reflexivity]).
  rewrite Ht. cbn [negb]. unfold py_index. rewrite Hidx.
  reflexivity.
Qed.

Lemma yolo_pair_ok (img_w img_h x y : json) (rest : list json)
    (qx qy : spec_float) :
  truediv x img_w = Ok qx -> truediv y img_h = Ok qy ->
  yolo_pair img_w img_h (JArr (x :: y :: rest)) =
    Ok (format_float 6 qx +:+ " " +:+ format_float 6 qy).
Proof. intros Hx Hy. unfold yolo_pair. simpl. rewrite Hx. simpl. rewrite Hy. reflexivity. Qed.

Lemma voc_pair_ok (x y : json) (rest : list json) (sx sy : string) :
  format_f 1 x = Ok sx -> format_f 1 y = Ok sy ->
  voc_pair (JArr (x :: y :: rest)) = Ok (sx +:+ " " +:+ sy).
Proof. intros Hx Hy. unfold voc_pair. simpl. rewrite Hx. simpl. rewrite Hy. reflexivity. Qed.

(** C1. A shape whose label is in the class registry and whose points list
    is not empty is transcoded, in the normalized (yolo) format, to the
    line made of the 0-based position of the label in the registry, a
    space, and for each point in order x / imageWidth and y / imageHeight,
    each with 6 decimals, separated by spaces, and a newline. *)
Theorem normalized_line_emitted
    (open_lines : string -> result (list string)) (cf cs : option string)
    (classes : list string) (fields : list (string * json)) (label : string)
    (pts : list json) (quots : list (spec_float * spec_float))
    (img_w img_h : json) :
  load_classes open_lines cf cs = Ok classes ->
  dict_get "label" fields = Some (JStr label) ->
  In label classes ->
  dict_get "points" fields = Some (JArr pts) ->
  pts <> [] ->
  Forall2 (fun p q => exists x y rest,
             p = JArr (x :: y :: rest) /\
             truediv x img_w = Ok (fst q) /\
             truediv y img_h = Ok (snd q)) pts quots ->
  exists i,
    nth_error classes i = Some label /\
    (forall j, (j < i)%nat -> nth_error classes j <> Some label) /\
    shape_line classes "yolo" img_w img_h (JObj fields) =
      Ok (Some (pretty i +:+ " "
                +:+ join " " (map (fun q => format_float 6 (fst q) +:+ " "
                                            +:+ format_float 6 (snd q)) quots)
                +:+ nl)).
Proof.
  intros Hload Hlabel Hin Hpts Hnil Hq.
  destruct (index_of_first _ _ Hin) as (i & Hidx & Hnth & Hfirst).
  exists i. split; [exact Hnth|]. split; [exact Hfirst|].
  assert (Hne : label <> EmptyString).
  { intros ->. exact (load_classes_nonempty _ _ _ _ Hload Hin). }
  rewrite (shape_line_registered _ _ _ _ _ _ _ _ Hne Hlabel Hidx Hpts Hnil).
  cbn [String.eqb Ascii.eqb Bool.eqb].
  erewrite mapM_ok; [reflexivity|].
  clear -Hq. induction Hq as [|p q pts quots Hpq _ IH]; simpl; constructor.
  - destruct Hpq as (x & y & rest & -> & Hx & Hy). apply yolo_pair_ok; assumption.
  - exact IH.
Qed.

(** The scenario of the specification: classes cat, dog; label dog; one
    point (50, 100) on a 100 x 200 image. *)
Lemma normalized_line_scenario :
  load_classes (fun _ => Raise OSError) None (Some "cat,dog") = Ok ["cat"; "dog"]
  /\ shape_line ["cat"; "dog"] "yolo" (JInt 100) (JInt 200)
       (JObj [("label", JStr "dog");
              ("points", JArr [JArr [JInt 50; JInt 100]])])
     = Ok (Some ("1 0.500000 0.500000" +:+ nl)).
Proof.
  split; [reflexivity|].
  destruct (normalized_line_emitted (fun _ => Raise OSError) None (Some "cat,dog")
              ["cat"; "dog"]
              [("label", JStr "dog"); ("points", JArr [JArr [JInt 50; JInt 100]])]
              "dog" [JArr [JInt 50; JInt 100]]
              [(S754_finite false 4503599627370496 (-53),
                S754_finite false 4503599627370496 (-53))]
              (JInt 100) (JInt 200))
    as (i & Hnth & Hfirst & Hline).
  - reflexivity.
  - reflexivity.
  - simpl. auto.
  - reflexivity.
  - discriminate.
  - constructor; [|constructor].
    exists (JInt 50), (JInt 100), []. repeat split; vm_compute; reflexivity.
  - destruct i as [|[|[|i]]]; try discriminate Hnth.
    rewrite Hline. vm_compute. reflexivity.
Defined.

(** The absolute (voc) branch never looks at the image dimensions. *)
Lemma voc_ignores_dimensions (classes : list string)
    (img_w img_h img_w' img_h' shape : json) :
  shape_line classes "voc" img_w' img_h' shape =
  shape_line classes "voc" img_w img_h shape.
Proof. reflexivity. Qed.

(** C9. A shape whose label is in the class registry and whose points list
    is not empty is transcoded, in the absolute (voc) format, to the line
    made of the label, a space, and for each point in order x and y, each
    with 1 decimal and unscaled, separated by spaces, and a newline; the
    line is the same whatever imageWidth and imageHeight are. *)
Theorem absolute_line_emitted
    (open_lines : string -> result (list string)) (cf cs : option string)
    (classes : list string) (fields : list (string * json)) (label : string)
    (pts : list json) (coords : list (string * string))
    (img_w img_h img_w' img_h' : json) :
  load_classes open_lines cf cs = Ok classes ->
  dict_get "label" fields = Some (JStr label) ->
  In label classes ->
  dict_get "points" fields = Some (JArr pts) ->
  pts <> [] ->
  Forall2 (fun p c => exists x y rest,
             p = JArr (x :: y :: rest) /\
             format_f 1 x = Ok (fst c) /\
             format_f 1 y = Ok (snd c)) pts coords ->
  shape_line classes "voc" img_w img_h (JObj fields) =
    Ok (Some (label +:+ " "
              +:+ join " " (map (fun c => fst c +:+ " " +:+ snd c) coords)
              +:+ nl))
  /\ shape_line classes "voc" img_w' img_h' (JObj fields) =
     shape_line classes "voc" img_w img_h (JObj fields).
Proof.
  intros Hload Hlabel Hin Hpts Hnil Hc.
  split; [|apply voc_ignores_dimensions].
  destruct (index_of_first _ _ Hin) as (i & Hidx & _ & _).
  assert (Hne : label <> EmptyString).
  { intros ->. exact (load_classes_nonempty _ _ _ _ Hload Hin). }
  rewrite (shape_line_registered _ _ _ _ _ _ _ _ Hne Hlabel Hidx Hpts Hnil).
  cbn [String.eqb Ascii.eqb Bool.eqb].
  erewrite mapM_ok; [reflexivity|].
  clear -Hc. induction Hc as [|p c pts coords Hpc _ IH]; simpl; constructor.
  - destruct Hpc as (x & y & rest & -> & Hx & Hy). apply voc_pair_ok; assumption.
  - exact IH.
Qed.

(** The scenario of the specification in the absolute format. *)
Lemma absolute_line_scenario :
  load_classes (fun _ => Raise OSError) None (Some "cat,dog") = Ok ["cat"; "dog"]
  /\ shape_line ["cat"; "dog"] "voc" (JInt 100) (JInt 200)
       (JObj [("label", JStr "dog");
              ("points", JArr [JArr [JInt 50; JInt 100]])])
     = Ok (Some ("dog 50.0 100.0" +:+ nl))
  /\ shape_line ["cat"; "dog"] "voc" (JInt 7) (JFloat S754_nan)
       (JObj [("label", JStr "dog");
              ("points", JArr [JArr [JInt 50; JInt 100]])])
     = Ok (Some ("dog 50.0 100.0" +:+ nl)).
Proof.
  split; [reflexivity|].
  destruct (absolute_line_emitted (fun _ => Raise OSError) None (Some "cat,dog")
              ["cat"; "dog"]
              [("label", JStr "dog"); ("points", JArr [JArr [JInt 50; JInt 100]])]
              "dog" [JArr [JInt 50; JInt 100]] [("50.0", "100.0")]
              (JInt 100) (JInt 200) (JInt 7) (JFloat S754_nan))
    as (Hline & Hsame).
  - reflexivity.
  - reflexivity.
  - simpl. auto.
  - reflexivity.
  - discriminate.
  - constructor; [|constructor].
    exists (JInt 50), (JInt 100), []. repeat split; vm_compute; reflexivity.
  - split; [|rewrite Hsame]; rewrite Hline; reflexivity.
Defined.

(** ** The loop over the shapes of one file *)

Lemma shapes_loop_app (classes : list string) (format : string)
    (img_w img_h : json) (a b : list json) (acc : list string) :
  shapes_loop classes format img_w img_h (a ++ b) acc =
    (acc' ← shapes_loop classes format img_w img_h a acc;
     shapes_loop classes format img_w img_h b acc').
Proof.
  revert acc. induction a as [|s a IH]; intros acc; simpl; [reflexivity|].
  destruct (shape_line classes format img_w img_h s) as [r|e]; simpl;
    [apply IH | reflexivity].
Qed.

(** A shape on which the body of the loop [continue]s leaves the result of
    the loop as it is without that shape. *)
Lemma shapes_loop_skip (classes : list string) (format : string)
    (img_w img_h s : json) (pre post : list json) (acc : list string) :
  shape_line classes format img_w img_h s = Ok None ->
  shapes_loop classes format img_w img_h (pre ++ s :: post) acc =
  shapes_loop classes format img_w img_h (pre ++ post) acc.
Proof.
  intros Hs. rewrite !shapes_loop_app.
  destruct (shapes_loop classes format img_w img_h pre acc) as [acc'|e];
    simpl; [|reflexivity].
  rewrite Hs. reflexivity.
Qed.


(** The body of the loop on a shape with falsy points and a label that is
    falsy or registered. *)
Lemma shape_line_no_points (classes : list string) (format : string)
    (img_w img_h : json) (sfields : list (string * json)) :
  truthy (default (JArr []) (dict_get "points" sfields)) = false ->
  truthy (default JNull (dict_get "label" sfields)) = false
  \/ py_in (default JNull (dict_get "label" sfields)) classes = true ->
  shape_line classes format img_w img_h (JObj sfields) = Ok None.
Proof.
  intros Hpts Hlabel. unfold shape_line, py_get. cbn [mbind result_bind].
  destruct (truthy (default JNull (dict_get "label" sfields))) eqn:Ht;
    cbn [negb]; [|reflexivity].
  destruct Hlabel as [Hl|Hl]; [discriminate|].
  rewrite Hl, Hpts. reflexivity.
Qed.


(** ** Which exceptions transcoding a file can raise *)

Lemma yolo_pair_raises (img_w img_h p : json) :
  truthy img_w = true -> truthy img_h = true ->
  raises_only from_evaluation (yolo_pair img_w img_h p).
Proof.
  intros Hw Hh. unfold yolo_pair.
  apply raises_only_bind; [apply subscript_raises|]. intros x _.
  apply raises_only_bind; [apply truediv_raises, Hw|]. intros qx _.
  apply raises_only_bind; [apply subscript_raises|]. intros y _.
  apply raises_only_bind; [apply truediv_raises, Hh|]. intros qy _.
  exact I.
Qed.

Lemma voc_pair_raises (p : json) : raises_only from_evaluation (voc_pair p).
Proof.
  unfold voc_pair.
  apply raises_only_bind; [apply subscript_raises|]. intros x _.
  apply raises_only_bind; [apply format_f_raises|]. intros sx _.
  apply raises_only_bind; [apply subscript_raises|]. intros y _.
  apply raises_only_bind; [apply format_f_raises|]. intros sy _.
  exact I.
Qed.

Lemma shape_line_raises (classes : list string) (format : string)
    (img_w img_h shape : json) :
  truthy img_w = true -> truthy img_h = true ->
  raises_only from_evaluation (shape_line classes format img_w img_h shape).
Proof.
  intros Hw Hh. unfold shape_line.
  apply raises_only_bind; [apply py_get_raises|]. intros label _.
  destruct (truthy label); cbn [negb]; [|exact I].
  destruct (py_in label classes); cbn [negb]; [|exact eq_refl].
  apply raises_only_bind; [apply py_get_raises|]. intros points _.
  destruct (truthy points); cbn [negb]; [|exact I].
  apply raises_only_bind; [apply py_index_raises|]. intros class_idx _.
  apply raises_only_bind; [apply py_iter_raises|]. intros ps _.
  destruct (String.eqb format "yolo").
  - apply raises_only_bind; [|intros; exact I].
    apply raises_only_mapM. intros p. apply yolo_pair_raises; assumption.
  - apply raises_only_bind; [|intros; exact I].
    apply raises_only_mapM. intros p. apply voc_pair_raises.
Qed.

Lemma shapes_loop_raises_only (classes : list string) (format : string)
    (img_w img_h : json) (shapes : list json) (acc : list string) :
  truthy img_w = true -> truthy img_h = true ->
  raises_only from_evaluation
    (shapes_loop classes format img_w img_h shapes acc).
Proof.
  intros Hw Hh. revert acc.
  induction shapes as [|s shapes IH]; intros acc; simpl; [exact I|].
  apply raises_only_bind; [apply shape_line_raises; assumption|].
  intros r _. apply IH.
Qed.

(** Transcoding a parsed document raises neither a decoding error nor a
    division by zero. *)
Lemma transcode_raises (classes : list string) (format : string)
    (data : json) :
  raises_only from_evaluation (transcode classes format data).
Proof.
  unfold transcode.
  apply raises_only_bind; [apply py_get_raises|]. intros img_h _.
  apply raises_only_bind; [apply py_get_raises|]. intros img_w _.
  destruct (truthy img_h) eqn:Hh; cbn [negb orb]; [|exact eq_refl].
  destruct (truthy img_w) eqn:Hw; cbn [negb orb]; [|exact eq_refl].
  apply raises_only_bind; [apply py_get_raises|]. intros shapes _.
  apply raises_only_bind; [apply py_iter_raises|]. intros items _.
  apply shapes_loop_raises_only; assumption.
Qed.

(** ** The loop over the files of a directory *)

(** A file whose transcoding raises is reported and leaves no file. *)
Lemma convert_one_failed (json_dir save_dir : string) (classes : list string)
    (format : string) (st : state) (f : entry) (data : json) (e : exn) :
  endswith (lower (json_fname f)) ".json" = true ->
  loaded f = Ok data ->
  transcode classes format data = Raise e ->
  convert_one json_dir save_dir classes format st f =
    print (ErrorProcessing (path_join json_dir (json_fname f)) e) st.
Proof.
  intros Hext Hload Htr. unfold convert_one. rewrite Hext, Hload.
  cbn [negb mbind result_bind]. rewrite Htr.
  pose proof (transcode_raises classes format data) as Hr.
  rewrite Htr in Hr. simpl in Hr.
  destruct e; try reflexivity; discriminate.
Qed.

(** The files written by one step depend on the files only, not on what
    was printed before. *)
Lemma convert_one_files (json_dir save_dir : string) (classes : list string)
    (format : string) (st st' : state) (f : entry) :
  files st = files st' ->
  files (convert_one json_dir save_dir classes format st f) =
  files (convert_one json_dir save_dir classes format st' f).
Proof.
  intros Hf. unfold convert_one.
  destruct (negb _); [exact Hf|].
  destruct (_ ≫= _) as [txt|e].
  - simpl. rewrite Hf. reflexivity.
  - destruct e; exact Hf.
Qed.

Lemma convert_files (json_dir save_dir : string) (classes : list string)
    (format : string) (listing : list entry) (st st' : state) :
  files st = files st' ->
  files (convert_json_to_txt json_dir save_dir classes format listing st) =
  files (convert_json_to_txt json_dir save_dir classes format listing st').
Proof.
  unfold convert_json_to_txt. revert st st'.
  induction listing as [|f l IH]; intros st st' Hf; simpl; [exact Hf|].
  apply IH, convert_one_files, Hf.
Qed.

(** Nothing that was printed is ever taken back. *)
Lemma convert_one_stdout (json_dir save_dir : string) (classes : list string)
    (format : string) (st : state) (f : entry) (line : log_line) :
  In line (stdout st) ->
  In line (stdout (convert_one json_dir save_dir classes format st f)).
Proof.
  intros Hin. unfold convert_one.
  destruct (negb _); [exact Hin|].
  destruct (_ ≫= _) as [txt|e]; [exact Hin|].
  destruct e; simpl; apply in_or_app; left; exact Hin.
Qed.

Lemma convert_stdout (json_dir save_dir : string) (classes : list string)
    (format : string) (listing : list entry) (st : state) (line : log_line) :
  In line (stdout st) ->
  In line (stdout (convert_json_to_txt json_dir save_dir classes format
                     listing st)).
Proof.
  unfold convert_json_to_txt. revert st.
  induction listing as [|f l IH]; intros st Hin; simpl; [exact Hin|].
  apply IH, convert_one_stdout, Hin.
Qed.

(** A reported file can be taken out of the listing without changing the
    files the run leaves. *)
Lemma convert_failed_frame (json_dir save_dir : string)
    (classes : list string) (format : string) (pre post : list entry)
    (f : entry) (st : state) (line : log_line) :
  (forall st0, convert_one json_dir save_dir classes format st0 f =
               print line st0) ->
  files (convert_json_to_txt json_dir save_dir classes format
           (pre ++ f :: post) st) =
  files (convert_json_to_txt json_dir save_dir classes format
           (pre ++ post) st)
  /\ In line (stdout (convert_json_to_txt json_dir save_dir classes format
                        (pre ++ f :: post) st)).
Proof.
  intros Hone. unfold convert_json_to_txt.
  rewrite !fold_left_app. cbn [fold_left]. rewrite Hone. split.
  - apply convert_files. reflexivity.
  - apply convert_stdout. simpl. apply in_or_app. right. left. reflexivity.
Qed.

(** ** The claims about whole files *)




(** C3 as the specification states it (a shape with no point never fails
    its file, whatever its label) does not hold: the label is looked up in
    the registry before the points are looked at. *)
Lemma empty_points_unknown_label_fails :
  truthy (default (JArr []) (dict_get "points" (fields_of (shape "dog" []))))
    = false
  /\ transcode ["cat"] "yolo" dog_without_points =
     Raise (ValueError (UnknownClass (JStr "dog")))
  /\ convert_one "in" "out" ["cat"] "yolo" initial
       (mkEntry "a.json" (Ok dog_without_points) (Ok tt)) =
     mkState ∅ [ErrorProcessing "in/a.json"
                  (ValueError (UnknownClass (JStr "dog")))].
Proof. repeat split. Qed.

(** C3 (amended). A shape whose points are empty (or absent, or otherwise
    falsy) and whose label is falsy or in the class registry yields no
    line and does not fail its file: the file is transcoded, and the step
    of the loop over the directory behaves, exactly as if the shape were
    not in the document. *)
Theorem empty_points_shape_skipped
    (json_dir save_dir : string) (classes : list string) (format : string)
    (fields sfields : list (string * json)) (pre post : list json) :
  dict_get "shapes" fields = Some (JArr (pre ++ JObj sfields :: post)) ->
  truthy (default (JArr []) (dict_get "points" sfields)) = false ->
  truthy (default JNull (dict_get "label" sfields)) = false
  \/ py_in (default JNull (dict_get "label" sfields)) classes = true ->
  (forall img_w img_h,
     shape_line classes format img_w img_h (JObj sfields) = Ok None)
  /\ transcode classes format (JObj fields) =
     transcode classes format
       (JObj (dict_set "shapes" (JArr (pre ++ post)) fields))
  /\ (forall name c st,
        convert_one json_dir save_dir classes format st
          (mkEntry name (Ok (JObj fields)) c) =
        convert_one json_dir save_dir classes format st
          (mkEntry name
             (Ok (JObj (dict_set "shapes" (JArr (pre ++ post)) fields))) c)).
Proof.
  intros Hshapes Hpts Hlabel.
  assert (Hline : forall img_w img_h,
             shape_line classes format img_w img_h (JObj sfields) = Ok None).
  { intros. apply shape_line_no_points; assumption. }
  assert (Htr : transcode classes format (JObj fields) =
                transcode classes format
                  (JObj (dict_set "shapes" (JArr (pre ++ post)) fields))).
  { unfold transcode, py_get. cbn [mbind result_bind].
    rewrite !dict_get_set_ne by discriminate.
    rewrite dict_get_set_eq, Hshapes.
    destruct (negb _ || negb _); [reflexivity|].
    simpl default. cbn [py_iter mbind result_bind].
    apply shapes_loop_skip, Hline. }
  split; [exact Hline|]. split; [exact Htr|].
  intros name c st. unfold convert_one.
  cbn [json_fname loaded created mbind result_bind].
  rewrite Htr. reflexivity.
Qed.

(** A cat with no point between a cat and a dog. *)
Lemma empty_points_shape_skipped_scenario :
  (forall img_w img_h,
     shape_line ["cat"; "dog"] "yolo" img_w img_h (shape "cat" []) = Ok None)
  /\ transcode ["cat"; "dog"] "yolo" cat_pointless_cat_dog =
     Ok ["0 0.100000 0.100000" +:+ nl; "1 0.500000 0.500000" +:+ nl].
Proof.
  destruct (empty_points_shape_skipped "in" "out" ["cat"; "dog"] "yolo"
              (fields_of cat_pointless_cat_dog) (fields_of (shape "cat" []))
              [shape "cat" [(10, 20)]] [shape "dog" [(50, 100)]])
    as (Hline & Htr & _).
  - reflexivity.
  - reflexivity.
  - right. reflexivity.
  - split; [exact Hline|].
    change cat_pointless_cat_dog with (JObj (fields_of cat_pointless_cat_dog)).
    rewrite Htr. vm_compute. reflexivity.
Defined.

(** C10. An annotation file whose imageWidth or imageHeight is absent or
    falsy fails with the missing-dimensions error whatever its shapes are
    (none is transcoded), the error is printed with the path of the file,
    nothing is written for it, and the run goes on as if the file were not
    there; as a consequence transcoding never divides by zero. *)
Theorem missing_dimensions_fail_file
    (json_dir save_dir : string) (classes : list string) (format : string)
    (pre post : list entry) (f : entry) (st : state)
    (fields : list (string * json)) :
  endswith (lower (json_fname f)) ".json" = true ->
  loaded f = Ok (JObj fields) ->
  truthy (default JNull (dict_get "imageWidth" fields)) = false
  \/ truthy (default JNull (dict_get "imageHeight" fields)) = false ->
  (forall shapes,
     transcode classes format (JObj (dict_set "shapes" shapes fields)) =
     Raise (ValueError DimensionsNotFound))
  /\ transcode classes format (JObj fields) =
     Raise (ValueError DimensionsNotFound)
  /\ convert_one json_dir save_dir classes format st f =
     print (ErrorProcessing (path_join json_dir (json_fname f))
              (ValueError DimensionsNotFound)) st
  /\ files (convert_json_to_txt json_dir save_dir classes format
              (pre ++ f :: post) st) =
     files (convert_json_to_txt json_dir save_dir classes format
              (pre ++ post) st)
  /\ In (ErrorProcessing (path_join json_dir (json_fname f))
           (ValueError DimensionsNotFound))
        (stdout (convert_json_to_txt json_dir save_dir classes format
                   (pre ++ f :: post) st))
  /\ (forall data, transcode classes format data <> Raise ZeroDivisionError).
Proof.
  intros Hext Hload Hdim.
  assert (Hcheck : negb (truthy (default JNull (dict_get "imageHeight" fields)))
                   || negb (truthy (default JNull (dict_get "imageWidth" fields)))
                   = true).
  { destruct Hdim as [-> | ->]; simpl; [apply orb_true_r | reflexivity]. }
  assert (Htr : transcode classes format (JObj fields) =
                Raise (ValueError DimensionsNotFound)).
  { unfold transcode, py_get. cbn [mbind result_bind]. rewrite Hcheck.
    reflexivity. }
  assert (Hone : forall st0,
             convert_one json_dir save_dir classes format st0 f =
             print (ErrorProcessing (path_join json_dir (json_fname f))
                      (ValueError DimensionsNotFound)) st0).
  { intros st0. eapply convert_one_failed; eassumption. }
  split.
  { intros shapes. unfold transcode, py_get. cbn [mbind result_bind].
    rewrite !dict_get_set_ne by discriminate. rewrite Hcheck. reflexivity. }
  split; [exact Htr|]. split; [apply Hone|].
  destruct (convert_failed_frame json_dir save_dir classes format pre post f
              st _ Hone) as [Hfiles Hprinted].
  split; [exact Hfiles|]. split; [exact Hprinted|].
  intros data Hz. pose proof (transcode_raises classes format data) as Hr.
  rewrite Hz in Hr. discriminate Hr.
Qed.

(** A file whose imageWidth is 0, before a well-formed file. *)
Lemma missing_dimensions_scenario :
  transcode ["cat"] "yolo" zero_width = Raise (ValueError DimensionsNotFound)
  /\ files (convert_json_to_txt "in" "out" ["cat"] "yolo"
              ([] ++ mkEntry "z.json" (Ok zero_width) (Ok tt)
                  :: [mkEntry "b.json" (Ok only_cats) (Ok tt)]) initial) =
     files (convert_json_to_txt "in" "out" ["cat"] "yolo"
              ([] ++ [mkEntry "b.json" (Ok only_cats) (Ok tt)]) initial).
Proof.
  destruct (missing_dimensions_fail_file "in" "out" ["cat"] "yolo" []
              [mkEntry "b.json" (Ok only_cats) (Ok tt)]
              (mkEntry "z.json" (Ok zero_width) (Ok tt)) initial (fields_of zero_width))
    as (_ & Htr & _ & Hfiles & _).
  - reflexivity.
  - reflexivity.
  - left. reflexivity.
  - split; [exact Htr | exact Hfiles].
Defined.

(** ** The class registry *)

(** C8 as the specification states it (giving both class sources is a
    usage error) does not hold: the run goes through, with the classes of
    the file. *)
Lemma both_sources_accepted :
  load_classes (open_lines one_class_file) (Some "classes.txt") (Some "dog")
    = Ok ["cat"]
  /\ exists st,
       main one_class_file both_sources = Finished st
       /\ stdout st = [LoadedClasses 1; ConversionCompleted]
       /\ files st !! "out/a.txt" = Some ("0 0.100000 0.100000" +:+ nl).
Proof.
  split; [reflexivity|]. eexists. split; [reflexivity|].
  split; [reflexivity|]. vm_compute. reflexivity.
Qed.

(** C8 (amended). The class registry needs at least one of the two
    sources.  With neither (absent or empty), [main] stops with the usage
    error before anything is read, printed or written, and [load_classes]
    itself raises.  With a file source, the inline source is ignored: the
    registry, and the whole run, are those of the file source alone. *)
Theorem class_source_required (w : world) (a : args) :
  (given (arg_classes_file a) = false -> given (arg_classes a) = false ->
     main w a = UsageError initial
     /\ load_classes (open_lines w) (arg_classes_file a) (arg_classes a)
        = Raise (ValueError NoClassSource))
  /\ (given (arg_classes_file a) = true ->
      load_classes (open_lines w) (arg_classes_file a) (arg_classes a) =
      load_classes (open_lines w) (arg_classes_file a) None
      /\ main w a =
         main w (mkArgs (arg_json_dir a) (arg_save_dir a)
                   (arg_classes_file a) None (arg_format a))).
Proof.
  split.
  - intros Hf Hs. unfold main, load_classes. rewrite Hf, Hs.
    split; [|reflexivity].
    destruct (negb (existsb (String.eqb (arg_format a)) format_choices));
      reflexivity.
  - intros Hf. unfold main, load_classes. cbn [arg_classes_file arg_classes
      arg_json_dir arg_save_dir arg_format]. rewrite Hf. split; reflexivity.
Qed.

Lemma class_source_required_scenario :
  main one_class_file no_source = UsageError initial
  /\ main one_class_file both_sources =
     main one_class_file (mkArgs "in" "out" (Some "classes.txt") None "yolo").
Proof.
  split.
  - destruct (class_source_required one_class_file no_source) as [Hnone _].
    apply Hnone; reflexivity.
  - destruct (class_source_required one_class_file both_sources) as [_ Hboth].
    apply Hboth. reflexivity.
Defined.

End ConverterFacts.

(* ===================================================================== *)
(** * Part VIII: facts about the enhancer                              *)
(* ===================================================================== *)

Module EnhancerFacts.
Import Py PyFacts Enhancer EnhancerRun StringFacts EnhancerScenarios.

Section Run.
Context `{Imaging} (ds : dataset) (output_root : string).

(** ** What is printed only grows *)

Lemma extends_refl (st : state) : extends st st.
Proof. exists []. rewrite app_nil_r. reflexivity. Qed.

Lemma extends_trans (a b c : state) : extends a b -> extends b c -> extends a c.
Proof.
  intros [l Hl] [l' Hl']. exists (l ++ l'). rewrite Hl', Hl, app_assoc.
  reflexivity.
Qed.

Lemma extends_print (l : log_line) (st : state) : extends st (print l st).
Proof. exists [l]. reflexivity. Qed.

Lemma extends_write (p : string) (f : file) (st : state) :
  extends st (write p f st).
Proof. exists []. rewrite app_nil_r. reflexivity. Qed.

Lemma clean_extends (st st' : state) : extends st st' -> clean st' -> clean st.
Proof.
  intros [l Hl]. unfold clean. rewrite Hl. intros Hc.
  apply Forall_app in Hc. tauto.
Qed.

Lemma not_clean_print (l : log_line) (st : state) :
  is_failure l = true -> ~ clean (print l st).
Proof.
  intros Hl Hc. unfold clean, print in Hc. simpl in Hc.
  apply Forall_app in Hc as [_ Hc]. inversion Hc; congruence.
Qed.

Lemma rewrite_annotation_extends (annotation_path base_name ext a : string)
    (st : state) :
  extends st
    (rewrite_annotation ds output_root annotation_path base_name ext a st).
Proof.
  unfold rewrite_annotation.
  destruct (_ ≫= _); [apply extends_write | apply extends_print].
Qed.

Lemma variants_loop_extends (annotation_path base_name ext : string)
    (img : image) (meta : option exif) (enhancements : list enhancement)
    (st : state) :
  extends st
    (fst (variants_loop ds output_root annotation_path base_name ext img meta
            enhancements st)).
Proof.
  revert st. induction enhancements as [|enh rest IH]; intros st; simpl;
    [apply extends_refl|].
  destruct (_ ≫= _) as [enhanced|e]; simpl; [|apply extends_refl].
  eapply extends_trans; [|apply IH].
  eapply extends_trans; [apply extends_write | apply rewrite_annotation_extends].
Qed.

Lemma process_image_extends (enhancements : list enhancement) (st : state)
    (img_file : string) :
  extends st (process_image ds output_root enhancements st img_file).
Proof.
  unfold process_image.
  destruct (negb (has_image_extension img_file)); [apply extends_refl|].
  destruct (negb (annotation_exists ds _)); [apply extends_print|].
  destruct (_ ≫= _) as [[meta img]|e]; [|apply extends_print].
  pose proof (variants_loop_extends
                (path_join (annotation_dir ds) (fst (splitext img_file) +:+ ".json"))
                (fst (splitext img_file)) (snd (splitext img_file))
                img meta enhancements st) as Hext.
  destruct (variants_loop _ _ _ _ _ _ _ _ _) as [st' [e|]]; simpl in Hext;
    (eapply extends_trans; [exact Hext | apply extends_print]).
Qed.

Lemma process_list_extends (enhancements : list enhancement)
    (listing : list string) (st : state) :
  extends st
    (fold_left (process_image ds output_root enhancements) listing st).
Proof.
  revert st. induction listing as [|f l IH]; intros st; simpl;
    [apply extends_refl|].
  eapply extends_trans; [apply process_image_extends | apply IH].
Qed.

(** ** A run that prints no failure *)

Ltac failure_printed Hc :=
  exfalso; refine (not_clean_print _ _ _ Hc); reflexivity.

Lemma rewrite_annotation_clean (img_file a : string) (st : state) :
  clean (rewrite_annotation ds output_root (annotation_path_of ds img_file)
           (base_of img_file) (ext_of img_file) a st) ->
  exists original,
    load_annotation ds (annotation_path_of ds img_file) = Ok (JObj original)
    /\ rewrite_annotation ds output_root (annotation_path_of ds img_file)
         (base_of img_file) (ext_of img_file) a st =
       write (ann_output_path output_root (base_of img_file) a)
         (JsonFile
            (JObj (dict_set "imagePath"
                     (JStr (new_img_name (base_of img_file) (ext_of img_file) a))
                     original))) st.
Proof.
  unfold rewrite_annotation.
  destruct (load_annotation ds (annotation_path_of ds img_file)) as [doc|e];
    cbn [mbind result_bind];
    [|intros Hc; failure_printed Hc].
  destruct doc; cbn [set_item mbind result_bind];
    try (intros Hc; failure_printed Hc).
  destruct (open_for_writing ds _) as [[]|e]; cbn [mbind result_bind];
    [|intros Hc; failure_printed Hc].
  intros _. eauto.
Qed.

Lemma variants_loop_clean (img_file : string) (img : image)
    (meta : option exif) (enhancements : list enhancement) (st st' : state) :
  variants_loop ds output_root (annotation_path_of ds img_file)
    (base_of img_file) (ext_of img_file) img meta enhancements st = (st', None) ->
  clean st' ->
  exists ws,
    Forall2 (job_done ds output_root)
      ((fun enh => (img_file, enh)) <$> enhancements) ws
    /\ files st' = fold_left put (ws ≫= both) (files st).
Proof.
  revert st. induction enhancements as [|enh rest IH]; intros st; simpl.
  - intros [= <-] _. exists []. split; [constructor | reflexivity].
  - destruct (_ ≫= _) as [enhanced|e] eqn:Hvar; [|discriminate].
    intros Hloop Hclean.
    pose proof (variants_loop_extends
                  (annotation_path_of ds img_file) (base_of img_file)
                  (ext_of img_file) img meta rest
                  (rewrite_annotation ds output_root
                     (annotation_path_of ds img_file) (base_of img_file)
                     (ext_of img_file) (alias enh)
                     (write (img_output_path output_root (base_of img_file)
                               (ext_of img_file) (alias enh))
                        (ImageFile enhanced meta) st))) as Hext.
    rewrite Hloop in Hext. simpl in Hext.
    destruct (rewrite_annotation_clean img_file (alias enh) _
                (clean_extends _ _ Hext Hclean)) as (original & Hload & Hrw).
    rewrite Hrw in Hloop.
    destruct (IH _ Hloop Hclean) as (ws & Hws & Hfiles).
    exists (((image_path output_root (img_file, enh), ImageFile enhanced meta),
             (annotation_path output_root (img_file, enh),
              JsonFile (JObj (dict_set "imagePath"
                                (JStr (image_name (img_file, enh))) original))))
            :: ws).
    split.
    + constructor; [|exact Hws]. exists enhanced, meta, original. auto.
    + rewrite Hfiles. reflexivity.
Qed.

Lemma process_image_clean (enhancements : list enhancement) (st : state)
    (img_file : string) :
  clean (process_image ds output_root enhancements st img_file) ->
  (has_image_extension img_file = true ->
   annotation_exists ds (annotation_path_of ds img_file) = true) ->
  exists ws,
    Forall2 (job_done ds output_root)
      (if has_image_extension img_file
       then (fun enh => (img_file, enh)) <$> enhancements else []) ws
    /\ files (process_image ds output_root enhancements st img_file) =
       fold_left put (ws ≫= both) (files st).
Proof.
  unfold process_image. intros Hclean Hann.
  destruct (has_image_extension img_file); cbn [negb] in *;
    [|exists []; split; [constructor | reflexivity]].
  fold (base_of img_file) in *. fold (ext_of img_file) in *.
  fold (annotation_path_of ds img_file) in *.
  rewrite (Hann eq_refl) in *. cbn [negb] in *.
  destruct (_ ≫= _) as [[meta img]|e];
    [|failure_printed Hclean].
  destruct (variants_loop _ _ _ _ _ _ _ _ _) as [st' [e|]] eqn:Hloop;
    [failure_printed Hclean|].
  assert (Hst' : clean st').
  { eapply clean_extends; [apply extends_print | exact Hclean]. }
  destruct (variants_loop_clean _ _ _ _ _ _ Hloop Hst') as (ws & Hws & Hfiles).
  exists ws. split; [exact Hws | exact Hfiles].
Qed.

Lemma jobs_cons (f : string) (l : list string)
    (enhancements : list enhancement) :
  jobs (f :: l) enhancements =
    ((fun enh => (f, enh)) <$> enhancements) ++ jobs l enhancements.
Proof. reflexivity. Qed.

Lemma process_list_clean (enhancements : list enhancement)
    (listing : list string) (st : state) :
  clean (fold_left (process_image ds output_root enhancements) listing st) ->
  Forall (fun f => annotation_exists ds (annotation_path_of ds f) = true)
    (filter (fun f => Is_true (has_image_extension f)) listing) ->
  exists ws,
    Forall2 (job_done ds output_root)
      (jobs (filter (fun f => Is_true (has_image_extension f)) listing)
         enhancements) ws
    /\ files (fold_left (process_image ds output_root enhancements) listing st)
       = fold_left put (ws ≫= both) (files st).
Proof.
  revert st. induction listing as [|f l IH]; intros st Hclean Hann; simpl.
  - exists []. split; [constructor | reflexivity].
  - rewrite filter_cons in Hann |- *.
    assert (Hf : has_image_extension f = true ->
                 annotation_exists ds (annotation_path_of ds f) = true).
    { intros Hext. rewrite Hext in Hann. simpl in Hann.
      inversion Hann; assumption. }
    assert (Hl : Forall (fun f => annotation_exists ds (annotation_path_of ds f)
                                  = true)
                   (filter (fun f => Is_true (has_image_extension f)) l)).
    { destruct (decide _); [inversion Hann; assumption | exact Hann]. }
    simpl in Hclean.
    pose proof (process_list_extends enhancements l
                  (process_image ds output_root enhancements st f)) as Hext.
    destruct (process_image_clean enhancements st f
                (clean_extends _ _ Hext Hclean) Hf) as (ws1 & Hws1 & Hfiles1).
    destruct (IH _ Hclean Hl) as (ws2 & Hws2 & Hfiles2).
    exists (ws1 ++ ws2). split.
    + destruct (has_image_extension f).
      * rewrite decide_True by exact I. rewrite jobs_cons.
        apply Forall2_app; assumption.
      * rewrite decide_False by (intros []).
        inversion Hws1; subst. exact Hws2.
    + rewrite Hfiles2, Hfiles1, bind_app, fold_left_app. reflexivity.
Qed.

(** ** From the writes of a run to the files it leaves *)

Lemma fold_left_put (ws : list (string * file)) (m : gmap string file) :
  fold_left put ws m = foldr (fun p => <[fst p := snd p]>) m (reverse ws).
Proof.
  revert m. induction ws as [|w ws IH]; intros m; simpl; [reflexivity|].
  rewrite IH, reverse_cons, foldr_app. reflexivity.
Qed.

Lemma files_of_writes (ws : list (string * file)) :
  NoDup (fst <$> ws) ->
  map_to_list (fold_left put ws ∅) ≡ₚ ws
  /\ forall k v, (k, v) ∈ ws -> fold_left put ws ∅ !! k = Some v.
Proof.
  intros Hnd. rewrite fold_left_put.
  change (foldr (fun p => <[fst p := snd p]>) ∅ (reverse ws))
    with (list_to_map (M := gmap string file) (reverse ws)).
  assert (Hr : NoDup (fst <$> reverse ws)).
  { rewrite fmap_reverse, reverse_Permutation. exact Hnd. }
  split.
  - rewrite map_to_list_to_map by exact Hr. apply reverse_Permutation.
  - intros k v Hin. apply elem_of_list_to_map; [exact Hr|].
    apply elem_of_reverse, Hin.
Qed.

(** ** The jobs of a run and what they write *)

Lemma jobs_keys (js : list (string * enhancement))
    (ws : list ((string * file) * (string * file))) :
  Forall2 (job_done ds output_root) js ws ->
  fst <$> (ws ≫= both) = js ≫= job_paths output_root.
Proof.
  induction 1 as [|j w js ws (enhanced & meta & original & _ & H1 & H2) _ IH];
    [reflexivity|].
  rewrite !bind_cons, fmap_app, IH. unfold both at 1. simpl.
  rewrite H1, H2. reflexivity.
Qed.

Lemma jobs_kinds (js : list (string * enhancement))
    (ws : list ((string * file) * (string * file))) :
  Forall2 (job_done ds output_root) js ws ->
  length (filter (fun kv => is_image (snd kv) = true) (ws ≫= both)) = length js
  /\ length (filter (fun kv => is_image (snd kv) = false) (ws ≫= both))
     = length js.
Proof.
  induction 1 as [|j w js ws (enhanced & meta & original & _ & H1 & H2) _ IH];
    [split; reflexivity|].
  rewrite !bind_cons, !filter_app, !length_app. unfold both at 1 3.
  rewrite !filter_cons, !filter_nil, H1, H2. simpl.
  destruct IH as [-> ->]. split; reflexivity.
Qed.

Lemma jobs_done_lookup (js : list (string * enhancement))
    (ws : list ((string * file) * (string * file))) (j : string * enhancement) :
  Forall2 (job_done ds output_root) js ws -> j ∈ js ->
  exists w, w ∈ ws /\ job_done ds output_root j w.
Proof.
  induction 1 as [|j' w js ws Hjw _ IH]; intros Hin.
  - inversion Hin.
  - apply elem_of_cons in Hin as [->|Hin].
    + exists w. split; [left | exact Hjw].
    + destruct (IH Hin) as (w' & Hw' & Hd). exists w'. split; [right|]; assumption.
Qed.

Lemma length_jobs (images : list string) (enhancements : list enhancement) :
  length (jobs images enhancements)
  = (length images * length enhancements)%nat.
Proof.
  induction images as [|f l IH]; [reflexivity|].
  rewrite jobs_cons, length_app, length_fmap, IH. reflexivity.
Qed.

Lemma elem_of_jobs (images : list string) (enhancements : list enhancement)
    (j : string * enhancement) :
  j ∈ jobs images enhancements <-> fst j ∈ images /\ snd j ∈ enhancements.
Proof.
  unfold jobs. rewrite list_elem_of_bind. split.
  - intros (f & Hj & Hf). apply list_elem_of_fmap in Hj as (enh & -> & He).
    simpl. auto.
  - intros [Hf He]. exists (fst j). split; [|exact Hf].
    apply list_elem_of_fmap. exists (snd j). split; [|exact He].
    destruct j; reflexivity.
Qed.

Lemma NoDup_jobs (images : list string) (enhancements : list enhancement) :
  NoDup images -> NoDup enhancements -> NoDup (jobs images enhancements).
Proof.
  intros Hi He. unfold jobs. apply NoDup_bind; [| |exact Hi].
  - intros f1 f2 j _ _ H1 H2.
    apply list_elem_of_fmap in H1 as (e1 & -> & _).
    apply list_elem_of_fmap in H2 as (e2 & [= -> _] & _). reflexivity.
  - intros f _. apply NoDup_fmap_2; [|exact He].
    intros e1 e2 [= ->]. reflexivity.
Qed.

Lemma NoDup_fmap_eq {A B} (g : A -> B) (l : list A) (x y : A) :
  NoDup (g <$> l) -> x ∈ l -> y ∈ l -> g x = g y -> x = y.
Proof.
  induction l as [|a l IH]; intros Hnd Hx Hy Hg; [inversion Hx|].
  rewrite fmap_cons in Hnd. apply NoDup_cons in Hnd as [Ha Hnd].
  apply elem_of_cons in Hx as [->|Hx]; apply elem_of_cons in Hy as [->|Hy].
  - reflexivity.
  - exfalso. apply Ha. rewrite Hg. apply list_elem_of_fmap. eauto.
  - exfalso. apply Ha. rewrite <- Hg. apply list_elem_of_fmap. eauto.
  - exact (IH Hnd Hx Hy Hg).
Qed.

(** With distinct base names and distinct, separator-free aliases, no two
    writes of a run go to the same path. *)
Lemma NoDup_job_paths (images : list string)
    (enhancements : list enhancement) :
  Forall (fun f => no_slash f = true /\ has_image_extension f = true) images ->
  NoDup (base_of <$> images) ->
  NoDup (alias <$> enhancements) ->
  Forall (fun enh => no_slash (alias enh) = true) enhancements ->
  NoDup (jobs images enhancements ≫= job_paths output_root).
Proof.
  intros Himg Hbase Halias Hsafe.
  rewrite Forall_forall in Himg. rewrite Forall_forall in Hsafe.
  assert (Hj : forall j, j ∈ jobs images enhancements ->
             no_slash (fst j) = true /\ has_image_extension (fst j) = true
             /\ no_slash (base_of (fst j)) = true
             /\ no_slash (alias (snd j)) = true
             /\ fst j ∈ images /\ snd j ∈ enhancements).
  { intros j Hin. apply elem_of_jobs in Hin as [Hf He].
    destruct (Himg _ Hf) as [Hs Hx].
    repeat split; auto. apply splitext_no_slash, Hs. }
  apply NoDup_bind.
  - intros j1 j2 p Hj1 Hj2 Hp1 Hp2.
    destruct (Hj _ Hj1) as (Hs1 & Hx1 & Hb1 & Ha1 & Hf1 & He1).
    destruct (Hj _ Hj2) as (Hs2 & Hx2 & Hb2 & Ha2 & Hf2 & He2).
    unfold job_paths in Hp1, Hp2.
    rewrite !elem_of_cons, elem_of_nil in Hp1, Hp2.
    destruct j1 as [f1 e1], j2 as [f2 e2]. simpl in *.
    destruct Hp1 as [->|[->|[]]]; destruct Hp2 as [Hp|[Hp|[]]].
    + unfold image_path in Hp. simpl in Hp.
      apply img_output_path_inj in Hp as [Ha ->]; [|assumption..].
      f_equal. exact (NoDup_fmap_eq alias _ _ _ Halias He1 He2 Ha).
    + exfalso. revert Hp. unfold image_path, annotation_path. simpl.
      apply img_ann_paths_differ; assumption.
    + exfalso. symmetry in Hp. revert Hp.
      unfold image_path, annotation_path. simpl.
      apply img_ann_paths_differ; assumption.
    + unfold annotation_path in Hp. simpl in Hp.
      apply ann_output_path_inj in Hp as [Ha Hb]; [|assumption..].
      f_equal.
      * exact (NoDup_fmap_eq base_of _ _ _ Hbase Hf1 Hf2 Hb).
      * exact (NoDup_fmap_eq alias _ _ _ Halias He1 He2 Ha).
  - intros j Hin. destruct (Hj _ Hin) as (_ & _ & Hb & Ha & _).
    unfold job_paths. apply NoDup_cons. split; [|apply NoDup_singleton].
    rewrite list_elem_of_singleton. unfold image_path, annotation_path.
    apply img_ann_paths_differ; assumption.
  - apply NoDup_jobs; [exact (NoDup_fmap_1 _ _ Hbase) | exact (NoDup_fmap_1 _ _ Halias)].
Qed.

End Run.

(** ** The claims about a run over a dataset *)

(** C5 as the specification states it (N images, each paired with an
    annotation, and M aliases always give N x M annotations, each naming
    its own image) does not hold: x.png and x.bmp are both paired with
    x.json, and their rewritten annotations go to one and the same path. *)
Lemma same_base_name_collides :
  NoDup (image_listing two_extensions)
  /\ Forall (fun f => annotation_exists two_extensions
                        (annotation_path_of two_extensions f) = true)
       (images_of two_extensions)
  /\ clean (process_dataset two_extensions "out" [bright] initial)
  /\ length (images_of two_extensions) = 2%nat
  /\ image_count (files (process_dataset two_extensions "out" [bright] initial))
     = 2%nat
  /\ annotation_count
       (files (process_dataset two_extensions "out" [bright] initial)) = 1%nat
  /\ image_name ("x.png", bright) = "x_bright.png"
  /\ files (process_dataset two_extensions "out" [bright] initial)
       !! annotation_path "out" ("x.png", bright)
     = Some (JsonFile
               (JObj [("version", JStr "5.0"); ("imagePath", JStr "x_bright.bmp");
                      ("imageWidth", JInt 100); ("imageHeight", JInt 200);
                      ("shapes", JArr [])])).
Proof.
  split; [apply NoDup_ListNoDup; repeat constructor; simpl; intuition discriminate|].
  split; [repeat constructor|].
  split; [repeat constructor|].
  repeat split; vm_compute; reflexivity.
Qed.

(** C5 (amended). For a dataset whose N image files have pairwise distinct
    base names and each an annotation of that base name, and M enhancements
    with pairwise distinct, separator-free aliases, a run that prints no
    failure leaves exactly N x M enhanced images and N x M rewritten
    annotations; for every image and alias the image stands under its
    output path and the annotation under its own, with imagePath equal to
    the file name base_alias.ext of that image.  (The listing of the image
    directory holds plain file names, without a path separator.) *)
Theorem full_run_counts `{Imaging} (ds : dataset) (output_root : string)
    (enhancements : list enhancement) :
  Forall (fun f => no_slash f = true) (image_listing ds) ->
  NoDup (base_of <$> images_of ds) ->
  NoDup (alias <$> enhancements) ->
  Forall (fun enh => no_slash (alias enh) = true) enhancements ->
  Forall (fun f => annotation_exists ds (annotation_path_of ds f) = true)
    (images_of ds) ->
  clean (process_dataset ds output_root enhancements initial) ->
  image_count (files (process_dataset ds output_root enhancements initial))
    = (length (images_of ds) * length enhancements)%nat
  /\ annotation_count
       (files (process_dataset ds output_root enhancements initial))
     = (length (images_of ds) * length enhancements)%nat
  /\ forall f enh, f ∈ images_of ds -> enh ∈ enhancements ->
       exists enhanced meta original,
         load_annotation ds (annotation_path_of ds f) = Ok (JObj original)
         /\ files (process_dataset ds output_root enhancements initial)
              !! image_path output_root (f, enh)
            = Some (ImageFile enhanced meta)
         /\ files (process_dataset ds output_root enhancements initial)
              !! annotation_path output_root (f, enh)
            = Some (JsonFile
                      (JObj (dict_set "imagePath" (JStr (image_name (f, enh)))
                               original)))
         /\ dict_get "imagePath"
              (dict_set "imagePath" (JStr (image_name (f, enh))) original)
            = Some (JStr (new_img_name (base_of f) (ext_of f) (alias enh))).
Proof.
  intros Hslash Hbase Halias Hsafe Hann Hclean.
  destruct (process_list_clean ds output_root enhancements (image_listing ds)
              initial Hclean Hann) as (ws & Hws & Hfiles).
  fold (images_of ds) in Hws. unfold process_dataset. rewrite Hfiles.
  assert (Himg : Forall (fun f => no_slash f = true
                                  /\ has_image_extension f = true)
                   (images_of ds)).
  { apply Forall_forall. intros f Hf. unfold images_of in Hf.
    apply list_elem_of_filter in Hf as [Hx Hf]. split.
    - rewrite Forall_forall in Hslash. apply Hslash, Hf.
    - apply Is_true_true, Hx. }
  assert (Hnd : NoDup (fst <$> (ws ≫= both))).
  { rewrite (jobs_keys ds output_root _ _ Hws).
    apply NoDup_job_paths; assumption. }
  destruct (files_of_writes (ws ≫= both) Hnd) as [Hperm Hlook].
  destruct (jobs_kinds ds output_root _ _ Hws) as [Hi Ha].
  unfold image_count, annotation_count. simpl files. rewrite !Hperm, Hi, Ha.
  rewrite length_jobs. split; [reflexivity|]. split; [reflexivity|].
  intros f enh Hf He.
  destruct (jobs_done_lookup ds output_root _ ws (f, enh) Hws) as (w & Hw & Hd).
  { apply elem_of_jobs. auto. }
  destruct Hd as (enhanced & meta & original & Hload & H1 & H2).
  exists enhanced, meta, original. split; [exact Hload|].
  split; [|split].
  - apply Hlook. apply list_elem_of_bind. exists w. split; [|exact Hw].
    rewrite <- H1. left.
  - apply Hlook. apply list_elem_of_bind. exists w. split; [|exact Hw].
    rewrite <- H2. right. left.
  - apply dict_get_set_eq.
Qed.

(** A run over two images and two enhancements. *)
Lemma full_run_counts_scenario :
  (length (images_of two_images) * length [bright; soft])%nat = 4%nat
  /\ image_count (files (process_dataset two_images "out" [bright; soft] initial))
     = (length (images_of two_images) * length [bright; soft])%nat
  /\ annotation_count
       (files (process_dataset two_images "out" [bright; soft] initial))
     = (length (images_of two_images) * length [bright; soft])%nat
  /\ exists enhanced meta original,
       load_annotation two_images (annotation_path_of two_images "b.BMP")
         = Ok (JObj original)
       /\ files (process_dataset two_images "out" [bright; soft] initial)
            !! image_path "out" ("b.BMP", soft)
          = Some (ImageFile enhanced meta)
       /\ files (process_dataset two_images "out" [bright; soft] initial)
            !! annotation_path "out" ("b.BMP", soft)
          = Some (JsonFile
                    (JObj (dict_set "imagePath"
                             (JStr (image_name ("b.BMP", soft))) original)))
       /\ dict_get "imagePath"
            (dict_set "imagePath" (JStr (image_name ("b.BMP", soft))) original)
          = Some (JStr (new_img_name (base_of "b.BMP") (ext_of "b.BMP")
                          (alias soft))).
Proof.
  split; [reflexivity|].
  destruct (full_run_counts two_images "out" [bright; soft])
    as (Hi & Ha & Hl).
  - repeat constructor.
  - apply NoDup_ListNoDup. vm_compute.
    repeat constructor; simpl; intuition discriminate.
  - apply NoDup_ListNoDup. vm_compute.
    repeat constructor; simpl; intuition discriminate.
  - repeat constructor.
  - vm_compute. repeat constructor.
  - vm_compute. repeat constructor.
  - split; [exact Hi|]. split; [exact Ha|].
    apply Hl.
    + vm_compute. right. left.
    + right. left.
Defined.

(** ** What a rewritten annotation holds *)

Section Frame.
Context `{Imaging} (ds : dataset) (output_root : string)
        (enhancements : list enhancement).

Local Abbreviation all_rewritten :=
  (annotations_rewritten ds output_root enhancements).
Local Abbreviation rewritten_here :=
  (rewritten ds output_root enhancements).

Lemma rewritten_print (l : log_line) (st : state) :
  all_rewritten st -> all_rewritten (print l st).
Proof. intros Hst. exact Hst. Qed.

Lemma rewritten_write_image (p : string) (img : image) (meta : option exif)
    (st : state) :
  all_rewritten st ->
  all_rewritten (write p (ImageFile img meta) st).
Proof.
  intros Hst path doc. unfold write. simpl. rewrite lookup_insert.
  destruct (decide (p = path)); [discriminate | apply Hst].
Qed.

Lemma rewritten_write_annotation (p : string) (d : json) (st : state) :
  rewritten_here p d -> all_rewritten st ->
  all_rewritten (write p (JsonFile d) st).
Proof.
  intros Hd Hst path doc. unfold write. simpl. rewrite lookup_insert.
  destruct (decide (p = path)) as [<-|Hne]; [|apply Hst].
  intros [= <-]. exact Hd.
Qed.

Lemma rewrite_annotation_rewritten (img_file : string) (enh : enhancement)
    (st : state) :
  img_file ∈ image_listing ds -> enh ∈ enhancements ->
  all_rewritten st ->
  all_rewritten
    (rewrite_annotation ds output_root (annotation_path_of ds img_file)
       (base_of img_file) (ext_of img_file) (alias enh) st).
Proof.
  intros Hf He Hst. unfold rewrite_annotation.
  destruct (load_annotation ds (annotation_path_of ds img_file)) as [doc|e] eqn:Hl;
    cbn [mbind result_bind]; [|apply rewritten_print, Hst].
  destruct doc; cbn [set_item mbind result_bind];
    try (apply rewritten_print, Hst).
  destruct (open_for_writing ds _) as [[]|e]; cbn [mbind result_bind];
    [|apply rewritten_print, Hst].
  apply rewritten_write_annotation; [|exact Hst].
  exists img_file, enh, fields. auto.
Qed.

Lemma variants_loop_rewritten (img_file : string) (img : image)
    (meta : option exif) (rest : list enhancement) (st : state) :
  img_file ∈ image_listing ds ->
  (forall enh, enh ∈ rest -> enh ∈ enhancements) ->
  all_rewritten st ->
  all_rewritten
    (fst (variants_loop ds output_root (annotation_path_of ds img_file)
            (base_of img_file) (ext_of img_file) img meta rest st)).
Proof.
  intros Hf. revert st. induction rest as [|enh rest IH]; intros st Hsub Hst;
    simpl; [exact Hst|].
  destruct (_ ≫= _) as [enhanced|e]; simpl; [|exact Hst].
  apply IH.
  - intros e He. apply Hsub. right. exact He.
  - apply rewrite_annotation_rewritten; [exact Hf | apply Hsub; left |].
    apply rewritten_write_image, Hst.
Qed.

Lemma process_image_rewritten (st : state) (img_file : string) :
  img_file ∈ image_listing ds ->
  all_rewritten st ->
  all_rewritten (process_image ds output_root enhancements st img_file).
Proof.
  intros Hf Hst. unfold process_image.
  destruct (negb (has_image_extension img_file)); [exact Hst|].
  destruct (negb (annotation_exists ds _)); [apply rewritten_print, Hst|].
  destruct (_ ≫= _) as [[meta img]|e]; [|apply rewritten_print, Hst].
  pose proof (variants_loop_rewritten img_file img meta enhancements st Hf
                (fun _ He => He) Hst) as Hloop.
  unfold annotation_path_of, base_of, ext_of in Hloop.
  destruct (variants_loop _ _ _ _ _ _ _ _ _) as [st' [e|]]; simpl in Hloop;
    apply rewritten_print, Hloop.
Qed.

Lemma process_list_rewritten (listing : list string) (st : state) :
  (forall f, f ∈ listing -> f ∈ image_listing ds) ->
  all_rewritten st ->
  all_rewritten
    (fold_left (process_image ds output_root enhancements) listing st).
Proof.
  revert st. induction listing as [|f l IH]; intros st Hsub Hst; simpl;
    [exact Hst|].
  apply IH.
  - intros g Hg. apply Hsub. right. exact Hg.
  - apply process_image_rewritten; [apply Hsub; left | exact Hst].
Qed.

End Frame.

(** C7. Every annotation that a run of the enhancer leaves is the parsed
    annotation of one of the images with the value of imagePath set to the
    file name of the enhanced image for one of the aliases: imagePath holds
    that name, and every other key holds the value it had. *)
Theorem annotation_only_image_path_replaced `{Imaging} (ds : dataset)
    (output_root : string) (enhancements : list enhancement)
    (path : string) (doc : json) :
  files (process_dataset ds output_root enhancements initial) !! path
    = Some (JsonFile doc) ->
  exists img_file enh original,
    img_file ∈ image_listing ds /\ enh ∈ enhancements
    /\ load_annotation ds (annotation_path_of ds img_file) = Ok (JObj original)
    /\ path = annotation_path output_root (img_file, enh)
    /\ doc = JObj (dict_set "imagePath" (JStr (image_name (img_file, enh)))
                     original)
    /\ dict_get "imagePath"
         (dict_set "imagePath" (JStr (image_name (img_file, enh))) original)
       = Some (JStr (image_name (img_file, enh)))
    /\ forall k, k <> "imagePath" ->
         dict_get k (dict_set "imagePath" (JStr (image_name (img_file, enh)))
                       original)
         = dict_get k original.
Proof.
  intros Hlook.
  assert (Hinv : annotations_rewritten ds output_root enhancements
                   (process_dataset ds output_root enhancements initial)).
  { apply process_list_rewritten; [auto|].
    intros p d Hp. simpl in Hp. rewrite lookup_empty in Hp. discriminate. }
  destruct (Hinv path doc Hlook)
    as (img_file & enh & original & Hf & He & Hload & Hpath & Hdoc).
  exists img_file, enh, original.
  repeat (split; [assumption|]). split.
  - apply dict_get_set_eq.
  - intros k Hk. apply dict_get_set_ne. congruence.
Qed.

(** The annotation left for a.png under the alias bright. *)
Lemma annotation_frame_scenario :
  exists img_file enh original,
    img_file ∈ image_listing two_images /\ enh ∈ [bright; soft]
    /\ load_annotation two_images (annotation_path_of two_images img_file)
       = Ok (JObj original)
    /\ "out/annotations_bright/a_bright.json"
       = annotation_path "out" (img_file, enh)
    /\ JObj [("version", JStr "5.0"); ("imagePath", JStr "a_bright.png");
             ("imageWidth", JInt 100); ("imageHeight", JInt 200);
             ("shapes", JArr [])]
       = JObj (dict_set "imagePath" (JStr (image_name (img_file, enh)))
                 original)
    /\ dict_get "imagePath"
         (dict_set "imagePath" (JStr (image_name (img_file, enh))) original)
       = Some (JStr (image_name (img_file, enh)))
    /\ forall k, k <> "imagePath" ->
         dict_get k (dict_set "imagePath" (JStr (image_name (img_file, enh)))
                       original)
         = dict_get k original.
Proof.
  apply (annotation_only_image_path_replaced two_images "out" [bright; soft]).
  vm_compute. reflexivity.
Defined.

(** ** The enhancement engine *)

Lemma gt_zero_raises (v : json) (e : exn) :
  gt_zero v = Raise e -> e = TypeError.
Proof.
  unfold gt_zero. destruct (as_num v) as [[z|f]|]; [discriminate..|].
  intros [= <-]. reflexivity.
Qed.

Ltac run_primitives :=
  repeat first
    [ reflexivity
    | match goal with
      | |- context [mbind _ ?m] => destruct m; cbn [mbind result_bind]
      end ].

(** C6. [apply_enhancement] applies, in the fixed order brightness,
    contrast, sharpness, color, Gaussian blur, exactly the transforms whose
    key stands in the parameter mapping (the blur only if its radius is
    strictly positive as well), each on the output of the one before; a
    blur radius that cannot be compared with 0 raises a TypeError once the
    four enhancements before it have been applied. *)
Theorem transforms_in_fixed_order `{Imaging} (img : image)
    (enhance_params : list (string * json)) :
  apply_enhancement img enhance_params =
    if has_key "blur_radius" enhance_params
       && negb (is_ok (gt_zero (item "blur_radius" enhance_params)))
    then
      _ ← chain enhance_params
            (List.filter (applies enhance_params) fixed_order) img;
      Raise TypeError
    else
      chain enhance_params (List.filter (applies enhance_params) fixed_order)
        img.
Proof.
  unfold apply_enhancement, fixed_order, applies.
  cbn [List.filter key_of].
  destruct (gt_zero (item "blur_radius" enhance_params)) as [[]|e] eqn:Hgt;
    [| |apply gt_zero_raises in Hgt; subst e];
    destruct (has_key "brightness" enhance_params),
             (has_key "contrast" enhance_params),
             (has_key "sharpness" enhance_params),
             (has_key "color" enhance_params),
             (has_key "blur_radius" enhance_params);
    cbn [andb negb is_ok chain primitive key_of mbind result_bind];
    run_primitives.
Qed.

(** Whatever the order of the keys in the mapping, the operations come in
    the fixed order, and a zero radius does not blur. *)
Lemma fixed_order_scenario :
  @apply_enhancement symbolic ("a.png", [])
    [("blur_radius", JInt 3); ("contrast", JInt 1); ("brightness", JInt 2)]
  = Ok ("a.png", [Enhanced Brightness (JInt 2); Enhanced Contrast (JInt 1);
                  Enhanced GaussianBlur (JInt 3)])
  /\ @apply_enhancement symbolic ("a.png", []) (parameters bright)
     = Ok ("a.png", [Enhanced Brightness (JInt 2)]).
Proof. split; reflexivity. Qed.

(** With the symbolic library the result of the engine is the image with
    the applied transforms appended in the fixed order. *)
Lemma symbolic_chain (enhance_params : list (string * json))
    (ts : list transform) (img : symbolic_image) :
  @chain symbolic enhance_params ts img =
    Ok (fst img,
        snd img ++ map (fun t => Enhanced t (item (key_of t) enhance_params)) ts).
Proof.
  revert img. induction ts as [|t ts IH]; intros [src ops]; simpl.
  - rewrite app_nil_r. reflexivity.
  - destruct t; simpl; rewrite IH; simpl; rewrite <- app_assoc; reflexivity.
Qed.

Lemma symbolic_trace (enhance_params : list (string * json))
    (img : symbolic_image) :
  has_key "blur_radius" enhance_params = false
  \/ is_ok (gt_zero (item "blur_radius" enhance_params)) = true ->
  @apply_enhancement symbolic img enhance_params =
    Ok (fst img,
        snd img
        ++ map (fun t => Enhanced t (item (key_of t) enhance_params))
             (List.filter (applies enhance_params) fixed_order)).
Proof.
  intros Hcmp. rewrite (@transforms_in_fixed_order symbolic).
  assert (Hgo : has_key "blur_radius" enhance_params
                && negb (is_ok (gt_zero (item "blur_radius" enhance_params)))
                = false).
  { destruct Hcmp as [-> | ->]; [reflexivity | apply andb_false_r]. }
  rewrite Hgo. apply symbolic_chain.
Qed.

End EnhancerFacts.

(* ===================================================================== *)
(** * Part IX: facts about loading the modules                           *)
(* ===================================================================== *)

Module LoadFacts.
Import Py ModuleLoad.


(** Under deferred evaluation of annotations the same file reaches
    [main]. *)
Lemma converter_runs_when_deferred (installed : string -> bool)
    (w : Converter.world) (a : Converter.args) :
  Forall (fun m => installed m = true) converter_imports ->
  converter_program Deferred installed w a = Runs (Converter.main w a).
Proof.
  intros Hall. unfold converter_imports in Hall.
  inversion_clear Hall as [|? ? Hos Hall1].
  inversion_clear Hall1 as [|? ? Hjson Hall2].
  inversion_clear Hall2 as [|? ? Hargparse Hall3].
  inversion_clear Hall3 as [|? ? Htqdm _].
  unfold converter_program. cbn [exec json2txt_converter].
  rewrite Hos, Hjson, Hargparse, Htqdm. reflexivity.
Qed.




(** The enhancer imports every name its annotations use. *)
Lemma enhancer_loads :
  exec Eager (fun _ => true) [] image_enhancement =
    CallsMain "main"
      ["os"; "json"; "shutil"; "Image"; "ImageEnhance"; "ImageFilter";
       "argparse"; "load_config"; "apply_enhancement"; "process_dataset";
       "main"].
Proof. reflexivity. Qed.

End LoadFacts.

(* ===================================================================== *)
(** * Part X: the class registry, and the converter file by file         *)
(* ===================================================================== *)

Module RegistryFacts.
Import Py PyFacts StringFacts Converter ConverterBatch ConverterFacts.

(** ** Trimming *)

Lemma lstrip_head (s : string) (a : ascii) (r : string) :
  lstrip s = String a r -> is_space a = false.
Proof.
  induction s as [|b s IH]; simpl; [discriminate|].
  destruct (is_space b) eqn:Hb; [exact IH|].
  intros [= <- _]. exact Hb.
Qed.

Lemma lstrip_nonspace (a : ascii) (s : string) :
  is_space a = false -> lstrip (String a s) = String a s.
Proof. intros H. simpl. rewrite H. reflexivity. Qed.

Lemma rstrip_nonspace (a : ascii) (s : string) :
  is_space a = false -> rstrip (String a s) = String a (rstrip s).
Proof. intros H. simpl. rewrite H. destruct (rstrip s); reflexivity. Qed.

Lemma rstrip_idem (s : string) : rstrip (rstrip s) = rstrip s.
Proof.
  induction s as [|a s IH]; [reflexivity|].
  cbn [rstrip]. destruct (rstrip s) as [|b r] eqn:Hr.
  - destruct (is_space a) eqn:Ha; [reflexivity|].
    simpl. rewrite Ha. reflexivity.
  - cbn [rstrip]. cbn [rstrip] in IH. rewrite IH. reflexivity.
Qed.

(** Trimming a trimmed string changes nothing. *)
Lemma strip_idem (s : string) : strip (strip s) = strip s.
Proof.
  unfold strip. destruct (lstrip s) as [|a r] eqn:Hl; [reflexivity|].
  pose proof (lstrip_head _ _ _ Hl) as Ha.
  rewrite (rstrip_nonspace a r Ha), (lstrip_nonspace _ _ Ha).
  rewrite <- (rstrip_nonspace a r Ha). apply rstrip_idem.
Qed.

(** A non-empty trimmed string starts with a character that is no space. *)
Lemma stripped_head (s : string) :
  strip s = s -> s <> EmptyString ->
  exists a r, s = String a r /\ is_space a = false.
Proof.
  unfold strip. intros Hs Hne.
  destruct (lstrip s) as [|a r] eqn:Hl; [simpl in Hs; congruence|].
  pose proof (lstrip_head _ _ _ Hl) as Ha.
  rewrite (rstrip_nonspace a r Ha) in Hs. eauto.
Qed.

Lemma rstrip_newline (s : string) : rstrip (s +:+ nl) = rstrip s.
Proof.
  induction s as [|a s IH]; [reflexivity|].
  change (String a s +:+ nl) with (String a (s +:+ nl)).
  cbn [rstrip]. rewrite IH. reflexivity.
Qed.

Lemma strip_line (s : string) :
  strip s = s -> s <> EmptyString -> strip (s +:+ nl) = s.
Proof.
  intros Hs Hne. destruct (stripped_head s Hs Hne) as (a & r & -> & Ha).
  unfold strip in *. change (String a r +:+ nl) with (String a (r +:+ nl)).
  rewrite (lstrip_nonspace a r Ha) in Hs.
  rewrite (lstrip_nonspace a (r +:+ nl) Ha).
  change (String a (r +:+ nl)) with (String a r +:+ nl).
  rewrite rstrip_newline. exact Hs.
Qed.

(** ** Cutting at commas *)

Lemma split_lacks (c : ascii) (s : string) :
  lacks c s = true -> split c s = [s].
Proof.
  induction s as [|a s IH]; simpl; [reflexivity|].
  intros H. apply andb_true_iff in H as [Ha Hs]. apply negb_true_iff in Ha.
  rewrite Ha, (IH Hs). reflexivity.
Qed.

Lemma split_app (c : ascii) (s t : string) :
  lacks c s = true -> split c (s +:+ String c t) = s :: split c t.
Proof.
  induction s as [|a s IH]; intros H.
  - change (EmptyString +:+ String c t) with (String c t). simpl.
    rewrite Ascii.eqb_refl. reflexivity.
  - change (String a s +:+ String c t) with (String a (s +:+ String c t)).
    simpl in H |- *. apply andb_true_iff in H as [Ha Hs].
    apply negb_true_iff in Ha. rewrite Ha, (IH Hs). reflexivity.
Qed.

(** Cutting a joined list at the separator gives the list back. *)
Lemma split_join (c : ascii) (parts : list string) :
  parts <> [] -> Forall (fun p => lacks c p = true) parts ->
  split c (join (String c EmptyString) parts) = parts.
Proof.
  induction parts as [|p rest IH]; [congruence|].
  intros _ Hall. apply Forall_cons in Hall as [Hp Hrest].
  destruct rest as [|q rest].
  - simpl. apply split_lacks, Hp.
  - change (join (String c "") (p :: q :: rest))
      with (p +:+ String c "" +:+ join (String c "") (q :: rest)).
    change (String c "" +:+ join (String c "") (q :: rest))
      with (String c (join (String c "") (q :: rest))).
    rewrite (split_app c p _ Hp), IH; [reflexivity | discriminate | exact Hrest].
Qed.

Lemma filter_nonempty_all (names : list string) :
  Forall (fun n => n <> EmptyString) names ->
  filter (fun c => Is_true (nonempty c)) names = names.
Proof.
  induction 1 as [|n names Hn _ IH]; [reflexivity|].
  rewrite filter_cons, IH. rewrite decide_True; [reflexivity|].
  unfold nonempty. apply Is_true_true, negb_true_iff, String.eqb_neq, Hn.
Qed.

(** X1. Every name of a registry that [load_classes] returns is non-empty
    and trimmed: it has no white space at either end. *)
Theorem load_classes_trimmed
    (open_lines : string -> result (list string)) (cf cs : option string)
    (classes : list string) (c : string) :
  load_classes open_lines cf cs = Ok classes -> In c classes ->
  c <> EmptyString /\ strip c = c.
Proof.
  intros Hload Hin.
  assert (Hf : forall l : list string,
             In c (filter (fun c => Is_true (nonempty c)) (map strip l)) ->
             c <> EmptyString /\ strip c = c).
  { intros l Hl. apply list_elem_of_In, list_elem_of_filter in Hl as [Hne Hl].
    split.
    - intros ->. exact Hne.
    - apply list_elem_of_In, in_map_iff in Hl as (raw & <- & _).
      apply strip_idem. }
  unfold load_classes in Hload. destruct (given cf).
  - destruct (open_lines _); simpl in Hload; [|discriminate].
    injection Hload as <-. exact (Hf _ Hin).
  - destruct (given cs); [|discriminate].
    injection Hload as <-. exact (Hf _ Hin).
Qed.

Lemma load_classes_trimmed_example :
  load_classes (fun _ => Raise OSError) None (Some " cat ,, dog") = Ok ["cat"; "dog"]
  /\ "dog" <> EmptyString /\ strip "dog" = "dog".
Proof.
  split; [reflexivity|].
  apply (load_classes_trimmed (fun _ => Raise OSError) None (Some " cat ,, dog")
           ["cat"; "dog"] "dog").
  - reflexivity.
  - simpl. auto.
Defined.

(** X2. The inline source is cut at its commas: when the file source is
    absent or empty, the registry of a non-empty string made of comma-free
    pieces joined by commas is the trimmed pieces, in order, the empty ones
    dropped. *)
Theorem inline_source_pieces
    (open_lines : string -> result (list string)) (cf : option string)
    (pieces : list string) :
  given cf = false ->
  Forall (fun p => lacks ","%char p = true) pieces ->
  join "," pieces <> EmptyString ->
  load_classes open_lines cf (Some (join "," pieces)) =
    Ok (filter (fun c => Is_true (nonempty c)) (map strip pieces)).
Proof.
  intros Hcf Hall Hne. unfold load_classes. rewrite Hcf.
  assert (Hg : given (Some (join "," pieces)) = true).
  { simpl. apply negb_true_iff, String.eqb_neq, Hne. }
  rewrite Hg. simpl default.
  assert (Hparts : pieces <> []) by (intros ->; apply Hne; reflexivity).
  change (join "," pieces) with (join (String ","%char EmptyString) pieces).
  rewrite (split_join ","%char pieces Hparts Hall). reflexivity.
Qed.

Lemma inline_source_example :
  load_classes (fun _ => Raise OSError) None (Some (join "," ["cat"; " dog "; ""; "bird"]))
  = Ok (filter (fun c => Is_true (nonempty c))
          (map strip ["cat"; " dog "; ""; "bird"]))
  /\ filter (fun c => Is_true (nonempty c)) (map strip ["cat"; " dog "; ""; "bird"])
     = ["cat"; "dog"; "bird"].
Proof.
  split; [|reflexivity].
  apply (inline_source_pieces (fun _ => Raise OSError) None
           ["cat"; " dog "; ""; "bird"]).
  - reflexivity.
  - repeat constructor.
  - discriminate.
Defined.

(** X3. A class file that holds one trimmed, non-empty name per line
    loads as exactly those names, in order, whatever the inline source. *)
Theorem class_file_round_trip
    (open_lines : string -> result (list string)) (path : string)
    (cs : option string) (names : list string) :
  path <> EmptyString ->
  Forall (fun n => n <> EmptyString /\ strip n = n) names ->
  open_lines path = Ok (map (fun n => n +:+ nl) names) ->
  load_classes open_lines (Some path) cs = Ok names.
Proof.
  intros Hpath Hall Hopen. unfold load_classes.
  assert (Hg : given (Some path) = true).
  { simpl. apply negb_true_iff, String.eqb_neq, Hpath. }
  rewrite Hg. simpl default. rewrite Hopen. cbn [mbind result_bind].
  f_equal. rewrite map_map.
  assert (Hmap : map (fun n => strip (n +:+ nl)) names = names).
  { clear Hopen. induction Hall as [|n names [Hn Hs] _ IH]; [reflexivity|].
    simpl. rewrite IH, (strip_line n Hs Hn). reflexivity. }
  rewrite Hmap. apply filter_nonempty_all.
  eapply Forall_impl; [exact Hall|]. simpl. tauto.
Qed.

Lemma class_file_example :
  load_classes
    (fun p => if String.eqb p "classes.txt"
              then Ok (map (fun n => n +:+ nl) ["cat"; "wild dog"])
              else Raise OSError)
    (Some "classes.txt") (Some "bird")
  = Ok ["cat"; "wild dog"].
Proof.
  apply class_file_round_trip.
  - discriminate.
  - repeat constructor; discriminate.
  - reflexivity.
Defined.

End RegistryFacts.

Module StoreFacts.
Import ConverterBatch.

(** ** Writing a list of files one after the other *)

Section Store.
Context {V : Type}.
Implicit Types (m : gmap string V) (ws : list (string * V)).

Lemma fold_store_snoc ws (w : string * V) m :
  fold_left store (ws ++ [w]) m = store (fold_left store ws m) w.
Proof. rewrite fold_left_app. reflexivity. Qed.

(** A path that no write names keeps its content. *)
Lemma fold_store_other ws m (k : string) :
  ~ In k (map fst ws) -> fold_left store ws m !! k = m !! k.
Proof.
  revert m. induction ws as [|[k' v] ws IH]; intros m Hk; simpl; [reflexivity|].
  rewrite IH by (intros H; apply Hk; right; exact H).
  unfold store. simpl. apply lookup_insert_ne.
  intros ->. apply Hk. left. reflexivity.
Qed.

(** The last write to a path decides its content. *)
Lemma fold_store_last ws m (k : string) (v : V) (pre post : list (string * V)) :
  ws = pre ++ (k, v) :: post -> ~ In k (map fst post) ->
  fold_left store ws m !! k = Some v.
Proof.
  intros -> Hk. rewrite fold_left_app. simpl.
  rewrite fold_store_other by exact Hk.
  unfold store. simpl. apply lookup_insert_eq.
Qed.

Lemma last_write ws (k : string) :
  In k (map fst ws) ->
  exists pre v post, ws = pre ++ (k, v) :: post /\ ~ In k (map fst post).
Proof.
  induction ws as [|[k' v'] ws IH]; simpl; [tauto|].
  intros Hin. destruct (in_dec string_dec k (map fst ws)) as [Hk|Hk].
  - destruct (IH Hk) as (pre & v & post & -> & Hpost).
    exists ((k', v') :: pre), v, post. auto.
  - destruct Hin as [->|Hin]; [|contradiction].
    exists [], v', ws. auto.
Qed.

(** Writing the same list of files a second time changes nothing. *)
Lemma fold_store_idem ws m :
  fold_left store ws (fold_left store ws m) = fold_left store ws m.
Proof.
  apply map_eq. intros k.
  destruct (in_dec string_dec k (map fst ws)) as [Hk|Hk].
  - destruct (last_write ws k Hk) as (pre & v & post & Hws & Hpost).
    rewrite !(fold_store_last ws _ k v pre post Hws Hpost). reflexivity.
  - rewrite !fold_store_other by exact Hk. reflexivity.
Qed.

End Store.
End StoreFacts.

Module BatchFacts.
Import Py PyFacts StringFacts Converter ConverterBatch ConverterFacts StoreFacts.
Import ConverterScenarios BatchScenarios.

(** ** One entry, then a listing *)

(** What a step of the loop does to the state is what [output] and
    [report] say, whatever the state is. *)
Lemma convert_one_effect (json_dir save_dir : string) (classes : list string)
    (format : string) (st : state) (f : entry) :
  convert_one json_dir save_dir classes format st f =
    mkState
      (fold_left store (option_list (output save_dir classes format f))
         (files st))
      (stdout st ++ option_list (report json_dir classes format f)).
Proof.
  unfold convert_one, output, report, is_json.
  destruct (endswith (lower (json_fname f)) ".json"); cbn [negb].
  - fold (file_result classes format f).
    destruct (file_result classes format f) as [txt|e].
    + unfold write. simpl. rewrite app_nil_r. reflexivity.
    + destruct e; reflexivity.
  - destruct st. simpl. rewrite app_nil_r. reflexivity.
Qed.

Lemma omap_cons_list {A B} (g : A -> option B) (x : A) (l : list A) :
  omap g (x :: l) = option_list (g x) ++ omap g l.
Proof. simpl. destruct (g x); reflexivity. Qed.

Lemma run_effect (json_dir save_dir : string) (classes : list string)
    (format : string) (listing : list entry) (st : state) :
  convert_json_to_txt json_dir save_dir classes format listing st =
    mkState
      (fold_left store (omap (output save_dir classes format) listing)
         (files st))
      (stdout st ++ omap (report json_dir classes format) listing).
Proof.
  unfold convert_json_to_txt. revert st.
  induction listing as [|f l IH]; intros st.
  - destruct st. simpl. rewrite app_nil_r. reflexivity.
  - cbn [fold_left]. rewrite IH, convert_one_effect, !omap_cons_list.
    cbn [files stdout]. rewrite fold_left_app, <- app_assoc. reflexivity.
Qed.

Lemma output_path (save_dir : string) (classes : list string)
    (format : string) (f : entry) (w : string * string) :
  output save_dir classes format f = Some w ->
  is_json f = true
  /\ exists txt, file_result classes format f = Ok txt
                 /\ w = (txt_path save_dir (json_fname f),
                         String.concat EmptyString txt).
Proof.
  unfold output. destruct (is_json f); [|discriminate].
  destruct (file_result classes format f) as [txt|e]; [|discriminate].
  intros [= <-]. eauto.
Qed.

Lemma in_outputs (save_dir : string) (classes : list string)
    (format : string) (listing : list entry) (p : string) :
  In p (map fst (omap (output save_dir classes format) listing)) ->
  exists f, In f listing /\ is_json f = true
            /\ is_ok (file_result classes format f) = true
            /\ txt_path save_dir (json_fname f) = p.
Proof.
  intros Hin. apply in_map_iff in Hin as (w & <- & Hw).
  apply list_elem_of_In, list_elem_of_omap in Hw as (f & Hf & Hout).
  apply output_path in Hout as (Hj & txt & Hres & ->).
  exists f. apply list_elem_of_In in Hf. rewrite Hres. auto.
Qed.

(** X5. A run of the converter changes nothing but the text files of the
    .json entries that were transcoded and written without an exception:
    every other path keeps the content it had. *)
Theorem untouched_paths (json_dir save_dir : string) (classes : list string)
    (format : string) (listing : list entry) (st : state) (p : string) :
  (forall f, In f listing -> is_json f = true ->
             is_ok (file_result classes format f) = true ->
             txt_path save_dir (json_fname f) <> p) ->
  files (convert_json_to_txt json_dir save_dir classes format listing st) !! p
  = files st !! p.
Proof.
  intros Hp. rewrite run_effect. cbn [files].
  apply fold_store_other. intros Hin.
  apply in_outputs in Hin as (f & Hf & Hj & Hok & Hpath).
  exact (Hp f Hf Hj Hok Hpath).
Qed.

Lemma untouched_paths_example :
  files (convert_json_to_txt "in" "out" ["cat"] "yolo" good_then_bad kept)
    !! "out/b.txt"
  = files kept !! "out/b.txt".
Proof.
  apply untouched_paths.
  intros f [<-|[<-|[<-|[]]]] Hj Hok; vm_compute in Hj, Hok |- *;
    discriminate.
Defined.

(** X6. The text file of an entry that is transcoded and written without
    an exception holds the concatenation of its lines at the end of the
    run, unless a later entry of the listing is written to the same
    path. *)
Theorem written_content (json_dir save_dir : string) (classes : list string)
    (format : string) (pre post : list entry) (f : entry) (st : state)
    (txt : list string) :
  is_json f = true ->
  file_result classes format f = Ok txt ->
  (forall g, In g post -> is_json g = true ->
             is_ok (file_result classes format g) = true ->
             txt_path save_dir (json_fname g) <> txt_path save_dir (json_fname f)) ->
  files (convert_json_to_txt json_dir save_dir classes format
           (pre ++ f :: post) st) !! txt_path save_dir (json_fname f)
  = Some (String.concat EmptyString txt).
Proof.
  intros Hj Hres Hpost. rewrite run_effect. cbn [files].
  rewrite omap_app, omap_cons_list.
  assert (Hout : output save_dir classes format f =
                 Some (txt_path save_dir (json_fname f),
                       String.concat EmptyString txt)).
  { unfold output. rewrite Hj, Hres. reflexivity. }
  rewrite Hout. simpl option_list.
  eapply fold_store_last; [reflexivity|].
  intros Hin. apply in_outputs in Hin as (g & Hg & Hgj & Hok & Hpath).
  exact (Hpost g Hg Hgj Hok Hpath).
Qed.

Lemma written_content_example :
  files (convert_json_to_txt "in" "out" ["cat"] "yolo"
           ([] ++ good_entry :: [bad_entry; other_entry]) kept)
    !! txt_path "out" (json_fname good_entry)
  = Some (String.concat EmptyString ["0 0.100000 0.100000" +:+ nl]).
Proof.
  apply written_content.
  - reflexivity.
  - vm_compute. reflexivity.
  - intros g [<-|[<-|[]]] Hj Hok; vm_compute in Hj, Hok |- *; discriminate.
Defined.

(** X7. Running the converter a second time over the same listing leaves
    the files as the first run left them. *)
Theorem rerun_same_files (json_dir save_dir : string) (classes : list string)
    (format : string) (listing : list entry) (st : state) :
  files (convert_json_to_txt json_dir save_dir classes format listing
           (convert_json_to_txt json_dir save_dir classes format listing st))
  = files (convert_json_to_txt json_dir save_dir classes format listing st).
Proof.
  rewrite (run_effect _ _ _ _ listing
             (convert_json_to_txt json_dir save_dir classes format listing st)).
  rewrite (run_effect _ _ _ _ listing st). cbn [files].
  apply fold_store_idem.
Qed.

Lemma output_or_report (json_dir save_dir : string) (classes : list string)
    (format : string) (listing : list entry) :
  (length (omap (output save_dir classes format) listing)
   + length (omap (report json_dir classes format) listing))%nat
  = length (List.filter is_json listing).
Proof.
  induction listing as [|f l IH]; [reflexivity|].
  rewrite !omap_cons_list, !length_app. cbn [List.filter].
  unfold output at 1, report at 1.
  destruct (is_json f); simpl; [|exact IH].
  destruct (file_result classes format f) as [txt|e]; [simpl; lia|].
  destruct e; simpl; lia.
Qed.

(** X8. When the format is one of the two choices, the class source
    loads, the save directory can be created and the directory can be
    listed, [main] finishes: it prints the number of classes, then one
    line for each .json entry that failed (and none for the others), then
    the completion line, whether or not any file was converted. *)
Theorem main_prints (w : world) (a : args) (classes : list string)
    (listing : list entry) :
  In (arg_format a) format_choices ->
  load_classes (open_lines w) (arg_classes_file a) (arg_classes a) = Ok classes ->
  makedirs w (arg_save_dir a) = Ok tt ->
  listdir w (arg_json_dir a) = Ok listing ->
  exists st,
    main w a = Finished st
    /\ stdout st =
       LoadedClasses (length classes)
       :: omap (report (arg_json_dir a) classes (arg_format a)) listing
       ++ [ConversionCompleted]
    /\ (length (omap (report (arg_json_dir a) classes (arg_format a)) listing)
        + length (omap (output (arg_save_dir a) classes (arg_format a)) listing))%nat
       = length (List.filter is_json listing).
Proof.
  intros Hformat Hload Hdir Hlist. unfold main.
  apply existsb_eqb_In in Hformat. rewrite Hformat, Hload, Hdir, Hlist.
  assert (Hgiven : negb (given (arg_classes_file a))
                   && negb (given (arg_classes a)) = false).
  { unfold load_classes in Hload.
    destruct (given (arg_classes_file a)); [reflexivity|].
    destruct (given (arg_classes a)); [reflexivity | discriminate]. }
  rewrite Hgiven. eexists. split; [reflexivity|]. split.
  - rewrite run_effect. reflexivity.
  - rewrite Nat.add_comm. apply output_or_report.
Qed.

Lemma main_prints_example :
  exists st,
    main one_class_file class_file_only = Finished st
    /\ stdout st =
       LoadedClasses (length ["cat"])
       :: omap (report (arg_json_dir class_file_only) ["cat"]
                  (arg_format class_file_only))
            [mkEntry "a.json" (Ok only_cats) (Ok tt)]
       ++ [ConversionCompleted]
    /\ (length (omap (report (arg_json_dir class_file_only) ["cat"]
                        (arg_format class_file_only))
                  [mkEntry "a.json" (Ok only_cats) (Ok tt)])
        + length (omap (output (arg_save_dir class_file_only) ["cat"]
                          (arg_format class_file_only))
                    [mkEntry "a.json" (Ok only_cats) (Ok tt)]))%nat
       = length (List.filter is_json [mkEntry "a.json" (Ok only_cats) (Ok tt)]).
Proof.
  apply main_prints; [left; reflexivity | reflexivity..].
Defined.

(** A format outside the choices, or a save directory that cannot be
    created, stops [main] before any file is read. *)
Lemma main_refuses_format (w : world) (a : args) :
  ~ In (arg_format a) format_choices -> main w a = UsageError initial.
Proof.
  intros Hformat. unfold main.
  destruct (existsb (String.eqb (arg_format a)) format_choices) eqn:Hin;
    [|reflexivity].
  apply existsb_eqb_In in Hin. contradiction.
Qed.

Lemma main_needs_save_dir (w : world) (a : args) (classes : list string)
    (e : exn) :
  In (arg_format a) format_choices ->
  load_classes (open_lines w) (arg_classes_file a) (arg_classes a) = Ok classes ->
  makedirs w (arg_save_dir a) = Raise e ->
  main w a = Uncaught e (print (LoadedClasses (length classes)) initial).
Proof.
  intros Hformat Hload Hdir. unfold main.
  apply existsb_eqb_In in Hformat. rewrite Hformat, Hload, Hdir.
  assert (Hgiven : negb (given (arg_classes_file a))
                   && negb (given (arg_classes a)) = false).
  { unfold load_classes in Hload.
    destruct (given (arg_classes_file a)); [reflexivity|].
    destruct (given (arg_classes a)); [reflexivity | discriminate]. }
  rewrite Hgiven. reflexivity.
Qed.

End BatchFacts.

Module LineFacts.
Import Py PyFacts StringFacts Converter ConverterBatch ConverterFacts.
Import ConverterScenarios.

(** ** The name of the text file *)

Lemma rsplit_at_absent (c : ascii) (s : string) :
  ~ In c (to_list s) -> rsplit_at c s = None.
Proof.
  intros Hs. destruct (rsplit_at c s) as [[pre suf]|] eqn:H; [|reflexivity].
  apply rsplit_at_some in H as [-> (w & -> & _)].
  exfalso. apply Hs. rewrite to_list_app. apply in_or_app. right. left.
  reflexivity.
Qed.

Lemma rsplit_at_last (c : ascii) (stem w : string) :
  ~ In c (to_list w) ->
  rsplit_at c (stem +:+ String c w) = Some (stem, String c w).
Proof.
  intros Hw. induction stem as [|a stem IH].
  - change (EmptyString +:+ String c w) with (String c w).
    cbn [rsplit_at]. rewrite (rsplit_at_absent c w Hw), Ascii.eqb_refl.
    reflexivity.
  - change (String a stem +:+ String c w) with (String a (stem +:+ String c w)).
    cbn [rsplit_at]. rewrite IH. reflexivity.
Qed.

Lemma lower_app_inv (s p q : string) :
  lower s = p +:+ q ->
  exists s1 s2, s = s1 +:+ s2 /\ lower s1 = p /\ lower s2 = q.
Proof.
  revert s. induction p as [|a p IH]; intros s H.
  - exists EmptyString, s. auto.
  - destruct s as [|b s]; [discriminate|].
    change (String a p +:+ q) with (String a (p +:+ q)) in H.
    cbn [lower] in H. injection H as Ha Hs.
    destruct (IH s Hs) as (s1 & s2 & -> & H1 & H2).
    exists (String b s1), s2. cbn [lower]. rewrite Ha, H1. auto.
Qed.

(** What [lower] turns into [.json] is a dot followed by four characters
    that are not dots. *)
Lemma json_extension (ext : string) :
  lower ext = ".json" ->
  exists w, ext = String "."%char w /\ ~ In "."%char (to_list w).
Proof.
  destruct ext as [|c0 [|c1 [|c2 [|c3 [|c4 [|c5 r]]]]]]; try discriminate.
  cbn [lower]. intros [= H0 H1 H2 H3 H4].
  apply lower_char_dot in H0. subst c0.
  exists (String c1 (String c2 (String c3 (String c4 EmptyString)))).
  split; [reflexivity|]. simpl.
  intros [E|[E|[E|[E|[]]]]]; subst;
    first [discriminate H1 | discriminate H2 | discriminate H3 | discriminate H4].
Qed.

(** X4. For an entry of the directory that the loop accepts, the text
    file is named after what stands before the extension, whatever the
    case of the extension; when only dots (or nothing) stand before it,
    [os.path.splitext] finds no extension and [.txt] is added to the whole
    name. *)
Theorem txt_name (save_dir fname : string) :
  Enhancer.no_slash fname = true ->
  endswith (lower fname) ".json" = true ->
  exists stem ext,
    fname = stem +:+ ext /\ lower ext = ".json"
    /\ txt_path save_dir fname =
       path_join save_dir
         ((if all_dots stem then fname else stem) +:+ ".txt").
Proof.
  intros Hslash Hext.
  apply endswith_spec in Hext as [p Hp].
  apply lower_app_inv in Hp as (stem & ext & -> & _ & Hlow).
  exists stem, ext. split; [reflexivity|]. split; [exact Hlow|].
  destruct (json_extension ext Hlow) as (w & -> & Hw).
  unfold txt_path, splitext.
  rewrite (rsplit_at_absent "/"%char _ (proj1 (no_slash_spec _) Hslash)).
  rewrite (rsplit_at_last "."%char stem w Hw).
  destruct (all_dots stem); reflexivity.
Qed.

Lemma txt_name_example :
  exists stem ext,
    "a.b.JSON" = stem +:+ ext /\ lower ext = ".json"
    /\ txt_path "out" "a.b.JSON" =
       path_join "out"
         ((if all_dots stem then "a.b.JSON" else stem) +:+ ".txt").
Proof. apply txt_name; reflexivity. Defined.

(** ** The lines of one document *)

Lemma index_of_nth (s : string) (l : list string) (i : nat) :
  index_of s l = Some i -> nth_error l i = Some s.
Proof.
  revert i. induction l as [|c l IH]; intros i; simpl; [discriminate|].
  destruct (String.eqb_spec c s) as [->|Hne].
  - intros [= <-]. reflexivity.
  - destruct (index_of s l) as [j|]; [|discriminate].
    intros [= <-]. simpl. apply IH. reflexivity.
Qed.

(** The two ways out of the body of the loop that raise nothing. *)
Lemma shape_line_cases (classes : list string) (format : string)
    (img_w img_h shape : json) (r : option string) :
  shape_line classes format img_w img_h shape = Ok r ->
  match r with
  | None => contributes shape = false
  | Some line => contributes shape = true /\ headed classes format line
  end.
Proof.
  destruct shape as [| | | | | |d]; try discriminate.
  unfold shape_line, contributes, py_get. cbn [mbind result_bind].
  destruct (truthy (default JNull (dict_get "label" d))) eqn:Ht; cbn [negb andb].
  2:{ intros [= <-]. reflexivity. }
  destruct (py_in (default JNull (dict_get "label" d)) classes) eqn:Hin;
    cbn [negb]; [|discriminate].
  destruct (truthy (default (JArr []) (dict_get "points" d))) eqn:Hp; cbn [negb].
  2:{ intros [= <-]. reflexivity. }
  apply py_in_is_str in Hin as (label & Hlabel & _). rewrite Hlabel.
  unfold py_index. destruct (index_of label classes) as [i|] eqn:Hi;
    cbn [mbind result_bind]; [|discriminate].
  apply index_of_nth in Hi.
  destruct (py_iter _) as [ps|e]; cbn [mbind result_bind]; [|discriminate].
  destruct (String.eqb format "yolo") eqn:Hf.
  - destruct (mapM _ ps) as [normalized|e]; cbn [mbind result_bind];
      [|discriminate].
    intros [= <-]. split; [reflexivity|].
    exists i, label, (join " " normalized). rewrite Hf. auto.
  - destruct (mapM _ ps) as [coordinates|e]; cbn [mbind result_bind];
      [|discriminate].
    intros [= <-]. split; [reflexivity|].
    exists i, label, (join " " coordinates). rewrite Hf. auto.
Qed.

Lemma shapes_loop_lines (classes : list string) (format : string)
    (img_w img_h : json) (shapes : list json) (acc out : list string) :
  shapes_loop classes format img_w img_h shapes acc = Ok out ->
  exists new,
    out = acc ++ new
    /\ length new = length (List.filter contributes shapes)
    /\ Forall (headed classes format) new.
Proof.
  revert acc. induction shapes as [|s shapes IH]; intros acc; simpl.
  - intros [= <-]. exists []. rewrite app_nil_r. auto.
  - destruct (shape_line classes format img_w img_h s) as [r|e] eqn:Hs;
      cbn [mbind result_bind]; [|discriminate].
    apply shape_line_cases in Hs. intros Hrest.
    destruct (IH _ Hrest) as (new & -> & Hlen & Hall).
    destruct r as [line|].
    + destruct Hs as [Hc Hline]. rewrite Hc.
      exists (line :: new). rewrite <- app_assoc. simpl. auto.
    + rewrite Hs. exists new. auto.
Qed.

(** X9. A document that is transcoded without an exception gives one
    line for each shape that has both a truthy label and a truthy
    list of points, and none for the others. *)
Theorem one_line_per_shape (classes : list string) (format : string)
    (fields : list (string * json)) (shapes : list json) (lines : list string) :
  default (JArr []) (dict_get "shapes" fields) = JArr shapes ->
  transcode classes format (JObj fields) = Ok lines ->
  length lines = length (List.filter contributes shapes).
Proof.
  intros Hshapes. unfold transcode, py_get. cbn [mbind result_bind].
  destruct (_ || _); [discriminate|].
  rewrite Hshapes. cbn [py_iter]. intros Hloop.
  apply shapes_loop_lines in Hloop as (new & -> & Hlen & _). exact Hlen.
Qed.

Lemma one_line_per_shape_example :
  exists lines,
    transcode ["cat"; "dog"] "yolo" (JObj (fields_of cat_pointless_cat_dog))
      = Ok lines
    /\ length lines
       = length (List.filter contributes
                   [shape "cat" [(10, 20)]; shape "cat" [];
                    shape "dog" [(50, 100)]]).
Proof.
  eexists. split; [vm_compute; reflexivity|].
  apply (one_line_per_shape ["cat"; "dog"] "yolo"
           (fields_of cat_pointless_cat_dog)).
  - reflexivity.
  - vm_compute. reflexivity.
Defined.

(** X10. Every line of a document that is transcoded without an
    exception starts with a registered class (its 0-based position in
    the registry for yolo, its name otherwise), followed by a space, and
    ends with a newline. *)
Theorem lines_start_with_class (classes : list string) (format : string)
    (data : json) (lines : list string) :
  transcode classes format data = Ok lines ->
  Forall (headed classes format) lines.
Proof.
  unfold transcode.
  destruct (py_get data "imageHeight" JNull) as [img_h|e];
    cbn [mbind result_bind]; [|discriminate].
  destruct (py_get data "imageWidth" JNull) as [img_w|e];
    cbn [mbind result_bind]; [|discriminate].
  destruct (_ || _); [discriminate|].
  destruct (py_get data "shapes" (JArr [])) as [shapes|e];
    cbn [mbind result_bind]; [|discriminate].
  destruct (py_iter shapes) as [items|e]; cbn [mbind result_bind];
    [|discriminate].
  intros Hloop.
  apply shapes_loop_lines in Hloop as (new & -> & _ & Hall). exact Hall.
Qed.

Lemma lines_start_with_class_example :
  exists lines,
    transcode ["cat"; "dog"] "voc" cat_then_dog = Ok lines
    /\ Forall (headed ["cat"; "dog"] "voc") lines.
Proof.
  eexists. split; [vm_compute; reflexivity|].
  apply (lines_start_with_class ["cat"; "dog"] "voc" cat_then_dog).
  vm_compute. reflexivity.
Defined.

(** ** Formats *)

Lemma shape_line_other_format (classes : list string) (format : string)
    (img_w img_h shape : json) :
  format <> "yolo" ->
  shape_line classes format img_w img_h shape
  = shape_line classes "voc" img_w img_h shape.
Proof.
  intros Hf. unfold shape_line.
  apply String.eqb_neq in Hf. rewrite Hf. reflexivity.
Qed.

Lemma shapes_loop_other_format (classes : list string) (format : string)
    (img_w img_h : json) (shapes : list json) (acc : list string) :
  format <> "yolo" ->
  shapes_loop classes format img_w img_h shapes acc
  = shapes_loop classes "voc" img_w img_h shapes acc.
Proof.
  intros Hf. revert acc. induction shapes as [|s shapes IH]; intros acc;
    [reflexivity|].
  cbn [shapes_loop]. rewrite (shape_line_other_format _ _ _ _ _ Hf).
  destruct (shape_line classes "voc" img_w img_h s) as [r|e];
    cbn [mbind result_bind]; [apply IH | reflexivity].
Qed.

Lemma transcode_other_format (classes : list string) (format : string)
    (data : json) :
  format <> "yolo" ->
  transcode classes format data = transcode classes "voc" data.
Proof.
  intros Hf. unfold transcode.
  destruct (py_get data "imageHeight" JNull) as [img_h|e];
    cbn [mbind result_bind]; [|reflexivity].
  destruct (py_get data "imageWidth" JNull) as [img_w|e];
    cbn [mbind result_bind]; [|reflexivity].
  destruct (_ || _); [reflexivity|].
  destruct (py_get data "shapes" (JArr [])) as [shapes|e];
    cbn [mbind result_bind]; [|reflexivity].
  destruct (py_iter shapes) as [items|e]; cbn [mbind result_bind];
    [|reflexivity].
  apply shapes_loop_other_format, Hf.
Qed.

(** X11. [convert_json_to_txt] tells yolo from everything else: with any
    format other than yolo a run does what it does with voc. *)
Theorem other_formats_are_voc (json_dir save_dir : string)
    (classes : list string) (format : string) (listing : list entry)
    (st : state) :
  format <> "yolo" ->
  convert_json_to_txt json_dir save_dir classes format listing st
  = convert_json_to_txt json_dir save_dir classes "voc" listing st.
Proof.
  intros Hf. unfold convert_json_to_txt. revert st.
  induction listing as [|f l IH]; intros st; [reflexivity|].
  cbn [fold_left]. rewrite IH. f_equal.
  unfold convert_one. destruct (negb _); [reflexivity|].
  destruct (loaded f) as [data|e]; cbn [mbind result_bind]; [|reflexivity].
  rewrite (transcode_other_format classes format data Hf). reflexivity.
Qed.

Lemma other_formats_example :
  convert_json_to_txt "in" "out" ["cat"] "coco"
    [mkEntry "a.json" (Ok only_cats) (Ok tt)] initial
  = convert_json_to_txt "in" "out" ["cat"] "voc"
      [mkEntry "a.json" (Ok only_cats) (Ok tt)] initial.
Proof. apply other_formats_are_voc. discriminate. Defined.

End LineFacts.

Module NumberFacts.
Import Py PyFacts Converter ConverterBatch.

(** ** Integers that a double holds exactly *)

Lemma iter_xO_value (d p : positive) :
  Zpos (Pos.iter xO p d) = Zpos p * 2 ^ Zpos d.
Proof.
  induction d as [|d IH] using Pos.peano_ind.
  - cbn [Pos.iter]. rewrite Pos2Z.inj_xO. change (2 ^ 1) with 2. lia.
  - rewrite Pos.iter_succ, Pos2Z.inj_succ, Z.pow_succ_r by lia.
    rewrite Pos2Z.inj_xO, IH. lia.
Qed.

Lemma iter_xO_digits (d p : positive) :
  Zpos (digits2_pos (Pos.iter xO p d)) = Zpos (digits2_pos p) + Zpos d.
Proof.
  induction d as [|d IH] using Pos.peano_ind.
  - simpl digits2_pos. lia.
  - rewrite Pos.iter_succ. cbn [digits2_pos]. lia.
Qed.

(** A mantissa of 53 digits with a small exponent is kept as it is. *)
Lemma binary_round_aux_canonical (s : bool) (m : positive) (e : Z) :
  Zpos (digits2_pos m) = 53 -> -52 <= e <= 0 ->
  binary_round_aux prec emax s (Zpos m) e loc_Exact = S754_finite s m e.
Proof.
  intros Hd He. unfold binary_round_aux, shr_fexp.
  cbn [Zdigits2 shr_record_of_loc].
  replace (fexp prec emax (Zpos (digits2_pos m) + e) - e) with 0
    by (unfold fexp, emin, prec, emax; lia).
  cbn [shr shr_m loc_of_shr_record round_nearest_even Zdigits2
       shr_record_of_loc].
  replace (fexp prec emax (Zpos (digits2_pos m) + e) - e) with 0
    by (unfold fexp, emin, prec, emax; lia).
  cbn [shr shr_m].
  replace (e <=? emax - prec) with true
    by (symmetry; apply Z.leb_le; unfold emax, prec; lia).
  reflexivity.
Qed.

(** The double nearest to an integer below 2^53 is that integer. *)
Lemma binary_round_small (s : bool) (p : positive) :
  Zpos p < 2 ^ 53 ->
  exists m e,
    binary_round prec emax s p 0 = S754_finite s m e
    /\ e <= 0 /\ Zpos m = Zpos p * 2 ^ (- e).
Proof.
  intros Hp. pose proof (digits2_lower p) as Hlow.
  assert (Hd : Zpos (digits2_pos p) <= 53).
  { destruct (Z_le_gt_dec (Zpos (digits2_pos p)) 53) as [|Hgt]; [assumption|].
    exfalso.
    assert (2 ^ 53 <= 2 ^ (Zpos (digits2_pos p) - 1))
      by (apply Z.pow_le_mono_r; lia).
    lia. }
  unfold binary_round, shl_align.
  replace (fexp prec emax (Zpos (digits2_pos p) + 0) - 0)
    with (Zpos (digits2_pos p) - 53)
    by (unfold fexp, emin, prec, emax; lia).
  replace (fexp prec emax (Zpos (digits2_pos p) + 0))
    with (Zpos (digits2_pos p) - 53)
    by (unfold fexp, emin, prec, emax; lia).
  destruct (Zpos (digits2_pos p) - 53) as [|d|d] eqn:Hdiff; [|lia|].
  - exists p, 0. split; [|split; [lia | simpl; lia]].
    apply binary_round_aux_canonical; lia.
  - exists (Pos.iter xO p d), (Zneg d). split; [|split; [lia|]].
    + apply binary_round_aux_canonical; [rewrite iter_xO_digits|]; lia.
    + rewrite iter_xO_value. reflexivity.
Qed.

Lemma scaled_round_whole (m p : positive) (e : Z) (k : nat) :
  e <= 0 -> Zpos m = Zpos p * 2 ^ (- e) ->
  scaled_round m e k = Zpos p * pow10 k.
Proof.
  intros He Hm. destruct (Z.eq_dec e 0) as [->|Hne].
  - rewrite scaled_round_exact by lia. simpl in Hm. rewrite Hm. simpl. lia.
  - unfold scaled_round.
    replace (0 <=? e) with false by (symmetry; apply Z.leb_gt; lia).
    cbv zeta. rewrite Hm.
    assert (Hpos : 0 < 2 ^ (- e)) by (apply Z.pow_pos_nonneg; lia).
    replace (Zpos p * 2 ^ (- e) * pow10 k)
      with (Zpos p * pow10 k * 2 ^ (- e)) by lia.
    rewrite Z.mod_mul, Z.div_mul by lia.
    destruct (Z.compare_spec (2 * 0) (2 ^ (- e))) as [Heq|Hlt|Hgt];
      [exfalso; lia | reflexivity | exfalso; lia].
Qed.

Lemma fixed_whole (n : Z) : fixed 1 (n * pow10 1) = pretty n +:+ ".0".
Proof.
  unfold fixed.
  assert (H10 : pow10 1 = 10) by reflexivity.
  rewrite Z.div_mul, Z.mod_mul by (rewrite H10; lia). reflexivity.
Qed.

Lemma format_int_whole (z : Z) :
  Z.abs z < 2 ^ 53 -> format_f 1 (JInt z) = Ok (whole z).
Proof.
  intros Hz. unfold format_f, float_of_int, binary_normalize, whole.
  destruct z as [|p|p].
  - reflexivity.
  - destruct (binary_round_small false p Hz) as (m & e & -> & He & Hm).
    cbn [fmap result_fmap format_float].
    rewrite (scaled_round_whole m p e 1 He Hm), fixed_whole. reflexivity.
  - destruct (binary_round_small true p Hz) as (m & e & -> & He & Hm).
    cbn [fmap result_fmap format_float].
    rewrite (scaled_round_whole m p e 1 He Hm), fixed_whole. reflexivity.
Qed.

(** X20. In the voc format a point whose coordinates are integers below
    2^53 in absolute value is written as the two integers, each followed
    by [.0]: the passage through a double loses nothing. *)
Theorem integer_point_written_whole (x y : Z) (rest : list json) :
  Z.abs x < 2 ^ 53 -> Z.abs y < 2 ^ 53 ->
  voc_pair (JArr (JInt x :: JInt y :: rest)) = Ok (whole x +:+ " " +:+ whole y).
Proof.
  intros Hx Hy. unfold voc_pair. cbn [subscript nth_error mbind result_bind].
  rewrite (format_int_whole x Hx). cbn [mbind result_bind].
  rewrite (format_int_whole y Hy). reflexivity.
Qed.

Lemma integer_point_example :
  voc_pair (JArr [JInt 640; JInt (-3)]) = Ok (whole 640 +:+ " " +:+ whole (-3))
  /\ whole 640 +:+ " " +:+ whole (-3) = "640.0 -3.0".
Proof.
  split; [apply integer_point_written_whole; reflexivity|].
  vm_compute. reflexivity.
Defined.

End NumberFacts.

(* ===================================================================== *)
(** * Part XI: the enhancer, variant by variant and image by image       *)
(* ===================================================================== *)

Module VariantFacts.
Import Py PyFacts StringFacts Enhancer EnhancerRun EnhancerScenarios.
Import EnhancerBatch EnhancerFailures.

(** ** The engine *)

(** X12. [apply_enhancement] reads its parameters through the five keys
    brightness, contrast, sharpness, color and blur_radius only: two
    dictionaries that agree on these five give the same result, whatever
    else they hold. *)
Theorem apply_enhancement_reads_five_keys `{Imaging} (img : image)
    (p q : list (string * json)) :
  (forall t, dict_get (key_of t) p = dict_get (key_of t) q) ->
  apply_enhancement img p = apply_enhancement img q.
Proof.
  intros Hk.
  pose proof (Hk Brightness) as Hb. pose proof (Hk Contrast) as Hc.
  pose proof (Hk Sharpness) as Hs. pose proof (Hk Color) as Ho.
  pose proof (Hk GaussianBlur) as Hg. cbn [key_of] in Hb, Hc, Hs, Ho, Hg.
  unfold apply_enhancement, has_key, item.
  rewrite Hb, Hc, Hs, Ho, Hg. reflexivity.
Qed.

Lemma unknown_key_ignored :
  apply_enhancement (H := symbolic) ("img/a.png", []) (parameters bright)
  = apply_enhancement (H := symbolic) ("img/a.png", []) bright_with_note.
Proof.
  apply (apply_enhancement_reads_five_keys (H := symbolic)).
  intros t. destruct t; reflexivity.
Defined.

(** ** One image *)

Section Image.
Context `{Imaging} (ds : dataset) (output_root : string).

Lemma process_image_eq (enhancements : list enhancement) (st : state)
    (img_file : string) :
  process_image ds output_root enhancements st img_file =
    if negb (has_image_extension img_file) then st
    else if negb (annotation_exists ds (annotation_path_of ds img_file))
    then print (SkippingUnannotated img_file) st
    else
      match opened ds img_file with
      | Raise e => print (FailedImage img_file e) st
      | Ok (meta, img) =>
          match variants_loop ds output_root (annotation_path_of ds img_file)
                  (base_of img_file) (ext_of img_file) img meta
                  enhancements st with
          | (st, None) => print (Processed img_file (length enhancements)) st
          | (st, Some e) => print (FailedImage img_file e) st
          end
      end.
Proof. reflexivity. Qed.

Lemma variants_loop_app (annotation_path base_name ext : string)
    (img : image) (meta : option exif) (a b : list enhancement) (st : state) :
  variants_loop ds output_root annotation_path base_name ext img meta
    (a ++ b) st =
    match variants_loop ds output_root annotation_path base_name ext img meta
            a st with
    | (st', None) =>
        variants_loop ds output_root annotation_path base_name ext img meta
          b st'
    | (st', Some e) => (st', Some e)
    end.
Proof.
  revert st. induction a as [|enh a IH]; intros st; simpl; [reflexivity|].
  destruct (_ ≫= _) as [enhanced|e]; [apply IH | reflexivity].
Qed.

(** The loop in terms of [variant]. *)
Lemma variants_loop_cons (annotation_path base_name ext : string)
    (img : image) (meta : option exif) (enh : enhancement)
    (rest : list enhancement) (st : state) :
  variants_loop ds output_root annotation_path base_name ext img meta
    (enh :: rest) st =
    match variant output_root base_name ext img meta enh with
    | Raise e => (st, Some e)
    | Ok w =>
        variants_loop ds output_root annotation_path base_name ext img meta
          rest
          (rewrite_annotation ds output_root annotation_path base_name ext
             (alias enh) (write (fst w) (snd w) st))
    end.
Proof.
  cbn [variants_loop]. unfold variant.
  destruct (apply_enhancement img (parameters enh)) as [enhanced|e];
    cbn [mbind result_bind]; [|reflexivity].
  destruct (save _ enhanced meta) as [[]|e]; reflexivity.
Qed.

Lemma variants_loop_all_saved (annotation_path base_name ext : string)
    (img : image) (meta : option exif) (enhancements : list enhancement)
    (st : state) :
  Forall (fun enh => is_ok (variant output_root base_name ext img meta enh)
                     = true) enhancements ->
  snd (variants_loop ds output_root annotation_path base_name ext img meta
         enhancements st) = None.
Proof.
  intros Hall. revert st.
  induction Hall as [|enh rest Hok _ IH]; intros st; [reflexivity|].
  rewrite variants_loop_cons.
  destruct (variant _ _ _ _ _ enh) as [w|e]; [apply IH | discriminate].
Qed.

(** X15. When the engine or the encoder raises for one enhancement, the
    image is closed with a failure line: the enhancements after it are not
    tried, and the files are those a run with only the enhancements before
    it leaves. *)
Theorem failed_variant_stops_image (pre post : list enhancement)
    (enh : enhancement) (st : state) (img_file : string)
    (meta : option exif) (img : image) (e : exn) :
  has_image_extension img_file = true ->
  annotation_exists ds (annotation_path_of ds img_file) = true ->
  opened ds img_file = Ok (meta, img) ->
  Forall (fun p => is_ok (variant output_root (base_of img_file)
                            (ext_of img_file) img meta p) = true) pre ->
  variant output_root (base_of img_file) (ext_of img_file) img meta enh
    = Raise e ->
  exists st',
    process_image ds output_root pre st img_file
      = print (Processed img_file (length pre)) st'
    /\ process_image ds output_root (pre ++ enh :: post) st img_file
      = print (FailedImage img_file e) st'.
Proof.
  intros Hext Hann Hopen Hpre Hfail.
  rewrite !process_image_eq, Hext, Hann, Hopen. cbn [negb].
  rewrite variants_loop_app.
  pose proof (variants_loop_all_saved (annotation_path_of ds img_file)
                (base_of img_file) (ext_of img_file) img meta pre st Hpre)
    as Hnone.
  destruct (variants_loop ds output_root _ _ _ img meta pre st)
    as [st' r]. simpl in Hnone. subst r.
  exists st'. split; [reflexivity|].
  rewrite variants_loop_cons, Hfail. reflexivity.
Qed.

Lemma variants_loop_unreadable (annotation_path base_name ext : string)
    (img : image) (meta : option exif) (e : exn)
    (enhancements : list enhancement) (ws : list (string * file))
    (st : state) :
  load_annotation ds annotation_path = Raise e ->
  mapM (variant output_root base_name ext img meta) enhancements = Ok ws ->
  variants_loop ds output_root annotation_path base_name ext img meta
    enhancements st =
    (mkState (fold_left put ws (files st))
       (stdout st
        ++ map (fun _ => FailedAnnotation annotation_path e) enhancements),
     None).
Proof.
  intros Hload. revert ws st.
  induction enhancements as [|enh rest IH]; intros ws st.
  - intros [= <-]. destruct st. simpl. rewrite app_nil_r. reflexivity.
  - cbn [mapM]. rewrite variants_loop_cons.
    destruct (variant _ _ _ _ _ enh) as [w|e']; cbn [mbind result_bind];
      [|discriminate].
    destruct (mapM _ rest) as [ws'|e'] eqn:Hrest; cbn [mbind result_bind];
      [|discriminate].
    intros [= <-]. rewrite (IH ws' _ eq_refl).
    unfold rewrite_annotation. rewrite Hload. cbn [mbind result_bind].
    cbn [print write files stdout fold_left map]. rewrite <- app_assoc.
    reflexivity.
Qed.

(** X14. When the annotation of an image cannot be loaded, every
    enhanced image of it is written all the same; a failure line is
    printed for each enhancement, no annotation is written, and the image
    is reported as processed with the full number of versions. *)
Theorem unreadable_annotation_keeps_images (enhancements : list enhancement)
    (st : state) (img_file : string) (meta : option exif) (img : image)
    (e : exn) (ws : list (string * file)) :
  has_image_extension img_file = true ->
  annotation_exists ds (annotation_path_of ds img_file) = true ->
  opened ds img_file = Ok (meta, img) ->
  load_annotation ds (annotation_path_of ds img_file) = Raise e ->
  mapM (variant output_root (base_of img_file) (ext_of img_file) img meta)
    enhancements = Ok ws ->
  process_image ds output_root enhancements st img_file =
    mkState (fold_left put ws (files st))
      (stdout st
       ++ map (fun _ => FailedAnnotation (annotation_path_of ds img_file) e)
            enhancements
       ++ [Processed img_file (length enhancements)]).
Proof.
  intros Hext Hann Hopen Hload Hws.
  rewrite process_image_eq, Hext, Hann, Hopen. cbn [negb].
  rewrite (variants_loop_unreadable _ _ _ _ _ e enhancements ws st Hload Hws).
  unfold print. cbn [files stdout]. rewrite <- app_assoc. reflexivity.
Qed.

End Image.

Lemma failed_variant_example :
  exists st',
    process_image two_images "out" [bright] initial "a.png"
      = print (Processed "a.png" (length [bright])) st'
    /\ process_image two_images "out" ([bright] ++ broken :: [soft]) initial
         "a.png"
      = print (FailedImage "a.png" TypeError) st'.
Proof.
  apply (failed_variant_stops_image two_images "out" [bright] [soft] broken
           initial "a.png" None ("img/a.png", [])).
  - reflexivity.
  - reflexivity.
  - reflexivity.
  - constructor; [reflexivity | constructor].
  - reflexivity.
Defined.

Lemma unreadable_annotation_example :
  process_image unreadable_annotation "out" [bright; soft] initial "a.png" =
    mkState
      (fold_left put
         [("out/images_bright/a_bright.png",
           ImageFile (H := symbolic)
             ("img/a.png", [Enhanced Brightness (JInt 2)]) None);
          ("out/images_soft/a_soft.png",
           ImageFile (H := symbolic)
             ("img/a.png", [Enhanced Contrast (JInt 1);
                            Enhanced GaussianBlur (JInt 3)]) None)]
         (files (initial (H := symbolic))))
      (stdout (initial (H := symbolic))
       ++ map (fun _ => FailedAnnotation
                          (annotation_path_of unreadable_annotation "a.png")
                          JSONDecodeError) [bright; soft]
       ++ [Processed "a.png" (length [bright; soft])]).
Proof.
  apply (unreadable_annotation_keeps_images unreadable_annotation "out"
           [bright; soft] initial "a.png" None ("img/a.png", [])
           JSONDecodeError); reflexivity.
Defined.

(** A JPEG image without EXIF block is handed to its encoder with None
    for the block (lines 92 and 106): the first save raises, the image is
    reported as failed and nothing is written for it. *)
Lemma bare_jpeg_fails :
  process_dataset bare_jpeg "out" [bright; soft] initial
  = print (FailedImage "c.jpg" TypeError) (initial (H := symbolic)).
Proof. reflexivity. Qed.

End VariantFacts.

Module DatasetFacts.
Import Py PyFacts StringFacts Enhancer EnhancerRun EnhancerScenarios.
Import EnhancerBatch EnhancerFailures VariantFacts.

Section Dataset.
Context `{Imaging} (ds : dataset) (output_root : string).

(** ** The paths a run writes to *)

Lemma rewrite_annotation_other (annotation_path base_name ext a : string)
    (st : state) (p : string) :
  p <> ann_output_path output_root base_name a ->
  files (rewrite_annotation ds output_root annotation_path base_name ext a st)
    !! p = files st !! p.
Proof.
  intros Hp. unfold rewrite_annotation.
  destruct (_ ≫= _) as [doc|e]; [|reflexivity].
  cbn [write files]. apply lookup_insert_ne. congruence.
Qed.

Lemma variants_loop_other (annotation_path base_name ext : string)
    (img : image) (meta : option exif) (enhancements : list enhancement)
    (st : state) (p : string) :
  (forall enh, enh ∈ enhancements ->
     p <> img_output_path output_root base_name ext (alias enh)
     /\ p <> ann_output_path output_root base_name (alias enh)) ->
  files (fst (variants_loop ds output_root annotation_path base_name ext
                img meta enhancements st)) !! p
  = files st !! p.
Proof.
  revert st. induction enhancements as [|enh rest IH]; intros st Hp;
    [reflexivity|].
  rewrite variants_loop_cons.
  destruct (variant _ _ _ _ _ enh) as [w|e] eqn:Hw; [|reflexivity].
  destruct (Hp enh) as [Himg Hann]; [left|].
  rewrite IH by (intros e He; apply Hp; right; exact He).
  rewrite rewrite_annotation_other by exact Hann.
  cbn [write files]. apply lookup_insert_ne.
  unfold variant in Hw.
  destruct (apply_enhancement img (parameters enh)) as [enhanced|e];
    cbn [mbind result_bind] in Hw; [|discriminate].
  destruct (save _ enhanced meta) as [[]|e]; cbn [mbind result_bind] in Hw;
    [|discriminate].
  injection Hw as <-. simpl. congruence.
Qed.

Lemma process_image_other (enhancements : list enhancement) (st : state)
    (img_file p : string) :
  (has_image_extension img_file = true ->
   annotation_exists ds (annotation_path_of ds img_file) = true ->
   forall enh, enh ∈ enhancements ->
     p <> image_path output_root (img_file, enh)
     /\ p <> annotation_path output_root (img_file, enh)) ->
  files (process_image ds output_root enhancements st img_file) !! p
  = files st !! p.
Proof.
  intros Hp. rewrite process_image_eq.
  destruct (has_image_extension img_file); cbn [negb]; [|reflexivity].
  destruct (annotation_exists ds _); cbn [negb]; [|reflexivity].
  destruct (opened ds img_file) as [[meta img]|e]; [|reflexivity].
  pose proof (variants_loop_other (annotation_path_of ds img_file)
                (base_of img_file) (ext_of img_file) img meta enhancements
                st p (Hp eq_refl eq_refl)) as Hloop.
  destruct (variants_loop _ _ _ _ _ _ _ _ _) as [st' [e|]]; exact Hloop.
Qed.

Lemma process_list_other (enhancements : list enhancement)
    (listing : list string) (st : state) (p : string) :
  (forall img_file enh,
     img_file ∈ listing -> has_image_extension img_file = true ->
     annotation_exists ds (annotation_path_of ds img_file) = true ->
     enh ∈ enhancements ->
     p <> image_path output_root (img_file, enh)
     /\ p <> annotation_path output_root (img_file, enh)) ->
  files (fold_left (process_image ds output_root enhancements) listing st)
    !! p = files st !! p.
Proof.
  revert st. induction listing as [|f l IH]; intros st Hp; [reflexivity|].
  cbn [fold_left]. rewrite IH.
  - apply process_image_other. intros Hext Hann enh He.
    apply Hp; [left | exact Hext | exact Hann | exact He].
  - intros g enh Hg. apply Hp. right. exact Hg.
Qed.

(** ** Where the images come from *)

Lemma enhanced_print (enhancements : list enhancement) (l : log_line)
    (st : state) :
  images_enhanced ds output_root enhancements st ->
  images_enhanced ds output_root enhancements (print l st).
Proof. intros Hst. exact Hst. Qed.

Lemma rewrite_annotation_enhanced (enhancements : list enhancement)
    (annotation_path base_name ext a : string) (st : state) :
  images_enhanced ds output_root enhancements st ->
  images_enhanced ds output_root enhancements
    (rewrite_annotation ds output_root annotation_path base_name ext a st).
Proof.
  intros Hst. unfold rewrite_annotation.
  destruct (_ ≫= _) as [doc|e]; [|exact Hst].
  intros path img meta. cbn [write files]. rewrite lookup_insert.
  destruct (decide (_ = path)); [discriminate | apply Hst].
Qed.

Lemma variants_loop_enhanced (enhancements : list enhancement)
    (img_file : string) (img : image) (meta : option exif)
    (rest : list enhancement) (st : state) :
  img_file ∈ image_listing ds ->
  opened ds img_file = Ok (meta, img) ->
  (forall enh, enh ∈ rest -> enh ∈ enhancements) ->
  images_enhanced ds output_root enhancements st ->
  images_enhanced ds output_root enhancements
    (fst (variants_loop ds output_root (annotation_path_of ds img_file)
            (base_of img_file) (ext_of img_file) img meta rest st)).
Proof.
  intros Hf Hopen. revert st.
  induction rest as [|enh rest IH]; intros st Hsub Hst; [exact Hst|].
  rewrite variants_loop_cons.
  destruct (variant _ _ _ _ _ enh) as [w|e] eqn:Hw; [|exact Hst].
  apply IH; [intros e He; apply Hsub; right; exact He|].
  apply rewrite_annotation_enhanced.
  unfold variant in Hw.
  destruct (apply_enhancement img (parameters enh)) as [enhanced|e] eqn:Happly;
    cbn [mbind result_bind] in Hw; [|discriminate].
  destruct (save _ enhanced meta) as [[]|e]; cbn [mbind result_bind] in Hw;
    [|discriminate].
  injection Hw as <-. cbn [fst snd].
  intros path img' meta'. cbn [write files]. rewrite lookup_insert.
  destruct (decide (_ = path)) as [<-|Hne]; [|apply Hst].
  intros [= <- <-]. exists img_file, enh, img.
  split; [exact Hf|]. split; [apply Hsub; left|]. auto.
Qed.

Lemma process_image_enhanced (enhancements : list enhancement) (st : state)
    (img_file : string) :
  img_file ∈ image_listing ds ->
  images_enhanced ds output_root enhancements st ->
  images_enhanced ds output_root enhancements
    (process_image ds output_root enhancements st img_file).
Proof.
  intros Hf Hst. rewrite process_image_eq.
  destruct (negb (has_image_extension img_file)); [exact Hst|].
  destruct (negb (annotation_exists ds _)); [exact Hst|].
  destruct (opened ds img_file) as [[meta img]|e] eqn:Hopen; [|exact Hst].
  pose proof (variants_loop_enhanced enhancements img_file img meta
                enhancements st Hf Hopen (fun _ He => He) Hst) as Hloop.
  destruct (variants_loop _ _ _ _ _ _ _ _ _) as [st' [e|]]; exact Hloop.
Qed.

Lemma process_list_enhanced (enhancements : list enhancement)
    (listing : list string) (st : state) :
  (forall f, f ∈ listing -> f ∈ image_listing ds) ->
  images_enhanced ds output_root enhancements st ->
  images_enhanced ds output_root enhancements
    (fold_left (process_image ds output_root enhancements) listing st).
Proof.
  revert st. induction listing as [|f l IH]; intros st Hsub Hst; [exact Hst|].
  cbn [fold_left]. apply IH.
  - intros g Hg. apply Hsub. right. exact Hg.
  - apply process_image_enhanced; [apply Hsub; left | exact Hst].
Qed.

(** ** The effect of a run does not depend on where it starts *)

Lemma layered_id : layered (fun st => st).
Proof.
  intros st. cbn [initial files stdout]. split.
  - symmetry. apply (left_id_L ∅ (∪)).
  - rewrite app_nil_r. reflexivity.
Qed.

Lemma layered_write (p : string) (c : file) : layered (write p c).
Proof.
  intros st. cbn [write initial files stdout]. split.
  - rewrite insert_empty. apply insert_union_singleton_l.
  - rewrite app_nil_r. reflexivity.
Qed.

Lemma layered_print (l : log_line) : layered (print l).
Proof.
  intros st. cbn [print initial files stdout]. split.
  - symmetry. apply (left_id_L ∅ (∪)).
  - reflexivity.
Qed.

Lemma layered_compose (first second : state -> state) :
  layered first -> layered second -> layered (fun st => second (first st)).
Proof.
  intros Hf Hs st.
  destruct (Hf st) as [Hf1 Hf2]. destruct (Hs (first st)) as [Hs1 Hs2].
  destruct (Hs (first initial)) as [Hi1 Hi2].
  rewrite Hs1, Hs2, Hi1, Hi2, Hf1, Hf2. split.
  - apply (assoc_L (∪)).
  - cbn [initial stdout]. rewrite <- app_assoc. reflexivity.
Qed.

Lemma layered_ext (step step' : state -> state) :
  (forall st, step st = step' st) -> layered step' -> layered step.
Proof. intros Heq Hl st. rewrite !Heq. apply Hl. Qed.

Lemma rewrite_annotation_layered (annotation_path base_name ext a : string) :
  layered (rewrite_annotation ds output_root annotation_path base_name ext a).
Proof.
  unfold rewrite_annotation.
  destruct (_ ≫= _) as [doc|e]; [apply layered_write | apply layered_print].
Qed.

Lemma variants_loop_layered (annotation_path base_name ext : string)
    (img : image) (meta : option exif) (enhancements : list enhancement) :
  exists r,
    (forall st,
       snd (variants_loop ds output_root annotation_path base_name ext img
              meta enhancements st) = r)
    /\ layered (fun st =>
         fst (variants_loop ds output_root annotation_path base_name ext img
                meta enhancements st)).
Proof.
  induction enhancements as [|enh rest (r & Hr & Hl)].
  - exists None. split; [reflexivity | apply layered_id].
  - destruct (variant output_root base_name ext img meta enh) as [w|e] eqn:Hw.
    + exists r. split.
      * intros st. rewrite variants_loop_cons, Hw. apply Hr.
      * eapply layered_ext.
        { intros st. rewrite variants_loop_cons, Hw. reflexivity. }
        apply (layered_compose
                 (fun st => rewrite_annotation ds output_root annotation_path
                              base_name ext (alias enh)
                              (write (fst w) (snd w) st))
                 (fun st => fst (variants_loop ds output_root annotation_path
                                   base_name ext img meta rest st)));
          [|exact Hl].
        apply (layered_compose (write (fst w) (snd w))
                 (rewrite_annotation ds output_root annotation_path base_name
                    ext (alias enh)));
          [apply layered_write | apply rewrite_annotation_layered].
    + exists (Some e). split.
      * intros st. rewrite variants_loop_cons, Hw. reflexivity.
      * eapply layered_ext; [|apply layered_id].
        intros st. rewrite variants_loop_cons, Hw. reflexivity.
Qed.

Lemma process_image_layered (enhancements : list enhancement)
    (img_file : string) :
  layered (fun st => process_image ds output_root enhancements st img_file).
Proof.
  eapply layered_ext; [intros st; apply process_image_eq|].
  destruct (negb (has_image_extension img_file)); [apply layered_id|].
  destruct (negb (annotation_exists ds _)); [apply layered_print|].
  destruct (opened ds img_file) as [[meta img]|e]; [|apply layered_print].
  destruct (variants_loop_layered (annotation_path_of ds img_file)
              (base_of img_file) (ext_of img_file) img meta enhancements)
    as (r & Hr & Hl).
  apply (layered_ext _
           (fun st =>
              print (match r with
                     | None => Processed img_file (length enhancements)
                     | Some e => FailedImage img_file e
                     end)
                (fst (variants_loop ds output_root
                        (annotation_path_of ds img_file) (base_of img_file)
                        (ext_of img_file) img meta enhancements st)))).
  - intros st. specialize (Hr st).
    destruct (variants_loop _ _ _ _ _ _ _ _ _) as [st' r']. simpl in Hr.
    subst r'. destruct r; reflexivity.
  - apply (layered_compose _ (print _)); [exact Hl | apply layered_print].
Qed.

Lemma process_list_layered (enhancements : list enhancement)
    (listing : list string) :
  layered (fold_left (process_image ds output_root enhancements) listing).
Proof.
  induction listing as [|f l IH]; [apply layered_id|].
  apply (layered_compose
           (fun st => process_image ds output_root enhancements st f)
           (fold_left (process_image ds output_root enhancements) l));
    [apply process_image_layered | exact IH].
Qed.

(** ** One closing line for each image *)





End Dataset.

(** X13. A run of the enhancer changes no path other than the image path
    and the annotation path of a listed image file that has its annotation,
    for one of the enhancements: files that are no images, images without
    annotation and everything else on the file system keep their
    content. *)
Theorem writes_only_job_paths `{Imaging} (ds : dataset) (output_root : string)
    (enhancements : list enhancement) (st : state) (p : string) :
  (forall img_file enh,
     img_file ∈ image_listing ds -> has_image_extension img_file = true ->
     annotation_exists ds (annotation_path_of ds img_file) = true ->
     enh ∈ enhancements ->
     p <> image_path output_root (img_file, enh)
     /\ p <> annotation_path output_root (img_file, enh)) ->
  files (process_dataset ds output_root enhancements st) !! p = files st !! p.
Proof. apply process_list_other. Qed.

Lemma inputs_untouched_example :
  files (process_dataset two_images "out" [bright; soft]
           (mkState (H := symbolic)
              {["ann/a.json" := JsonFile (annotation_of "a.png")]} []))
    !! "ann/a.json"
  = files (mkState (H := symbolic)
             {["ann/a.json" := JsonFile (annotation_of "a.png")]} [])
      !! "ann/a.json".
Proof.
  apply (writes_only_job_paths (H := symbolic)).
  intros img_file enh Hf _ _ He.
  apply list_elem_of_In in Hf. apply list_elem_of_In in He.
  destruct Hf as [<-|[<-|[<-|[]]]]; destruct He as [<-|[<-|[]]];
    split; vm_compute; discriminate.
Defined.

(** X16. Every image file that a run of the enhancer leaves is a listed
    image, opened, brought to RGB when it was not, and enhanced with the
    parameters of one of the enhancements; it lies at the image path of
    that image and enhancement and carries the EXIF block the opened file
    had before the conversion. *)
Theorem images_come_from_listing `{Imaging} (ds : dataset)
    (output_root : string) (enhancements : list enhancement)
    (path : string) (img : image) (meta : option exif) :
  files (process_dataset ds output_root enhancements initial) !! path
    = Some (ImageFile img meta) ->
  exists img_file enh raw rgb,
    img_file ∈ image_listing ds /\ enh ∈ enhancements
    /\ open_image ds (path_join (image_dir ds) img_file) = Ok raw
    /\ (if is_rgb raw then Ok raw else convert_rgb raw) = Ok rgb
    /\ apply_enhancement rgb (parameters enh) = Ok img
    /\ meta = exif_of raw
    /\ path = image_path output_root (img_file, enh).
Proof.
  intros Hlook.
  assert (Hinv : images_enhanced ds output_root enhancements
                   (process_dataset ds output_root enhancements initial)).
  { apply process_list_enhanced; [auto|].
    intros p i m Hp. simpl in Hp. rewrite lookup_empty in Hp. discriminate. }
  destruct (Hinv path img meta Hlook)
    as (img_file & enh & rgb & Hf & He & Hopen & Happly & Hpath).
  unfold opened in Hopen.
  destruct (open_image ds (path_join (image_dir ds) img_file)) as [raw|e]
    eqn:Hraw; cbn [mbind result_bind] in Hopen; [|discriminate].
  exists img_file, enh, raw, rgb.
  destruct (is_rgb raw); cbn [negb] in Hopen.
  - injection Hopen as <- <-. auto 10.
  - destruct (convert_rgb raw) as [rgb'|e]; cbn [mbind result_bind] in Hopen;
      [|discriminate].
    injection Hopen as <- <-. auto 10.
Qed.

Lemma images_come_from_listing_example :
  exists img_file enh raw rgb,
    img_file ∈ image_listing two_images /\ enh ∈ [bright; soft]
    /\ open_image two_images (path_join (image_dir two_images) img_file)
       = Ok raw
    /\ (if is_rgb raw then Ok raw else convert_rgb raw) = Ok rgb
    /\ apply_enhancement rgb (parameters enh)
       = Ok (("img/b.BMP", [Enhanced Contrast (JInt 1);
                            Enhanced GaussianBlur (JInt 3)])
             : @image symbolic)
    /\ None = exif_of raw
    /\ "out/images_soft/b_soft.BMP" = image_path "out" (img_file, enh).
Proof.
  apply (images_come_from_listing (H := symbolic) two_images "out"
           [bright; soft]).
  vm_compute. reflexivity.
Defined.

(** X18. A second run of the enhancer over the same inputs leaves the
    files as the first run left them. *)
Theorem second_run_same_files `{Imaging} (ds : dataset) (output_root : string)
    (enhancements : list enhancement) (st : state) :
  files (process_dataset ds output_root enhancements
           (process_dataset ds output_root enhancements st))
  = files (process_dataset ds output_root enhancements st).
Proof.
  destruct (process_list_layered ds output_root enhancements
              (image_listing ds)
              (process_dataset ds output_root enhancements st)) as [Hsnd _].
  destruct (process_list_layered ds output_root enhancements
              (image_listing ds) st) as [Hfst _].
  unfold process_dataset in *. rewrite Hsnd, Hfst.
  rewrite (assoc_L (∪)), (idemp_L (∪)). reflexivity.
Qed.


End DatasetFacts.

Module CountFacts.
Import Py PyFacts StringFacts Enhancer EnhancerRun EnhancerScenarios.
Import EnhancerBatch EnhancerFailures VariantFacts.

(** ** How many files a run can leave *)

Section Count.
Context `{Imaging} (P : string * file -> Prop) `{!forall x, Decision (P x)}.

(** [P] tells the images from the annotations. *)
Hypothesis one_kind :
  forall k k' img meta doc,
    P (k, ImageFile img meta) -> ~ P (k', JsonFile doc).

Lemma count_insert (m : gmap string file) (k : string) (v : file) :
  (length (filter P (map_to_list (<[k:=v]> m)))
   <= length (filter P (map_to_list m)) + 1)%nat.
Proof.
  destruct (m !! k) as [v'|] eqn:Hk.
  - rewrite <- (insert_delete_eq m k v).
    rewrite map_to_list_insert by apply lookup_delete_eq.
    rewrite <- (map_to_list_delete m k v' Hk).
    rewrite !filter_cons.
    destruct (decide (P (k, v))); destruct (decide (P (k, v'))); simpl; lia.
  - rewrite map_to_list_insert by exact Hk. rewrite filter_cons.
    destruct (decide (P (k, v))); simpl; lia.
Qed.

Lemma count_insert_skip (m : gmap string file) (k : string) (v : file) :
  ~ P (k, v) ->
  (length (filter P (map_to_list (<[k:=v]> m)))
   <= length (filter P (map_to_list m)))%nat.
Proof.
  intros Hv. destruct (m !! k) as [v'|] eqn:Hk.
  - rewrite <- (insert_delete_eq m k v).
    rewrite map_to_list_insert by apply lookup_delete_eq.
    rewrite <- (map_to_list_delete m k v' Hk).
    rewrite !filter_cons.
    destruct (decide (P (k, v))); [contradiction|].
    destruct (decide (P (k, v'))); simpl; lia.
  - rewrite map_to_list_insert by exact Hk. rewrite filter_cons.
    destruct (decide (P (k, v))); [contradiction | lia].
Qed.

Context (ds : dataset) (output_root : string).

(** One variant adds at most one file of the kind. *)
Lemma variant_count (annotation_path base_name ext a : string)
    (img : image) (meta : option exif) (p : string) (st : state) :
  (length (filter P (map_to_list (files
      (rewrite_annotation ds output_root annotation_path base_name ext a
         (write p (ImageFile img meta) st)))))
   <= length (filter P (map_to_list (files st))) + 1)%nat.
Proof.
  unfold rewrite_annotation.
  destruct (_ ≫= _) as [doc|e]; cbn [write print files].
  - destruct (decide (P (p, ImageFile img meta))) as [Himg|Himg].
    + etransitivity; [apply count_insert_skip; eapply one_kind, Himg|].
      apply count_insert.
    + etransitivity; [apply count_insert|].
      apply Nat.add_le_mono_r, count_insert_skip, Himg.
  - apply count_insert.
Qed.

Lemma variants_loop_count (annotation_path base_name ext : string)
    (img : image) (meta : option exif) (enhancements : list enhancement)
    (st : state) :
  (length (filter P (map_to_list (files (fst
      (variants_loop ds output_root annotation_path base_name ext img meta
         enhancements st)))))
   <= length (filter P (map_to_list (files st))) + length enhancements)%nat.
Proof.
  revert st. induction enhancements as [|enh rest IH]; intros st.
  - simpl. lia.
  - rewrite variants_loop_cons.
    destruct (variant _ _ _ _ _ enh) as [w|e] eqn:Hw; [|simpl; lia].
    etransitivity; [apply IH|].
    unfold variant in Hw.
    destruct (apply_enhancement img (parameters enh)) as [enhanced|e];
      cbn [mbind result_bind] in Hw; [|discriminate].
    destruct (save _ enhanced meta) as [[]|e]; cbn [mbind result_bind] in Hw;
      [|discriminate].
    injection Hw as <-. cbn [fst snd length].
    pose proof (variant_count annotation_path base_name ext (alias enh)
                  enhanced meta
                  (img_output_path output_root base_name ext (alias enh)) st).
    lia.
Qed.

Lemma process_image_count (enhancements : list enhancement) (st : state)
    (img_file : string) :
  (length (filter P (map_to_list (files
      (process_image ds output_root enhancements st img_file))))
   <= length (filter P (map_to_list (files st)))
      + (if has_image_extension img_file then length enhancements else 0))%nat.
Proof.
  rewrite process_image_eq.
  destruct (has_image_extension img_file); cbn [negb]; [|lia].
  destruct (negb (annotation_exists ds _)); [cbn [print files]; lia|].
  destruct (opened ds img_file) as [[meta img]|e]; [|cbn [print files]; lia].
  pose proof (variants_loop_count (annotation_path_of ds img_file)
                (base_of img_file) (ext_of img_file) img meta enhancements st)
    as Hloop.
  destruct (variants_loop _ _ _ _ _ _ _ _ _) as [st' [e|]]; exact Hloop.
Qed.

Lemma process_list_count (enhancements : list enhancement)
    (listing : list string) (st : state) :
  (length (filter P (map_to_list (files
      (fold_left (process_image ds output_root enhancements) listing st))))
   <= length (filter P (map_to_list (files st)))
      + length (List.filter has_image_extension listing)
        * length enhancements)%nat.
Proof.
  revert st. induction listing as [|f l IH]; intros st; [simpl; lia|].
  cbn [fold_left List.filter]. etransitivity; [apply IH|].
  pose proof (process_image_count enhancements st f) as Hone.
  destruct (has_image_extension f); cbn [length]; lia.
Qed.

End Count.

Lemma length_images_of `{Imaging} (ds : dataset) :
  length (images_of ds)
  = length (List.filter has_image_extension (image_listing ds)).
Proof.
  unfold images_of. induction (image_listing ds) as [|f l IH]; [reflexivity|].
  rewrite filter_cons. cbn [List.filter].
  destruct (decide (Is_true (has_image_extension f))) as [Hf|Hf];
    destruct (has_image_extension f); simpl in *; try tauto; lia.
Qed.

(** X21. Whatever fails and whatever names collide, a run of the enhancer
    adds at most one image file and at most one annotation file for each
    pair of a listed image file and an enhancement. *)
Theorem at_most_one_file_per_job `{Imaging} (ds : dataset)
    (output_root : string) (enhancements : list enhancement) (st : state) :
  (image_count (files (process_dataset ds output_root enhancements st))
   <= image_count (files st)
      + length (images_of ds) * length enhancements)%nat
  /\ (annotation_count (files (process_dataset ds output_root enhancements st))
      <= annotation_count (files st)
         + length (images_of ds) * length enhancements)%nat.
Proof.
  rewrite length_images_of. unfold image_count, annotation_count. split.
  - apply (process_list_count (fun kv => is_image (snd kv) = true)).
    intros k k' img meta doc _. discriminate.
  - apply (process_list_count (fun kv => is_image (snd kv) = false)).
    intros k k' img meta doc. discriminate.
Qed.

End CountFacts.
